(** * Dispatcher: event renderer, stream multiplexer and task scheduler

    A shallow embedding of [scripts/dispatcher_json_stream.py].  Python text
    is modelled as [string] (characters with code points below 256), Python
    integers as [Z], dynamically typed values (decoded JSON events, the YAML
    task registry) as [pyval], and every interaction with the outside world
    (spawning the agent process, reading its two pipes, writing to the two
    sinks, reading the registry, calling the notifier) as an event appended
    to a trace, answered by an environment that may depend on the whole
    history so far. *)

From Stdlib Require Import String Ascii List ZArith Bool Lia Arith.
Import ListNotations.
Local Open Scope string_scope.
Local Open Scope list_scope.
Local Open Scope Z_scope.

Infix "^^" := String.append (at level 60, right associativity).

Set Implicit Arguments.
Set Warnings "-register-all".

(** ** Python text helpers *)

Module PyStr.

(** [str.isspace] on the code points below 256. *)
Definition is_space (c : ascii) : bool :=
  let n := nat_of_ascii c in
  ((9 <=? n) && (n <=? 13) || (28 <=? n) && (n <=? 32)
   || (n =? 133) || (n =? 160))%nat.

Fixpoint lstrip (s : string) : string :=
  match s with
  | EmptyString => EmptyString
  | String c s' => if is_space c then lstrip s' else s
  end.

Definition reverse (s : string) : string :=
  string_of_list_ascii (rev (list_ascii_of_string s)).

Definition rstrip (s : string) : string := reverse (lstrip (reverse s)).

(** [s.strip()] *)
Definition strip (s : string) : string := rstrip (lstrip s).

(** Truthiness of a [str]: [bool(s)]. *)
Definition nonempty (s : string) : bool :=
  match s with EmptyString => false | String _ _ => true end.

(** [sep.join(parts)] *)
Fixpoint join (sep : string) (parts : list string) : string :=
  match parts with
  | [] => ""
  | [p] => p
  | p :: rest => p ^^ sep ^^ join sep rest
  end.

Definition newline : ascii := ascii_of_nat 10.
Definition nl : string := String newline EmptyString.
Definition carriage_return : ascii := ascii_of_nat 13.

(** What a text-mode pipe ([text=True], hence universal newlines) makes of
    the decoded output of a process: every [\r\n] and every other [\r]
    becomes [\n]. *)
Fixpoint universal_newlines (s : string) : string :=
  match s with
  | EmptyString => EmptyString
  | String c rest =>
      if Ascii.eqb c carriage_return then
        match rest with
        | String c' rest' =>
            if Ascii.eqb c' newline
            then String newline (universal_newlines rest')
            else String newline (universal_newlines rest)
        | EmptyString => String newline EmptyString
        end
      else String c (universal_newlines rest)
  end.

(** [fileobj.readline()] on the text still buffered in a text-mode pipe,
    newlines already translated by [universal_newlines]: the text up to
    and including the first newline, or all of it when there is none; the
    empty string exactly at end of stream. *)
Fixpoint readline (buf : string) : string * string :=
  match buf with
  | EmptyString => (EmptyString, EmptyString)
  | String c rest =>
      if Ascii.eqb c newline then (String c EmptyString, rest)
      else let '(l, r) := readline rest in (String c l, r)
  end.

(** Decimal text of a Python [int]. *)
Fixpoint digits (fuel : nat) (n : N) (acc : string) : string :=
  match fuel with
  | O => acc
  | S f =>
      let d := ascii_of_N (48 + N.modulo n 10) in
      let q := N.div n 10 in
      if N.eqb q 0 then String d acc else digits f q (String d acc)
  end.

Definition of_Z (z : Z) : string :=
  let n := Z.abs_N z in
  let body := digits (S (N.to_nat (N.log2 n))) n "" in
  if z <? 0 then "-" ^^ body else body.

End PyStr.

(** ** Python values *)

(** Finite or special value of a Python [float]; only its truthiness is ever
    consulted. *)
Inductive pyfloat : Type :=
| FFinite (mantissa exponent : Z)
| FInf (negative : bool)
| FNan.

(** The values that [json.loads] and [yaml.safe_load] hand to the program.
    A [dict] keeps its insertion order and has text keys. *)
Inductive pyval : Type :=
| PNone
| PBool (b : bool)
| PInt (z : Z)
| PFloat (f : pyfloat)
| PStr (s : string)
| PList (items : list pyval)
| PDict (entries : list (string * pyval)).

Inductive exn : Type :=
| AttributeError
| TypeError
| ValueError
| KeyError
| OSError
| PermissionError
| RecursionError
| UnicodeDecodeError.

(** Outcome of running a piece of the program: a value, a raised exception,
    or no outcome at all because the program blocks forever on a pipe of an
    agent process that never closes it. *)
Inductive Result (A : Type) : Type :=
| Ok (a : A)
| Raise (e : exn)
| Hang.
Arguments Raise {A} e.
Arguments Hang {A}.

Definition bindR {A B} (r : Result A) (k : A -> Result B) : Result B :=
  match r with
  | Ok a => k a
  | Raise e => Raise e
  | Hang => Hang
  end.

Declare Scope py_scope.
Delimit Scope py_scope with py.
Notation "x <~ c ;; k" := (bindR c (fun x => k))
  (at level 61, c at next level, right associativity) : py_scope.
Notation "' pat <~ c ;; k" := (bindR c (fun x => match x with pat => k end))
  (at level 61, pat pattern, c at next level, right associativity) : py_scope.

Module Py.

(** [bool(v)] *)
Definition truthy (v : pyval) : bool :=
  match v with
  | PNone => false
  | PBool b => b
  | PInt z => negb (z =? 0)
  | PFloat (FFinite m _) => negb (m =? 0)
  | PFloat _ => true
  | PStr s => PyStr.nonempty s
  | PList l => match l with [] => false | _ => true end
  | PDict d => match d with [] => false | _ => true end
  end.

(** [v == "literal"] *)
Definition eq_str (v : pyval) (lit : string) : bool :=
  match v with
  | PStr s => String.eqb s lit
  | _ => false
  end.

Fixpoint lookup (k : string) (d : list (string * pyval)) : option pyval :=
  match d with
  | [] => None
  | (k', v) :: rest => if String.eqb k k' then Some v else lookup k rest
  end.

(** [v.get(key, default)]: only a [dict] has the method. *)
Definition get (v : pyval) (key : string) (default : pyval) : Result pyval :=
  match v with
  | PDict d => Ok (match lookup key d with Some x => x | None => default end)
  | _ => Raise AttributeError
  end.

(** [a or b] *)
Definition or_else (a b : pyval) : pyval := if truthy a then a else b.

(** [v.strip()]: only a [str] has the method. *)
Definition strip (v : pyval) : Result string :=
  match v with
  | PStr s => Ok (PyStr.strip s)
  | _ => Raise AttributeError
  end.

(** Truthiness of a [str | None]. *)
Definition some_text (o : option string) : bool :=
  match o with
  | Some s => PyStr.nonempty s
  | None => false
  end.

(** [o or placeholder] for a [str | None]. *)
Definition text_or (o : option string) (placeholder : string) : string :=
  match o with
  | Some s => if PyStr.nonempty s then s else placeholder
  | None => placeholder
  end.

End Py.

(** ** The outside world *)

(** The two pipes of the agent process, and likewise the two sinks
    [sys.stdout] and [sys.stderr] of the dispatcher. *)
Inductive Handle : Type := Stdout | Stderr.

Definition handle_eqb (a b : Handle) : bool :=
  match a, b with
  | Stdout, Stdout | Stderr, Stderr => true
  | _, _ => false
  end.

(** What the dispatcher does to the outside world, in the order it does it.
    [EvRunCodex] marks an invocation of the round runner [run_codex] and
    [EvNotify] a call of [send_imessage]; the scheduler hands every status
    it reads to [send_imessage] together with the role of the round that
    just finished, so the [EvNotify] events are the record of the statuses
    read after each round. *)
Inductive Event : Type :=
| EvWrite (sink : Handle) (text : string)
| EvPopen (command : list string)
| EvReadline (h : Handle) (line : string)
| EvLoad (path : string)
| EvRun (command : list string)
| EvRunCodex (prompt : string) (task_id role : option string)
| EvNotify (role task_id : string) (status response : option string).

(** A spawned agent process, as the dispatcher can observe it: the text it
    will have written to each pipe by the time it closes it (decoded, before
    the translation of newlines), the successive answers of
    [selector.select()] (the handles found readable, in the order returned),
    and what [proc.wait()] gives: the exit code, or nothing at all for a
    process that never exits. *)
Record Proc : Type := {
  p_stdout : string;
  p_stderr : string;
  p_ready : list (list Handle);
  p_wait : option Z
}.

(** [subprocess.Popen] raises [FileNotFoundError] (carrying its message),
    raises something else (the binary may not be executable, the argument
    list may be refused), or gives a process. *)
Inductive Spawn : Type :=
| SpawnNotFound (message : string)
| SpawnRaised (e : exn)
| Spawned (p : Proc).

(** [json.loads] gives a value, raises [JSONDecodeError], or raises
    something else (an integer literal too long to convert, nesting too
    deep). *)
Inductive JsonOutcome : Type :=
| Decoded (v : pyval)
| NotJson
| JsonRaised (e : exn).

(** [subprocess.run] of the notifier script runs it (whatever its exit
    status, [check=False]), raises [FileNotFoundError], or raises something
    else (the script may not be executable, the payload may be refused as
    an argument). *)
Inductive Notified : Type :=
| NotifierRan
| NotifierMissing
| NotifierRaised (e : exn).

(** Library functions and the environment of one run.  The answers of the
    world may depend on everything that happened before.  The registry file
    is taken to exist and to parse. *)
Record Env : Type := {
  json_loads : string -> JsonOutcome;
  py_repr : pyval -> string;                 (* str() of a float or container *)
  popen : list Event -> list string -> Spawn;
  decode_fails : list Event -> Handle -> bool;
                       (* true: the next readline raises UnicodeDecodeError *)
  strftime : list Event -> string;           (* time.strftime("%Y-%m-%d %H:%M:%S") *)
  getcwd : string;                           (* os.getcwd() *)
  yaml_safe_load : list Event -> string -> pyval;
  imessage_script : string;                  (* IMESSAGE_SCRIPT *)
  run_notifier : list Event -> Notified
}.

(** ** Effects: a trace of events over the history so far *)

Definition M (A : Type) : Type := list Event -> Result A * list Event.

Definition ret {A} (a : A) : M A := fun _ => (Ok a, []).

Definition bind {A B} (m : M A) (k : A -> M B) : M B :=
  fun h =>
    let '(r, e1) := m h in
    match r with
    | Ok a => let '(r2, e2) := k a (h ++ e1) in (r2, e1 ++ e2)
    | Raise e => (Raise e, e1)
    | Hang => (Hang, e1)
    end.

Definition emit (ev : Event) : M unit := fun _ => (Ok tt, [ev]).
Definition ask {A} (f : list Event -> A) : M A := fun h => (Ok (f h), []).
Definition lift {A} (r : Result A) : M A := fun _ => (r, []).
Definition hang {A} : M A := fun _ => (Hang, []).

Notation "x <- c ;; k" := (bind c (fun x => k))
  (at level 61, c at next level, right associativity) : py_scope.
Notation "' pat <- c ;; k" := (bind c (fun x => match x with pat => k end))
  (at level 61, pat pattern, c at next level, right associativity) : py_scope.
Notation "c ;; k" := (bind c (fun _ => k))
  (at level 61, right associativity) : py_scope.

(** [print(text, file=sink)] *)
Definition print (sink : Handle) (text : string) : M unit :=
  emit (EvWrite sink (text ^^ PyStr.nl)).

(** ** Constants *)

Definition DEFAULT_PROMPT : string := "analyze the structure of the codebase".
Definition TASKS_STATE_PATH : string := "agents/context/tasks_state.yaml".
Definition MAX_REVIEW_ROUNDS : Z := 3.

Definition ESC : string := String (ascii_of_nat 27) EmptyString.
Definition ANSI_GREEN : string := ESC ^^ "[32m".
Definition ANSI_BLUE : string := ESC ^^ "[34m".
Definition ANSI_RESET : string := ESC ^^ "[0m".

Definition build_command (prompt : string) : list string :=
  ["codex"; "exec"; "--json"; "-s"; "danger-full-access"; prompt].

(** ** Event renderer *)

Section Renderer.

Variable E : Env.

(** [f"{v}"]: [str(v)]. *)
Definition fstr (v : pyval) : string :=
  match v with
  | PStr s => s
  | PNone => "None"
  | PBool true => "True"
  | PBool false => "False"
  | PInt z => PyStr.of_Z z
  | _ => py_repr E v
  end.

(** [(item.get("text") or "").strip()] *)
Definition item_text (item : pyval) : Result string :=
  (raw <~ Py.get item "text" PNone ;;
   Py.strip (Py.or_else raw (PStr "")))%py.

Definition format_event (payload : pyval) : Result (string * string) :=
  (event_type <~ Py.get payload "type" (PStr "unknown") ;;
   if Py.eq_str event_type "item.started" then
     item <~ Py.get payload "item" (PDict []) ;;
     item_type <~ Py.get item "type" (PStr "unknown") ;;
     cmd <~ Py.get item "command" PNone ;;
     if Py.eq_str item_type "command_execution" && Py.truthy cmd
     then Ok ("[command.start] " ^^ fstr cmd, "default")
     else Ok ("[item.start] " ^^ fstr item_type, "default")
   else if Py.eq_str event_type "item.completed" then
     item <~ Py.get payload "item" (PDict []) ;;
     item_type <~ Py.get item "type" (PStr "unknown") ;;
     if Py.eq_str item_type "command_execution" then
       exit_code <~ Py.get item "exit_code" PNone ;;
       Ok ("[command.done] exit=" ^^ fstr exit_code, "default")
     else if Py.eq_str item_type "reasoning" then
       text <~ item_text item ;;
       if PyStr.nonempty text
       then Ok ("[reasoning] " ^^ text, "reasoning")
       else Ok ("[reasoning]", "reasoning")
     else if Py.eq_str item_type "agent_message" then
       text <~ item_text item ;;
       if PyStr.nonempty text
       then Ok ("[agent] " ^^ text, "agent")
       else Ok ("[agent]", "agent")
     else Ok ("[item.done] " ^^ fstr item_type, "default")
   else if Py.eq_str event_type "turn.completed" then
     usage <~ Py.get payload "usage" (PDict []) ;;
     input_tokens <~ Py.get usage "input_tokens" PNone ;;
     output_tokens <~ Py.get usage "output_tokens" PNone ;;
     Ok ("[turn.done] input_tokens=" ^^ fstr input_tokens
           ^^ " output_tokens=" ^^ fstr output_tokens, "default")
   else Ok ("[event] " ^^ fstr event_type, "default"))%py.

Definition colorize (text tag : string) : string :=
  if String.eqb tag "agent" then ANSI_GREEN ^^ text ^^ ANSI_RESET
  else if String.eqb tag "reasoning" then ANSI_BLUE ^^ text ^^ ANSI_RESET
  else text.

Definition render_line (line : string)
  : Result (string * string * option string) :=
  let stripped := PyStr.strip line in
  if negb (PyStr.nonempty stripped) then Ok ("", "default", None)
  else
    match json_loads E stripped with
    | NotJson => Ok (stripped, "default", None)
    | JsonRaised e => Raise e
    | Decoded payload =>
        ('(formatted, tag) <~ format_event payload ;;
         ty <~ Py.get payload "type" PNone ;;
         if Py.eq_str ty "item.completed" then
           item <~ Py.get payload "item" (PDict []) ;;
           item_type <~ Py.get item "type" PNone ;;
           if Py.eq_str item_type "agent_message" then
             text <~ item_text item ;;
             Ok (formatted, tag, Some text)
           else Ok (formatted, tag, None)
         else Ok (formatted, tag, None))%py
    end.

End Renderer.

(** ** Process stream multiplexer *)

(** What [stream_process] hands back: the pair its signature promises, or
    the bare integer of its [FileNotFoundError] branch. *)
Inductive StreamResult : Type :=
| Pair (exit_code : Z) (last_agent_message : option string)
| Bare (exit_code : Z).

(** [exit_code, summary = result]: only the pair unpacks. *)
Definition unpack (r : StreamResult) : Result (Z * option string) :=
  match r with
  | Pair c m => Ok (c, m)
  | Bare _ => Raise TypeError
  end.

(** The state of one stream session: which handles are still registered with
    the selector, the text not yet read from each pipe, and the accumulator
    for the last agent message. *)
Record Session : Type := {
  reg_out : bool;
  reg_err : bool;
  buf_out : string;
  buf_err : string;
  last_agent_message : option string
}.

Definition registered (s : Session) (h : Handle) : bool :=
  match h with Stdout => reg_out s | Stderr => reg_err s end.

Definition buffer (s : Session) (h : Handle) : string :=
  match h with Stdout => buf_out s | Stderr => buf_err s end.

Definition set_buffer (s : Session) (h : Handle) (b : string) : Session :=
  match h with
  | Stdout => {| reg_out := reg_out s; reg_err := reg_err s; buf_out := b;
                 buf_err := buf_err s;
                 last_agent_message := last_agent_message s |}
  | Stderr => {| reg_out := reg_out s; reg_err := reg_err s;
                 buf_out := buf_out s; buf_err := b;
                 last_agent_message := last_agent_message s |}
  end.

(** [selector.unregister(fileobj)] raises [KeyError] for a file object that
    is not registered. *)
Definition unregister (s : Session) (h : Handle) : Result Session :=
  if registered s h then
    Ok match h with
       | Stdout => {| reg_out := false; reg_err := reg_err s;
                      buf_out := buf_out s; buf_err := buf_err s;
                      last_agent_message := last_agent_message s |}
       | Stderr => {| reg_out := reg_out s; reg_err := false;
                      buf_out := buf_out s; buf_err := buf_err s;
                      last_agent_message := last_agent_message s |}
       end
  else Raise KeyError.

Definition set_last (s : Session) (m : option string) : Session :=
  {| reg_out := reg_out s; reg_err := reg_err s; buf_out := buf_out s;
     buf_err := buf_err s; last_agent_message := m |}.

Section Multiplexer.

Variable E : Env.

(** The text written for one rendered line. *)
Definition output_line (prefix : option string) (timestamp formatted tag : string)
  : string :=
  if Py.some_text prefix
  then Py.text_or prefix "" ^^ " [" ^^ timestamp ^^ "] "
         ^^ colorize formatted tag ^^ PyStr.nl
  else "[" ^^ timestamp ^^ "] " ^^ colorize formatted tag ^^ PyStr.nl.

(** The body of [for key, _ in selector.select()], over the keys that one
    call of [select] returned.  [readline] raises [UnicodeDecodeError]
    when the bytes it has to decode are not UTF-8. *)
Fixpoint for_keys (prefix : option string) (keys : list Handle) (s : Session)
  : M Session :=
  match keys with
  | [] => ret s
  | key :: rest =>
      let '(line, remaining) := PyStr.readline (buffer s key) in
      (garbled <- ask (fun h => decode_fails E h key) ;;
       if garbled then lift (Raise UnicodeDecodeError) else
       emit (EvReadline key line) ;;
       if negb (PyStr.nonempty line) then
         s' <- lift (unregister s key) ;;
         for_keys prefix rest s'
       else
         let s1 := set_buffer s key remaining in
         ' (formatted, tag, agent_text) <- lift (render_line E line) ;;
         if negb (PyStr.nonempty formatted) then for_keys prefix rest s1
         else
           let s2 := if Py.some_text agent_text
                     then set_last s1 agent_text else s1 in
           timestamp <- ask (strftime E) ;;
           emit (EvWrite key (output_line prefix timestamp formatted tag)) ;;
           for_keys prefix rest s2)%py
  end.

(** [while selector.get_map()]: one iteration per answer of [select].  When
    the process has given no further answer while a handle is still
    registered, the dispatcher stays blocked in [select]. *)
Fixpoint select_loop (prefix : option string) (ready : list (list Handle))
  (s : Session) : M Session :=
  if negb (reg_out s || reg_err s) then ret s
  else
    match ready with
    | [] => hang
    | keys :: later =>
        (s' <- for_keys prefix keys s ;;
         select_loop prefix later s')%py
    end.

(** The session as it starts: both pipes registered, each holding what
    the process writes to it, in text mode. *)
Definition opening (proc : Proc) : Session :=
  {| reg_out := true; reg_err := true;
     buf_out := PyStr.universal_newlines (p_stdout proc);
     buf_err := PyStr.universal_newlines (p_stderr proc);
     last_agent_message := None |}.

Definition stream_process (command : list string) (prefix : option string)
  : M StreamResult :=
  (emit (EvPopen command) ;;
   spawn <- ask (fun h => popen E h command) ;;
   match spawn with
   | SpawnNotFound exc =>
       print Stderr ("Required binary not found: " ^^ exc
                       ^^ ". Ensure codex is installed.") ;;
       ret (Bare 127)
   | SpawnRaised e => lift (Raise e)
   | Spawned proc =>
       s <- select_loop prefix (p_ready proc) (opening proc) ;;
       match p_wait proc with
       | Some code => ret (Pair code (last_agent_message s))
       | None => hang
       end
   end)%py.

End Multiplexer.

(** ** Task registry *)

Section Registry.

Variable E : Env.

(** The registry read from [path]: [yaml.safe_load(handle) or {}], which
    must be a mapping. *)
Definition load_tasks_state (path : string) : M (list (string * pyval)) :=
  (emit (EvLoad path) ;;
   data <- ask (fun h => Py.or_else (yaml_safe_load E h path) (PDict [])) ;;
   match data with
   | PDict entries => ret entries
   | _ => lift (Raise ValueError)
   end)%py.

Definition task_ids_from_state (path : string) : M (list string) :=
  (data <- load_tasks_state path ;;
   ret (filter (fun key => negb (String.eqb key "schema_version"))
          (map fst data)))%py.

(** The status token that an already loaded registry holds for a task. *)
Definition status_in (data : list (string * pyval)) (task_id : string)
  : option string :=
  match Py.lookup task_id data with
  | Some (PDict entry) =>
      match Py.lookup "status" entry with
      | Some (PStr status) => Some status
      | _ => None
      end
  | _ => None
  end.

Definition task_status (path task_id : string) : M (option string) :=
  (data <- load_tasks_state path ;;
   ret (status_in data task_id))%py.

End Registry.

(** [status == "literal"] for a [str | None]. *)
Definition status_is (status : option string) (lit : string) : bool :=
  match status with
  | Some s => String.eqb s lit
  | None => false
  end.

(** [f"{status}"] for a [str | None]. *)
Definition fstr_opt (o : option string) : string :=
  match o with Some s => s | None => "None" end.

(** ** Round runner and scheduler *)

(** How one pass through the body of the [while] loop ends. *)
Inductive Step : Type :=
| Return (code : Z)
| Break
| Continue (rounds : Z) (reviewer_feedback : option string).

(** How the rounds of one task end. *)
Inductive TaskEnd : Type :=
| Completed
| Aborted (code : Z).

(** The parsed command line. *)
Record Args : Type := {
  a_prompt : string;
  a_tasks : option (list string);
  a_all : bool;
  a_tasks_state : string;
  a_max_rounds : Z
}.

Section Scheduler.

Variable E : Env.

Definition executor_base (task_id : string) : string :=
  "You are the executor agent. Read and follow your role definition "
    ^^ "'agents/roles/executor.md'. Work on task " ^^ task_id
    ^^ ". Repo path: " ^^ getcwd E ^^ ".".

Definition feedback_block (feedback : string) : string :=
  PyStr.nl ^^ "Reviewer feedback:" ^^ PyStr.nl ^^ feedback.

Definition build_executor_prompt (task_id : string) (feedback : option string)
  : string :=
  let base := executor_base task_id in
  if Py.some_text feedback
  then base ^^ feedback_block (Py.text_or feedback "")
  else base.

Definition build_reviewer_prompt (task_id : string) (summary : option string)
  : string :=
  let summary_text := Py.text_or summary "No executor summary captured." in
  "You are the reviewer agent. Read and follow your role definition "
    ^^ "'agents/roles/reviewer.md'. Review task " ^^ task_id
    ^^ ". Repo path: " ^^ getcwd E ^^ "." ^^ PyStr.nl
    ^^ "Here are the summaries from the executor agent:" ^^ PyStr.nl
    ^^ summary_text.

Definition run_codex (prompt : string) (task_id role : option string)
  : M StreamResult :=
  let command := build_command prompt in
  (emit (EvRunCodex prompt task_id role) ;;
   print Stdout ("Running: " ^^ PyStr.join " " command) ;;
   let prefix :=
     if Py.some_text task_id && Py.some_text role
     then Some ("[" ^^ Py.text_or task_id "" ^^ "]["
                  ^^ Py.text_or role "" ^^ "]")
     else if Py.some_text task_id
     then Some ("[" ^^ Py.text_or task_id "" ^^ "]")
     else if Py.some_text role
     then Some ("[" ^^ Py.text_or role "" ^^ "]")
     else None in
   stream_process E command prefix)%py.

Definition send_imessage (role task_id : string)
  (status response : option string) : M unit :=
  let message_status := Py.text_or status "unknown" in
  let response_text := Py.text_or response "No agent response captured." in
  let payload := "[" ^^ role ^^ "] [" ^^ task_id ^^ "] (" ^^ message_status
                   ^^ "): " ^^ response_text in
  (emit (EvNotify role task_id status response) ;;
   emit (EvRun [imessage_script E; payload]) ;;
   outcome <- ask (run_notifier E) ;;
   match outcome with
   | NotifierRan => ret tt
   | NotifierMissing =>
       print Stderr ("Warning: " ^^ imessage_script E
                       ^^ " not found; skipping iMessage send.")
   | NotifierRaised e => lift (Raise e)
   end)%py.

Section Rounds.

Variables (task_id tasks_state_path : string) (max_rounds : Z).

(** One pass through the body of [while rounds < max_rounds]. *)
Definition round_body (rounds : Z) (reviewer_feedback : option string)
  : M Step :=
  let executor_prompt := build_executor_prompt task_id reviewer_feedback in
  (r <- run_codex executor_prompt (Some task_id) (Some "executor") ;;
   ' (exit_code, executor_summary) <- lift (unpack r) ;;
   if negb (exit_code =? 0) then
     print Stderr ("Interrupted: executor exited with code "
                     ^^ PyStr.of_Z exit_code) ;;
     ret (Return exit_code)
   else
     status <- task_status E tasks_state_path task_id ;;
     send_imessage "executor" task_id status executor_summary ;;
     if negb (status_is status "ready_for_review") then
       print Stderr ("Interrupted: task " ^^ task_id ^^ " status is '"
                       ^^ fstr_opt status
                       ^^ "', expected 'ready_for_review'.") ;;
       ret (Return 1)
     else
       let reviewer_prompt :=
         build_reviewer_prompt task_id executor_summary in
       r <- run_codex reviewer_prompt (Some task_id) (Some "reviewer") ;;
       ' (exit_code, reviewer_summary) <- lift (unpack r) ;;
       if negb (exit_code =? 0) then
         print Stderr ("Interrupted: reviewer exited with code "
                         ^^ PyStr.of_Z exit_code) ;;
         ret (Return exit_code)
       else
         status <- task_status E tasks_state_path task_id ;;
         send_imessage "reviewer" task_id status reviewer_summary ;;
         if status_is status "done" then
           print Stdout ("Task " ^^ task_id ^^ " completed.") ;;
           ret Break
         else if status_is status "request_changes" then
           let rounds := rounds + 1 in
           if rounds >=? max_rounds then
             print Stderr ("Interrupted: task " ^^ task_id ^^ " exceeded "
                             ^^ PyStr.of_Z max_rounds ^^ " review rounds.") ;;
             ret (Return 1)
           else
             let reviewer_feedback :=
               Some (Py.text_or reviewer_summary
                       "No reviewer summary captured.") in
             print Stdout ("Task " ^^ task_id
                             ^^ " requested changes; restarting executor (round "
                             ^^ PyStr.of_Z (rounds + 1) ^^ ").") ;;
             ret (Continue rounds reviewer_feedback)
         else
           print Stderr ("Interrupted: task " ^^ task_id ^^ " status is '"
                           ^^ fstr_opt status
                           ^^ "', expected 'done' or 'request_changes'.") ;;
           ret (Return 1))%py.

(** [while rounds < max_rounds: ...], with a bound on the passes still
    allowed; [task_rounds] below supplies one that is never reached. *)
Fixpoint while_rounds (fuel : nat) (rounds : Z)
  (reviewer_feedback : option string) : M TaskEnd :=
  if rounds <? max_rounds then
    match fuel with
    | O => hang
    | S fuel' =>
        (step <- round_body rounds reviewer_feedback ;;
         match step with
         | Return code => ret (Aborted code)
         | Break => ret Completed
         | Continue rounds' feedback' =>
             while_rounds fuel' rounds' feedback'
         end)%py
    end
  else ret Completed.

(** The body of [for task_id in task_ids]. *)
Definition task_rounds : M TaskEnd :=
  (print Stdout ("Starting task " ^^ task_id) ;;
   while_rounds (Z.to_nat max_rounds) 0 None)%py.

End Rounds.

Fixpoint run_scheduler (task_ids : list string) (tasks_state_path : string)
  (max_rounds : Z) : M Z :=
  match task_ids with
  | [] => ret 0
  | task_id :: later =>
      (e <- task_rounds task_id tasks_state_path max_rounds ;;
       match e with
       | Aborted code => ret code
       | Completed => run_scheduler later tasks_state_path max_rounds
       end)%py
  end.

(** [[t for t in ordered_ids if task_status(path, t) != "done"]] *)
Fixpoint not_done (path : string) (ordered_ids : list string)
  : M (list string) :=
  match ordered_ids with
  | [] => ret []
  | task_id :: later =>
      (status <- task_status E path task_id ;;
       kept <- not_done path later ;;
       ret (if negb (status_is status "done") then task_id :: kept
            else kept))%py
  end.

Definition main (args : Args) : M Z :=
  let tasks_given :=
    match a_tasks args with
    | Some (_ :: _) => true
    | _ => false
    end in
  if a_all args && tasks_given then
    (print Stderr "Error: Use --all or --tasks, not both." ;;
     ret 2)%py
  else if a_all args || tasks_given then
    (task_ids <-
       (if a_all args then
          ordered_ids <- task_ids_from_state E (a_tasks_state args) ;;
          not_done (a_tasks_state args) ordered_ids
        else
          ret (match a_tasks args with Some l => l | None => [] end)) ;;
     match task_ids with
     | [] => print Stdout "No tasks to run." ;; ret 0
     | _ :: _ =>
         run_scheduler task_ids (a_tasks_state args) (a_max_rounds args)
     end)%py
  else
    (r <- run_codex (a_prompt args) None None ;;
     ' (exit_code, _) <- lift (unpack r) ;;
     ret exit_code)%py.

End Scheduler.

(** * What a run looks like from outside *)

(** The events of a stream session proper: the spawn, reads of the pipes and
    writes to the sinks. *)
Definition is_io (e : Event) : bool :=
  match e with
  | EvWrite _ _ | EvReadline _ _ | EvPopen _ => true
  | _ => false
  end.

(** The lines that arrived on one pipe, in arrival order (the last one read
    from a pipe that reached its end is the empty end-of-stream marker). *)
Definition reads_of (k : Handle) (ev : list Event) : list string :=
  flat_map (fun e => match e with
                     | EvReadline h line => if handle_eqb h k then [line] else []
                     | _ => []
                     end) ev.

(** The lines that arrived on both pipes combined, in arrival order. *)
Definition all_reads (ev : list Event) : list string :=
  flat_map (fun e => match e with EvReadline _ line => [line] | _ => [] end) ev.

(** The texts written to one sink, in order. *)
Definition writes_to (k : Handle) (ev : list Event) : list string :=
  flat_map (fun e => match e with
                     | EvWrite h text => if handle_eqb h k then [text] else []
                     | _ => []
                     end) ev.

(** The text a process put on one of its pipes. *)
Definition pipe (proc : Proc) (k : Handle) : string :=
  match k with Stdout => p_stdout proc | Stderr => p_stderr proc end.

Fixpoint concat_lines (lines : list string) : string :=
  match lines with
  | [] => ""
  | l :: rest => l ^^ concat_lines rest
  end.

(** A line that is rendered to non-empty display text, hence written. *)
Definition shown (E : Env) (line : string) : bool :=
  match render_line E line with
  | Ok (formatted, _, _) => PyStr.nonempty formatted
  | _ => false
  end.

(** [text] is what the multiplexer writes for [line] at some time of day. *)
Definition rendering_of (E : Env) (prefix : option string) (line text : string)
  : Prop :=
  exists formatted tag agent_text timestamp,
    render_line E line = Ok (formatted, tag, agent_text)
    /\ text = output_line prefix timestamp formatted tag.

(** The agent-message text extracted from a line, if it is a completed
    agent-message event. *)
Definition extracted (E : Env) (line : string) : list string :=
  match render_line E line with
  | Ok (_, _, Some text) => [text]
  | _ => []
  end.

Definition last_of {A} (l : list A) : option A := last (map Some l) None.

(** The text of the last completed agent-message event among the lines, an
    empty text included. *)
Definition last_extracted (E : Env) (lines : list string) : option string :=
  last_of (flat_map (extracted E) lines).

(** The text of the last completed agent-message event with non-empty text
    among the lines. *)
Definition last_nonempty_extracted (E : Env) (lines : list string)
  : option string :=
  last_of (filter PyStr.nonempty (flat_map (extracted E) lines)).

(** The last non-empty agent-message text among the lines, or [init]. *)
Definition latest (E : Env) (lines : list string) (init : option string)
  : option string :=
  last (map Some (filter PyStr.nonempty (flat_map (extracted E) lines))) init.

(** A handle that is no longer registered has been read to its end. *)
Definition closed_empty (s : Session) : Prop :=
  forall k, registered s k = false -> buffer s k = "".

(** What a stretch of a stream session, from state [s] with events [ev] and
    outcome [r], guarantees. *)
Definition session_spec (E : Env) (prefix : option string) (s : Session)
  (ev : list Event) (r : Result Session) : Prop :=
  (forall k, Forall2 (rendering_of E prefix)
               (filter (shown E) (reads_of k ev)) (writes_to k ev))
  /\ (forall k, exists rest,
         buffer s k = concat_lines (reads_of k ev) ^^ rest
         /\ forall s', r = Ok s' -> buffer s' k = rest)
  /\ (forall s', r = Ok s' -> closed_empty s -> closed_empty s')
  /\ (forall s', r = Ok s' ->
        last_agent_message s' = latest E (all_reads ev) (last_agent_message s)).

(** The answers of [select] are those of a process that closes its pipes:
    every answer names distinct handles that are still registered, and the
    answers do not run out before both handles are unregistered. *)
Inductive answers_suffice (E : Env) (prefix : option string)
  : list (list Handle) -> Session -> Prop :=
| as_done ready s :
    reg_out s = false -> reg_err s = false ->
    answers_suffice E prefix ready s
| as_step keys later s :
    NoDup keys ->
    (forall k, In k keys -> registered s k = true) ->
    (forall h s' ev,
        for_keys E prefix keys s h = (Ok s', ev) ->
        answers_suffice E prefix later s') ->
    answers_suffice E prefix (keys :: later) s.

(** The tags of the renderer, and the tags that its description lists. *)
Definition renderer_tags : list string := ["default"; "agent"; "reasoning"].
Definition described_tags : list string :=
  ["default"; "agent_message"; "reasoning"].

(** A decoded record of type [item.completed] whose item is an agent
    message. *)
Definition completed_agent_message (payload : pyval) : bool :=
  match payload with
  | PDict d =>
      match Py.lookup "type" d with
      | Some ty =>
          Py.eq_str ty "item.completed"
          && match Py.lookup "item" d with
             | Some (PDict item) =>
                 match Py.lookup "type" item with
                 | Some ity => Py.eq_str ity "agent_message"
                 | None => false
                 end
             | _ => false
             end
      | None => false
      end
  | _ => false
  end.

(** A line that decodes to such a record. *)
Definition agent_message_line (E : Env) (line : string) : bool :=
  PyStr.nonempty (PyStr.strip line)
  && match json_loads E (PyStr.strip line) with
     | Decoded payload => completed_agent_message payload
     | _ => false
     end.

(** The rounds invoked and the statuses read, in order: a call of the round
    runner for a task in a role, and the status that the scheduler read (and
    reported) after the round of that role. *)
Inductive View : Type :=
| VCall (task_id role prompt : string)
| VStatus (task_id role : string) (status : option string).

Definition view_of (e : Event) : list View :=
  match e with
  | EvRunCodex prompt (Some task_id) (Some role) => [VCall task_id role prompt]
  | EvNotify role task_id status _ => [VStatus task_id role status]
  | _ => []
  end.

Definition view (ev : list Event) : list View := flat_map view_of ev.
#[global] Arguments view : simpl never.

Abbreviation READY := (Some "ready_for_review").
Abbreviation CHANGES := (Some "request_changes").
Abbreviation DONE := (Some "done").

(** The statuses read after reviewer rounds, in order. *)
Definition reviewer_statuses (v : list View) : list (option string) :=
  flat_map (fun x => match x with
                     | VStatus _ role status =>
                         if String.eqb role "reviewer" then [status] else []
                     | _ => []
                     end) v.

(** The tasks of the executor rounds invoked, in order. *)
Definition executor_calls (v : list View) : list string :=
  flat_map (fun x => match x with
                     | VCall task_id role _ =>
                         if String.eqb role "executor" then [task_id] else []
                     | _ => []
                     end) v.

Definition count_changes (v : list View) : nat :=
  length (filter (fun s => status_is s "request_changes") (reviewer_statuses v)).

Definition call_executor (E : Env) (task_id : string) (feedback : option string)
  : View :=
  VCall task_id "executor" (build_executor_prompt E task_id feedback).

Definition call_reviewer (E : Env) (task_id : string) (summary : option string)
  : View :=
  VCall task_id "reviewer" (build_reviewer_prompt E task_id summary).

(** The notifier can raise [e]: there is a point at which [subprocess.run]
    of the notifier script raises it. *)
Definition notifier_raises (E : Env) (e : exn) : Prop :=
  exists h, run_notifier E h = NotifierRaised e.

(** Every way one pass through the loop body can go. *)
Inductive body_obs (E : Env) (task_id : string) (max_rounds rounds : Z)
  (feedback : option string) : list View -> Result Step -> Prop :=
| bo_executor_died r :
    (forall s, r <> Ok s) ->
    body_obs E task_id max_rounds rounds feedback
      [call_executor E task_id feedback] r
| bo_executor_exit code :
    code <> 0 ->
    body_obs E task_id max_rounds rounds feedback
      [call_executor E task_id feedback] (Ok (Return code))
| bo_executor_notice_raised status e :
    notifier_raises E e ->
    body_obs E task_id max_rounds rounds feedback
      [call_executor E task_id feedback; VStatus task_id "executor" status]
      (Raise e)
| bo_not_ready status :
    status <> READY ->
    body_obs E task_id max_rounds rounds feedback
      [call_executor E task_id feedback; VStatus task_id "executor" status]
      (Ok (Return 1))
| bo_reviewer_died summary r :
    (forall s, r <> Ok s) ->
    body_obs E task_id max_rounds rounds feedback
      [call_executor E task_id feedback; VStatus task_id "executor" READY;
       call_reviewer E task_id summary] r
| bo_reviewer_exit summary code :
    code <> 0 ->
    body_obs E task_id max_rounds rounds feedback
      [call_executor E task_id feedback; VStatus task_id "executor" READY;
       call_reviewer E task_id summary] (Ok (Return code))
| bo_reviewer_notice_raised summary status e :
    notifier_raises E e ->
    body_obs E task_id max_rounds rounds feedback
      [call_executor E task_id feedback; VStatus task_id "executor" READY;
       call_reviewer E task_id summary; VStatus task_id "reviewer" status]
      (Raise e)
| bo_done summary :
    body_obs E task_id max_rounds rounds feedback
      [call_executor E task_id feedback; VStatus task_id "executor" READY;
       call_reviewer E task_id summary; VStatus task_id "reviewer" DONE]
      (Ok Break)
| bo_budget summary :
    max_rounds <= rounds + 1 ->
    body_obs E task_id max_rounds rounds feedback
      [call_executor E task_id feedback; VStatus task_id "executor" READY;
       call_reviewer E task_id summary; VStatus task_id "reviewer" CHANGES]
      (Ok (Return 1))
| bo_changes summary feedback' :
    rounds + 1 < max_rounds ->
    PyStr.nonempty feedback' = true ->
    body_obs E task_id max_rounds rounds feedback
      [call_executor E task_id feedback; VStatus task_id "executor" READY;
       call_reviewer E task_id summary; VStatus task_id "reviewer" CHANGES]
      (Ok (Continue (rounds + 1) (Some feedback')))
| bo_unexpected summary status :
    status <> DONE -> status <> CHANGES ->
    body_obs E task_id max_rounds rounds feedback
      [call_executor E task_id feedback; VStatus task_id "executor" READY;
       call_reviewer E task_id summary; VStatus task_id "reviewer" status]
      (Ok (Return 1)).

(** How the loop over the rounds turns the end of a pass that does not
    continue into the end of the task. *)
Definition end_of_pass (r : Result Step) : Result TaskEnd :=
  match r with
  | Ok (Return code) => Ok (Aborted code)
  | Ok Break => Ok Completed
  | Ok (Continue _ _) => Ok Completed
  | Raise e => Raise e
  | Hang => Hang
  end.

(** How the loop over the tasks turns the end of a task that does not
    complete into the result of the run. *)
Definition end_of_task (r : Result TaskEnd) : Result Z :=
  match r with
  | Ok (Aborted code) => Ok code
  | Ok Completed => Ok 0
  | Raise e => Raise e
  | Hang => Hang
  end.

(** Every task of the list, run in order from history [h], completes without
    abort, with events [ev] in all. *)
Inductive all_complete (E : Env) (path : string) (max_rounds : Z)
  : list string -> list Event -> list Event -> Prop :=
| ac_nil h : all_complete E path max_rounds [] h []
| ac_cons task_id later h e1 e2 :
    task_rounds E task_id path max_rounds h = (Ok Completed, e1) ->
    all_complete E path max_rounds later (h ++ e1) e2 ->
    all_complete E path max_rounds (task_id :: later) h (e1 ++ e2).

(** Every executor round seen so far was followed by the hand-off status. *)
Definition ready_only (v : list View) : Prop :=
  forall task_id status,
    In (VStatus task_id "executor" status) v -> status = READY.

(** The statuses read after executor rounds are all the hand-off status, or
    all but the last entry of the view, and then [aborted] holds. *)
Definition handoff_shape (v : list View) (aborted : Prop) : Prop :=
  ready_only v
  \/ exists earlier task_id status,
       v = earlier ++ [VStatus task_id "executor" status]
       /\ ready_only earlier /\ status <> READY /\ aborted.

(** The feedback handed to an executor round whose prompt is [prompt], given
    the rounds and statuses [before] it: none, or some non-empty text right
    after a reviewer status "request_changes" of the same task. *)
Definition feedback_rule (E : Env) (before : list View)
  (task_id prompt : string) : Prop :=
  prompt = build_executor_prompt E task_id None
  \/ exists earlier feedback,
       before = earlier ++ [VStatus task_id "reviewer" CHANGES]
       /\ PyStr.nonempty feedback = true
       /\ prompt = build_executor_prompt E task_id (Some feedback).

Fixpoint feedback_ok (E : Env) (before v : list View) : Prop :=
  match v with
  | [] => True
  | x :: later =>
      match x with
      | VCall task_id role prompt =>
          role = "executor" -> feedback_rule E before task_id prompt
      | VStatus _ _ _ => True
      end
      /\ feedback_ok E (before ++ [x]) later
  end.

(** The line printed when the rounds of a task start. *)
Definition starting (task_id : string) : Event :=
  EvWrite Stdout ("Starting task " ^^ task_id ^^ PyStr.nl).

(** The task identifiers that all-pending mode schedules from a registry. *)
Definition pending_ids (entries : list (string * pyval)) : list string :=
  filter (fun task_id => negb (status_is (status_in entries task_id) "done"))
    (filter (fun key => negb (String.eqb key "schema_version"))
       (map fst entries)).

(** ** Sample environments *)

(** A decoder for the part of JSON that the sample sessions use: objects,
    arrays, strings with the one-letter escapes, integers and the three
    literals.  On such text it agrees with [json.loads]; anything else it
    rejects. *)
Module SampleJson.

Definition is_ws (c : ascii) : bool :=
let n := nat_of_ascii c in
((n =? 32) || (n =? 9) || (n =? 10) || (n =? 13))%nat.

Fixpoint skip_ws (s : string) : string :=
match s with
| String c rest => if is_ws c then skip_ws rest else s
| EmptyString => EmptyString
end.

Definition is_digit (c : ascii) : bool :=
let n := nat_of_ascii c in ((48 <=? n) && (n <=? 57))%nat.

Fixpoint read_digits (s : string) (acc : Z) : Z * string :=
match s with
| String c rest =>
    if is_digit c
    then read_digits rest (10 * acc + Z.of_nat (nat_of_ascii c) - 48)
    else (acc, s)
| EmptyString => (acc, s)
end.

Definition dquote : ascii := ascii_of_nat 34.
Definition backslash : ascii := ascii_of_nat 92.

Definition unescape (c : ascii) : option ascii :=
if Ascii.eqb c dquote then Some dquote
else if Ascii.eqb c backslash then Some backslash
else match c with
     | "/"%char => Some "/"%char
     | "b"%char => Some (ascii_of_nat 8)
     | "f"%char => Some (ascii_of_nat 12)
     | "n"%char => Some (ascii_of_nat 10)
     | "r"%char => Some (ascii_of_nat 13)
     | "t"%char => Some (ascii_of_nat 9)
     | _ => None
     end.

(** The characters of a string literal after its opening quote. *)
Fixpoint read_string (fuel : nat) (s : string) : option (string * string) :=
match fuel, s with
| O, _ => None
| _, EmptyString => None
| S fuel', String c rest =>
    if Ascii.eqb c dquote then Some (EmptyString, rest)
    else if Ascii.eqb c backslash then
      match rest with
      | String c1 rest1 =>
          match unescape c1, read_string fuel' rest1 with
          | Some c', Some (body, rest') => Some (String c' body, rest')
          | _, _ => None
          end
      | EmptyString => None
      end
    else
      match read_string fuel' rest with
      | Some (body, rest') => Some (String c body, rest')
      | None => None
      end
end.

Fixpoint strip_prefix (p s : string) : option string :=
match p, s with
| EmptyString, _ => Some s
| String a p', String b s' =>
    if Ascii.eqb a b then strip_prefix p' s' else None
| String _ _, EmptyString => None
end.

Definition starts_number_tail (s : string) : bool :=
match s with
| String "."%char _ | String "e"%char _ | String "E"%char _ => true
| _ => false
end.

Definition number (s : string) : option (pyval * string) :=
let '(negative, body) :=
  match s with
  | String "-"%char rest => (true, rest)
  | _ => (false, s)
  end in
match body with
| String c _ =>
    if is_digit c then
      let '(n, rest) := read_digits body 0 in
      if starts_number_tail rest then None
      else Some (PInt (if negative then - n else n), rest)
    else None
| EmptyString => None
end.

Definition literal (s : string) : option (pyval * string) :=
match strip_prefix "true" s, strip_prefix "false" s, strip_prefix "null" s with
| Some rest, _, _ => Some (PBool true, rest)
| _, Some rest, _ => Some (PBool false, rest)
| _, _, Some rest => Some (PNone, rest)
| _, _, _ => number s
end.

(** A later value for a key replaces the earlier one in place, as a Python
  [dict] does. *)
Fixpoint dict_set (d : list (string * pyval)) (k : string) (v : pyval)
: list (string * pyval) :=
match d with
| [] => [(k, v)]
| (k', v') :: rest =>
    if String.eqb k k' then (k, v) :: rest else (k', v') :: dict_set rest k v
end.

Definition open_string (s : string) : option (string * string) :=
match s with
| String c rest =>
    if Ascii.eqb c dquote then read_string (String.length s) rest else None
| EmptyString => None
end.

Fixpoint value (fuel : nat) (s : string) : option (pyval * string) :=
match fuel with
| O => None
| S fuel' =>
    match skip_ws s with
    | String "{"%char rest =>
        match skip_ws rest with
        | String "}"%char rest' => Some (PDict [], rest')
        | _ => members fuel' rest []
        end
    | String "["%char rest =>
        match skip_ws rest with
        | String "]"%char rest' => Some (PList [], rest')
        | _ => elements fuel' rest []
        end
    | other =>
        match open_string other with
        | Some (body, rest) => Some (PStr body, rest)
        | None => literal other
        end
    end
end
with members (fuel : nat) (s : string) (acc : list (string * pyval))
: option (pyval * string) :=
match fuel with
| O => None
| S fuel' =>
    match open_string (skip_ws s) with
    | Some (key, rest1) =>
        match skip_ws rest1 with
        | String ":"%char rest2 =>
            match value fuel' rest2 with
            | Some (v, rest3) =>
                let acc' := dict_set acc key v in
                match skip_ws rest3 with
                | String ","%char rest4 => members fuel' rest4 acc'
                | String "}"%char rest4 => Some (PDict acc', rest4)
                | _ => None
                end
            | None => None
            end
        | _ => None
        end
    | None => None
    end
end
with elements (fuel : nat) (s : string) (acc : list pyval)
: option (pyval * string) :=
match fuel with
| O => None
| S fuel' =>
    match value fuel' s with
    | Some (v, rest) =>
        match skip_ws rest with
        | String ","%char rest' => elements fuel' rest' (acc ++ [v])
        | String "]"%char rest' => Some (PList (acc ++ [v]), rest')
        | _ => None
        end
    | None => None
    end
end.

Definition loads (s : string) : option pyval :=
match value (S (String.length s)) s with
| Some (v, rest) =>
    match skip_ws rest with
    | EmptyString => Some v
    | _ => None
    end
| None => None
end.

(** Sample text is written with apostrophes where JSON has double quotes. *)
Fixpoint dq (s : string) : string :=
match s with
| EmptyString => EmptyString
| String c rest =>
    String (if Ascii.eqb c "'"%char then dquote else c) (dq rest)
end.

End SampleJson.

(** An environment that follows a script: the outcome of the n-th spawn and
    the content of the registry after n spawns. *)
Record Script : Type := {
  s_spawn : nat -> Spawn;
  s_registry : nat -> pyval;
  s_notifier : bool
}.

Definition spawns (h : list Event) : nat :=
  length (filter (fun e => match e with EvPopen _ => true | _ => false end) h).

Definition scripted (s : Script) : Env :=
  {| json_loads := fun text =>
                     match SampleJson.loads text with
                     | Some v => Decoded v
                     | None => NotJson
                     end;
     py_repr := fun _ => "<object>";
     popen := fun h _ => s_spawn s (pred (spawns h));
     decode_fails := fun _ _ => false;
     strftime := fun _ => "2025-01-01 00:00:00";
     getcwd := "/repo";
     yaml_safe_load := fun h _ => s_registry s (spawns h);
     imessage_script := "scripts/send_imessage.sh";
     run_notifier := fun _ =>
                       if s_notifier s then NotifierRan else NotifierMissing |}.

(** A process that writes the given text on its standard output and nothing
    on its standard error; the first [select] finds both pipes readable,
    the later ones the standard output. *)
Definition talking (out : string) (code : Z) : Proc :=
  {| p_stdout := out; p_stderr := "";
     p_ready := [Stdout; Stderr] :: repeat [Stdout] (String.length out);
     p_wait := Some code |}.

Definition registry (statuses : list (string * string)) : pyval :=
  PDict (("schema_version", PInt 1)
           :: map (fun ts => (fst ts, PDict [("status", PStr (snd ts))]))
                statuses).

Definition agent_line (text : string) : string :=
  SampleJson.dq "{'type':'item.completed','item':{'type':'agent_message','text':'"
    ^^ text ^^ SampleJson.dq "'}}" ^^ PyStr.nl.

(** The codex binary is missing. *)
Definition missing_binary : Env :=
  scripted {| s_spawn := fun _ => SpawnNotFound "[Errno 2] No such file or directory: 'codex'";
              s_registry := fun _ => registry [("T-001", "ready_for_review")];
              s_notifier := true |}.

(** Every executor round hands off and every reviewer round asks for
    changes. *)
Definition always_changes : Env :=
  scripted {| s_spawn := fun _ => Spawned (talking (agent_line "ok") 0);
              s_registry := fun n =>
                registry [("T-001", if Nat.odd n then "ready_for_review"
                                    else "request_changes");
                          ("T-002", "backlog")];
              s_notifier := false |}.

(** The first task is accepted at its first review; the executor of the
    second task leaves it in progress. *)
Definition second_task_stalls : Env :=
  scripted {| s_spawn := fun _ => Spawned (talking (agent_line "ok") 0);
              s_registry := fun n =>
                registry [("T-001", match n with
                                    | 1%nat => "ready_for_review"
                                    | _ => "done"
                                    end);
                          ("T-002", "in_progress");
                          ("T-003", "backlog")];
              s_notifier := true |}.

(** One session whose last agent message has empty text. *)
Definition empty_last_message : Env :=
  scripted {| s_spawn := fun _ =>
                Spawned (talking (agent_line "hello" ^^ agent_line "") 0);
              s_registry := fun _ => registry [];
              s_notifier := true |}.

(** A registry of three tasks, one of them done and one without status. *)
Definition three_tasks : Env :=
  scripted {| s_spawn := fun _ => Spawned (talking "" 0);
              s_registry := fun _ =>
                PDict [("schema_version", PInt 1);
                       ("T-001", PDict [("status", PStr "backlog")]);
                       ("T-002", PDict [("status", PStr "done")]);
                       ("T-003", PDict [("title", PStr "no status yet")])];
              s_notifier := true |}.

(** A process whose output ends its lines in three ways: a carriage
    return, a carriage return and a line feed, and nothing at all. *)
Definition mixed_line_ends : Env :=
  scripted {| s_spawn := fun _ =>
                Spawned (talking ("one" ^^ String PyStr.carriage_return "two"
                                    ^^ String PyStr.carriage_return PyStr.nl
                                    ^^ "three") 0);
              s_registry := fun _ => registry [];
              s_notifier := true |}.

(** A process that closes its pipes and never exits. *)
Definition never_exits : Env :=
  scripted {| s_spawn := fun _ =>
                Spawned {| p_stdout := ""; p_stderr := "";
                           p_ready := [[Stdout; Stderr]];
                           p_wait := None |};
              s_registry := fun _ => registry [];
              s_notifier := true |}.

(** The same world with a notifier script that cannot be run any more once
    [n] processes have been spawned. *)
Definition refusing_notifier (E : Env) (n : nat) (e : exn) : Env :=
  {| json_loads := json_loads E;
     py_repr := py_repr E;
     popen := popen E;
     decode_fails := decode_fails E;
     strftime := strftime E;
     getcwd := getcwd E;
     yaml_safe_load := yaml_safe_load E;
     imessage_script := imessage_script E;
     run_notifier := fun h =>
                       if (n <=? spawns h)%nat then NotifierRaised e
                       else run_notifier E h |}.

(** The same world with a standard error that carries bytes that are not
    UTF-8. *)
Definition garbled_stderr (E : Env) : Env :=
  {| json_loads := json_loads E;
     py_repr := py_repr E;
     popen := popen E;
     decode_fails := fun _ k =>
                       match k with Stderr => true | Stdout => false end;
     strftime := strftime E;
     getcwd := getcwd E;
     yaml_safe_load := yaml_safe_load E;
     imessage_script := imessage_script E;
     run_notifier := run_notifier E |}.

(** The same world with a JSON decoder that gives up on every line that
    starts with a digit (an integer literal too long to convert). *)
Definition long_integers (E : Env) : Env :=
  {| json_loads := fun text =>
                     match text with
                     | String c _ =>
                         if ((48 <=? nat_of_ascii c) && (nat_of_ascii c <=? 57))%nat
                         then JsonRaised ValueError
                         else json_loads E text
                     | EmptyString => json_loads E text
                     end;
     py_repr := py_repr E;
     popen := popen E;
     decode_fails := decode_fails E;
     strftime := strftime E;
     getcwd := getcwd E;
     yaml_safe_load := yaml_safe_load E;
     imessage_script := imessage_script E;
     run_notifier := run_notifier E |}.
(** * Further observations of a run *)

(** The tasks that the status read after a reviewer round reported done, in
    order. *)
Definition accepted (v : list View) : list string :=
  flat_map (fun x => match x with
                     | VStatus task_id role status =>
                         if String.eqb role "reviewer"
                            && status_is status "done"
                         then [task_id] else []
                     | _ => []
                     end) v.

(** The tasks of the reviewer rounds invoked, in order. *)
Definition reviewer_calls (v : list View) : list string :=
  flat_map (fun x => match x with
                     | VCall task_id role _ =>
                         if String.eqb role "reviewer" then [task_id] else []
                     | _ => []
                     end) v.

(** The task that an entry of the view belongs to. *)
Definition task_of (x : View) : string :=
  match x with
  | VCall task_id _ _ => task_id
  | VStatus task_id _ _ => task_id
  end.

(** One block of entries per task: [counts] gives the length of each. *)
Definition blocks (task_ids : list string) (counts : list nat) : list string :=
  flat_map (fun p => repeat (fst p) (snd p)) (combine task_ids counts).

(** A run that returned [code] went wrong at some task: the tasks before it
    completed, and that task aborted with [code]. *)
Definition aborted_at (E : Env) (path : string) (max_rounds : Z)
  (task_ids : list string) (h ev : list Event) (code : Z) : Prop :=
  exists earlier task_id later e1 e2,
    task_ids = earlier ++ task_id :: later
    /\ all_complete E path max_rounds earlier h e1
    /\ task_rounds E task_id path max_rounds (h ++ e1) = (Ok (Aborted code), e2)
    /\ ev = e1 ++ e2.

(** A status read after a reviewer round that is neither "done" nor
    "request_changes". *)
Definition unexpected_review (x : View) : bool :=
  match x with
  | VStatus _ role status =>
      String.eqb role "reviewer"
      && negb (status_is status "done")
      && negb (status_is status "request_changes")
  | _ => false
  end.

(** No entry of the view satisfies [bad], or only the last one does, and
    then [aborted] holds. *)
Definition ends_at (bad : View -> bool) (v : list View) (aborted : Prop)
  : Prop :=
  forallb (fun x => negb (bad x)) v = true
  \/ exists earlier x,
       v = earlier ++ [x]
       /\ forallb (fun x => negb (bad x)) earlier = true
       /\ bad x = true /\ aborted.

(** The reviewer of the first task leaves it under review. *)
Definition review_stalls : Env :=
  scripted {| s_spawn := fun _ => Spawned (talking (agent_line "ok") 0);
              s_registry := fun n =>
                registry [("T-001", match n with
                                    | 1%nat => "ready_for_review"
                                    | _ => "review_in_progress"
                                    end);
                          ("T-002", "backlog")];
              s_notifier := true |}.

(** A notification of the status of a task. *)
Definition is_notify (e : Event) : bool :=
  match e with
  | EvNotify _ _ _ _ => true
  | _ => false
  end.

(** The registry was loaded from [path] as the last thing in history [h],
    and [status] is what the document loaded there holds for the task. *)
Definition just_read (E : Env) (path : string) (h : list Event)
  (task_id : string) (status : option string) : Prop :=
  exists earlier entries,
    h = earlier ++ [EvLoad path]
    /\ Py.or_else (yaml_safe_load E h path) (PDict []) = PDict entries
    /\ status = status_in entries task_id.

(** Every notification among the events [ev] that follow history [h]
    reports the status just read from the registry. *)
Definition reports_fresh (E : Env) (path : string) (h ev : list Event)
  : Prop :=
  forall before role task_id status response after,
    ev = before ++ EvNotify role task_id status response :: after ->
    just_read E path (h ++ before) task_id status.

(** The start of an agent process. *)
Definition is_spawn (e : Event) : bool :=
  match e with
  | EvPopen _ => true
  | _ => false
  end.

(** [code] is the exit code of the process that was started last among the
    events [ev] that follow history [h]. *)
Definition last_spawn_exit (E : Env) (h ev : list Event) (code : Z) : Prop :=
  exists before command proc after,
    ev = before ++ EvPopen command :: after
    /\ popen E (h ++ before ++ [EvPopen command]) command = Spawned proc
    /\ p_wait proc = Some code
    /\ forallb (fun e => negb (is_spawn e)) after = true.

(** The agent process exits with code 3 without a word. *)
Definition agent_fails : Env :=
  scripted {| s_spawn := fun _ => Spawned (talking "" 3);
              s_registry := fun _ => registry [("T-001", "ready")];
              s_notifier := true |}.

(** An event of a stream session proper: a line read from a pipe or a text
    written to a sink. *)
Definition is_stream (e : Event) : bool :=
  match e with
  | EvWrite _ _ | EvReadline _ _ => true
  | _ => false
  end.

(** A line with something other than white space on it. *)
Definition nonblank (line : string) : bool := PyStr.nonempty (PyStr.strip line).

(** One session with a blank line and a line that is not JSON between two
    agent messages. *)
Definition blank_between : Env :=
  scripted {| s_spawn := fun _ =>
                Spawned (talking (agent_line " first " ^^ PyStr.nl
                                    ^^ "plain text" ^^ PyStr.nl
                                    ^^ agent_line "last") 0);
              s_registry := fun _ => registry [];
              s_notifier := true |}.

(** A call of the round runner. *)
Definition is_call (e : Event) : bool :=
  match e with
  | EvRunCodex _ _ _ => true
  | _ => false
  end.

(** The events since the last call of the round runner. *)
Fixpoint since_last_call (ev : list Event) : list Event :=
  match ev with
  | [] => []
  | e :: rest =>
      if existsb is_call rest then since_last_call rest
      else if is_call e then rest else e :: rest
  end.

(** The summary of the session that ran last in history [h]: the last
    non-empty agent message among the lines read since the last call of the
    round runner. *)
Definition session_summary (E : Env) (h : list Event) : option string :=
  last_nonempty_extracted E (all_reads (since_last_call h)).

(** Every event among the events [ev] that follow history [h] satisfies
    [ok], given the history up to it. *)
Definition each_event (ok : list Event -> Event -> Prop) (h ev : list Event)
  : Prop :=
  forall before e after, ev = before ++ e :: after -> ok (h ++ before) e.

(** What the scheduler hands over from one session to the next steps: the
    reviewer is prompted with the summary of the executor session just
    finished, a notification carries the summary of the session just
    finished, and the feedback in an executor prompt, if any, is the summary
    of the reviewer session just finished (or its placeholder). *)
Definition handover (E : Env) (h : list Event) (e : Event) : Prop :=
  match e with
  | EvRunCodex prompt (Some task_id) (Some role) =>
      if String.eqb role "reviewer"
      then prompt = build_reviewer_prompt E task_id (session_summary E h)
      else prompt = build_executor_prompt E task_id None
           \/ prompt = build_executor_prompt E task_id
                         (Some (Py.text_or (session_summary E h)
                                  "No reviewer summary captured."))
  | EvNotify _ _ _ response => response = session_summary E h
  | _ => True
  end.

(** An event with nothing handed over in it. *)
Definition is_plain (e : Event) : bool :=
  match e with
  | EvRunCodex _ _ _ | EvNotify _ _ _ _ => false
  | _ => true
  end.

(** An event that is neither a call of the round runner nor a line read. *)
Definition is_aside (e : Event) : bool :=
  match e with
  | EvRunCodex _ _ _ | EvReadline _ _ => false
  | _ => true
  end.

(** Every executor says "built" and hands off, every reviewer says "please
    fix" and asks for changes. *)
Definition two_voices : Env :=
  scripted {| s_spawn := fun n =>
                Spawned (talking (agent_line (if Nat.even n then "built"
                                              else "please fix")) 0);
              s_registry := fun n =>
                registry [("T-001", if Nat.odd n then "ready_for_review"
                                    else "request_changes")];
              s_notifier := true |}.

(** A text written to a sink is the rendering of the line read just before,
    from the pipe of the same name. *)
Definition echoes (E : Env) (prefix : option string) (h : list Event)
  (e : Event) : Prop :=
  match e with
  | EvWrite k text =>
      exists earlier line,
        h = earlier ++ [EvReadline k line] /\ rendering_of E prefix line text
  | _ => True
  end.

(** The registry file holds an empty list. *)
Definition empty_list_registry : Env :=
  scripted {| s_spawn := fun _ => Spawned (talking "" 0);
              s_registry := fun _ => PList [];
              s_notifier := true |}.

(** * Reasoning about traces *)

Lemma bind_inv {A B} (m : M A) (k : A -> M B) h r ev :
  bind m k h = (r, ev) ->
  (exists a e1 e2,
      m h = (Ok a, e1) /\ k a (h ++ e1) = (r, e2) /\ ev = e1 ++ e2)
  \/ (exists e, m h = (Raise e, ev) /\ r = Raise e)
  \/ (m h = (Hang, ev) /\ r = Hang).
Proof.
  unfold bind. destruct (m h) as [[a | e |] e1].
  - destruct (k a (h ++ e1)) as [r2 e2] eqn:Hk. intros [= <- <-].
    left. exists a, e1, e2. auto.
  - intros [= <- <-]. right. left. eauto.
  - intros [= <- <-]. right. right. auto.
Qed.

Ltac bind_cases H :=
  apply bind_inv in H;
  let Hev := fresh "Hev" in
  let Hr := fresh "Hr" in
  destruct H as [(?a & ?e1 & ?e2 & ?H1 & ?H2 & Hev)
                | [(?e & ?H1 & Hr) | (?H1 & Hr)]];
  [ subst | try discriminate Hr; subst .. ].

Ltac prim_inv H := cbv [emit ask ret lift hang print] in H; inversion H; subst; clear H.

Ltac run_inv :=
  repeat match goal with
    | H : bind _ _ _ = (_, _) |- _ => bind_cases H
    | H : emit _ _ = (_, _) |- _ => prim_inv H
    | H : ask _ _ = (_, _) |- _ => prim_inv H
    | H : ret _ _ = (_, _) |- _ => prim_inv H
    | H : lift _ _ = (_, _) |- _ => prim_inv H
    | H : hang _ = (_, _) |- _ => prim_inv H
    | H : print _ _ _ = (_, _) |- _ => prim_inv H
    end.

(** Whether [readline] raises instead of giving a line. *)
Ltac decode_cases :=
  match goal with
  | H : (if decode_fails ?E ?h ?k then _ else _) _ = _ |- _ =>
      destruct (decode_fails E h k); run_inv
  end.

Section MultiplexerTrace.

Variable E : Env.

Lemma for_keys_io prefix keys : forall s h r ev,
  for_keys E prefix keys s h = (r, ev) -> forallb is_io ev = true.
Proof.
  induction keys as [| key rest IH]; intros s h r ev H.
  - inversion H. reflexivity.
  - cbn [for_keys] in H.
    destruct (PyStr.readline (buffer s key)) as [line remaining].
    run_inv. decode_cases; [reflexivity |].
    destruct (PyStr.nonempty line); cbn [negb] in *; run_inv; cbn;
      try reflexivity; eauto.
    destruct a as [[formatted tag] agent_text].
    destruct (PyStr.nonempty formatted); cbn [negb] in *; run_inv; cbn;
      try reflexivity; eauto.
Qed.

Lemma select_loop_io prefix ready : forall s h r ev,
  select_loop E prefix ready s h = (r, ev) -> forallb is_io ev = true.
Proof.
  induction ready as [| keys later IH]; intros s h r ev H; cbn [select_loop] in H.
  - destruct (negb (reg_out s || reg_err s)); run_inv; reflexivity.
  - destruct (negb (reg_out s || reg_err s)); run_inv;
      try rewrite forallb_app;
      repeat match goal with
        | H : for_keys _ _ _ _ _ = _ |- _ => apply for_keys_io in H; rewrite ?H
        end; eauto.
Qed.

Lemma stream_process_io command prefix h r ev :
  stream_process E command prefix h = (r, ev) -> forallb is_io ev = true.
Proof.
  unfold stream_process. intros H. run_inv.
  destruct (popen _ _ _) as [msg | e | proc]; run_inv;
    try (destruct (p_wait proc); run_inv);
    cbn; try reflexivity;
    try rewrite forallb_app;
    match goal with
    | H : select_loop _ _ _ _ _ = _ |- _ => apply select_loop_io in H; rewrite ?H
    end; eauto.
Qed.

End MultiplexerTrace.

Lemma view_app a b : view (a ++ b) = view a ++ view b.
Proof. apply flat_map_app. Qed.

Lemma view_cons e ev : view (e :: ev) = view_of e ++ view ev.
Proof. reflexivity. Qed.

Lemma view_nil : view [] = [].
Proof. reflexivity. Qed.

Ltac view_simpl :=
  repeat (rewrite ?view_app, ?view_cons, ?view_nil, ?app_nil_r in *);
  cbn [view_of app] in *.

Lemma view_io ev : forallb is_io ev = true -> view ev = [].
Proof.
  induction ev as [| e ev IH]; [reflexivity |].
  cbn [forallb]. intros H. apply andb_prop in H. destruct H as [He Hev].
  rewrite view_cons, (IH Hev). destruct e; try discriminate; reflexivity.
Qed.

Lemma status_is_true s lit : status_is s lit = true <-> s = Some lit.
Proof.
  destruct s as [s |]; cbn; [| split; discriminate].
  rewrite String.eqb_eq. split; congruence.
Qed.

Section SchedulerViews.

Variable E : Env.

Lemma run_codex_view prompt task_id role h r ev :
  run_codex E prompt (Some task_id) (Some role) h = (r, ev) ->
  view ev = [VCall task_id role prompt].
Proof.
  unfold run_codex. intros H. run_inv;
    match goal with
    | H : stream_process _ _ _ _ = _ |- _ => apply stream_process_io, view_io in H
    end; view_simpl; congruence.
Qed.

Lemma task_status_view path task_id h r ev :
  task_status E path task_id h = (r, ev) -> view ev = [].
Proof.
  unfold task_status, load_tasks_state. intros H. run_inv;
    try destruct (Py.or_else _ _); run_inv; reflexivity.
Qed.

Lemma send_imessage_view role task_id status response h r ev :
  send_imessage E role task_id status response h = (r, ev) ->
  (r = Ok tt \/ exists e, r = Raise e /\ notifier_raises E e)
  /\ view ev = [VStatus task_id role status].
Proof.
  unfold send_imessage. intros H. run_inv.
  destruct (run_notifier E _) as [| | e] eqn:Hn; run_inv; auto.
  split; [right | reflexivity]. exists e. split; [reflexivity |].
  eexists. exact Hn.
Qed.

End SchedulerViews.

Ltac views :=
  repeat match goal with
    | H : run_codex _ _ (Some _) (Some _) _ = _ |- _ =>
        apply run_codex_view in H
    | H : task_status _ _ _ _ = _ |- _ => apply task_status_view in H
    | H : send_imessage _ _ _ _ _ _ = _ |- _ =>
        let Hn := fresh "Hn" in
        apply send_imessage_view in H; destruct H as [Hn H];
        destruct Hn as [Hn | (? & Hn & ?)];
        try discriminate Hn; inversion Hn; subst; clear Hn
    end;
  view_simpl;
  repeat match goal with
    | H : view _ = _ |- _ => rewrite H in *; clear H
    end;
  cbn [app] in *.

Ltac obs :=
  solve [ constructor;
          first [ assumption | congruence | intros; discriminate | lia
                | rewrite <- status_is_true; congruence ] ].

Ltac split_pair :=
  match goal with
  | H : context [let (_, _) := ?p in _] |- _ =>
      let c := fresh "exit_code" in
      let m := fresh "summary" in
      destruct p as [c m]
  end.

Ltac split_code :=
  match goal with
  | H : context [negb (?c =? 0)] |- _ =>
      destruct (Z.eqb_spec c 0); [subst c |]; cbn [negb] in H
  end.

Ltac split_status lit :=
  match goal with
  | H : context [status_is ?s lit] |- _ =>
      let Hs := fresh "Hs" in
      destruct (status_is s lit) eqn:Hs;
      [apply status_is_true in Hs; subst s |]
  end.

Section SchedulerBody.

Variable E : Env.

Lemma round_body_obs task_id path max_rounds rounds feedback h r ev :
  round_body E task_id path max_rounds rounds feedback h = (r, ev) ->
  body_obs E task_id max_rounds rounds feedback (view ev) r.
Proof.
  unfold round_body. intros H.
  run_inv; views; try obs.
  split_pair; split_code; run_inv; views; try obs.
  split_status "ready_for_review"; cbn [negb] in *; run_inv; views; try obs.
  split_pair; split_code; run_inv; views; try obs.
  split_status "done"; run_inv; try obs.
  split_status "request_changes"; run_inv; try obs.
  match goal with
  | H : context [?a >=? ?b] |- _ => destruct (Z.geb_spec a b)
  end; run_inv; try obs.
  constructor; [lia |].
  match goal with
  | |- context [Py.text_or ?o _] => destruct o as [[| ? ?] |]
  end; reflexivity.
Qed.

End SchedulerBody.

Section SchedulerLoops.

Variables (E : Env) (path : string) (max_rounds : Z).

Section Rounds.

Variable task_id : string.

Variable P : Z -> option string -> list View -> Result TaskEnd -> Prop.

Hypothesis P_exit : forall rounds feedback,
  max_rounds <= rounds -> P rounds feedback [] (Ok Completed).

Hypothesis P_stop : forall rounds feedback v r,
  rounds < max_rounds ->
  body_obs E task_id max_rounds rounds feedback v r ->
  (forall rounds' feedback', r <> Ok (Continue rounds' feedback')) ->
  P rounds feedback v (end_of_pass r).

Hypothesis P_continue : forall rounds feedback v feedback' v' r,
  rounds < max_rounds ->
  body_obs E task_id max_rounds rounds feedback v
    (Ok (Continue (rounds + 1) (Some feedback'))) ->
  P (rounds + 1) (Some feedback') v' r ->
  P rounds feedback (v ++ v') r.

(** Induction over the passes of the loop of one task, as seen from
    outside. *)
Lemma while_rounds_view_ind : forall fuel rounds feedback h r ev,
  max_rounds - rounds <= Z.of_nat fuel ->
  while_rounds E task_id path max_rounds fuel rounds feedback h = (r, ev) ->
  P rounds feedback (view ev) r.
Proof.
  induction fuel as [| fuel IH]; intros rounds feedback h r ev Hfuel H;
    cbn [while_rounds] in H;
    destruct (Z.ltb_spec rounds max_rounds) as [Hlt | Hge];
    try lia; run_inv; try (apply P_exit; lia).
  - pose proof (round_body_obs _ _ _ _ _ _ _ H1) as Hobs.
    destruct a as [code | | rounds' feedback']; run_inv.
    + view_simpl. apply (P_stop Hlt Hobs). congruence.
    + view_simpl. apply (P_stop Hlt Hobs). congruence.
    + view_simpl.
      inversion Hobs; subst;
        try match goal with
          | H : forall s, Ok ?x <> Ok s |- _ => now destruct (H x)
          end.
      match goal with H : _ = view e1 |- _ => rewrite <- H in Hobs end.
      eapply P_continue; [exact Hlt | exact Hobs |].
      eapply IH; eauto. lia.
  - pose proof (round_body_obs _ _ _ _ _ _ _ H1) as Hobs.
    apply (P_stop Hlt Hobs). congruence.
  - pose proof (round_body_obs _ _ _ _ _ _ _ H1) as Hobs.
    apply (P_stop Hlt Hobs). congruence.
Qed.

End Rounds.

Lemma task_rounds_while task_id h r ev :
  task_rounds E task_id path max_rounds h = (r, ev) ->
  exists h' ev',
    while_rounds E task_id path max_rounds (Z.to_nat max_rounds) 0 None h'
      = (r, ev')
    /\ view ev = view ev'.
Proof.
  unfold task_rounds. intros H. run_inv. eauto.
Qed.

(** Induction over the passes of one task, from its first pass. *)
Lemma task_rounds_view_ind task_id
  (P : Z -> option string -> list View -> Result TaskEnd -> Prop) :
  (forall rounds feedback,
      max_rounds <= rounds -> P rounds feedback [] (Ok Completed)) ->
  (forall rounds feedback v r,
      rounds < max_rounds ->
      body_obs E task_id max_rounds rounds feedback v r ->
      (forall rounds' feedback', r <> Ok (Continue rounds' feedback')) ->
      P rounds feedback v (end_of_pass r)) ->
  (forall rounds feedback v feedback' v' r,
      rounds < max_rounds ->
      body_obs E task_id max_rounds rounds feedback v
        (Ok (Continue (rounds + 1) (Some feedback'))) ->
      P (rounds + 1) (Some feedback') v' r ->
      P rounds feedback (v ++ v') r) ->
  forall h r ev,
    task_rounds E task_id path max_rounds h = (r, ev) ->
    P 0 None (view ev) r.
Proof.
  intros Hexit Hstop Hcont h r ev H.
  apply task_rounds_while in H. destruct H as (h' & ev' & H & ->).
  eapply while_rounds_view_ind; eauto. lia.
Qed.

Section Tasks.

Variable Q : list string -> list View -> Result Z -> Prop.

Hypothesis Q_nil : Q [] [] (Ok 0).

Hypothesis Q_stop : forall task_id later h r ev,
  task_rounds E task_id path max_rounds h = (r, ev) ->
  r <> Ok Completed ->
  Q (task_id :: later) (view ev) (end_of_task r).

Hypothesis Q_next : forall task_id later h ev v' r,
  task_rounds E task_id path max_rounds h = (Ok Completed, ev) ->
  Q later v' r ->
  Q (task_id :: later) (view ev ++ v') r.

(** Induction over the tasks of a run, as seen from outside. *)
Lemma run_scheduler_view_ind : forall task_ids h r ev,
  run_scheduler E task_ids path max_rounds h = (r, ev) ->
  Q task_ids (view ev) r.
Proof.
  induction task_ids as [| task_id later IH]; intros h r ev H;
    cbn [run_scheduler] in H; run_inv.
  - exact Q_nil.
  - destruct a as [| code]; run_inv; view_simpl.
    + eapply Q_next; eauto.
    + refine (@Q_stop _ later _ _ _ H1 _); discriminate.
  - refine (@Q_stop _ later _ _ _ H1 _); discriminate.
  - refine (@Q_stop _ later _ _ _ H1 _); discriminate.
Qed.

End Tasks.

End SchedulerLoops.

(** * The renderer *)

Lemma eq_str_true v lit : Py.eq_str v lit = true -> v = PStr lit.
Proof.
  destruct v; try discriminate. cbn. intros H.
  apply String.eqb_eq in H. now subst.
Qed.

(** The innermost expression that decides how a computation goes on. *)
Ltac scrutinee t :=
  lazymatch t with
  | bindR ?c _ => scrutinee c
  | Py.get ?v _ _ => scrutinee v
  | Py.strip ?v => scrutinee v
  | item_text ?i => scrutinee i
  | Py.eq_str ?v _ =>
      lazymatch v with
      | match _ with _ => _ end => scrutinee v
      | _ => t
      end
  | Py.truthy ?v =>
      lazymatch v with
      | match _ with _ => _ end => scrutinee v
      | _ => t
      end
  | andb ?a _ => scrutinee a
  | match ?x with _ => _ end => scrutinee x
  | _ => t
  end.

Ltac crunch H :=
  repeat first
    [ discriminate H
    | progress unfold Py.or_else in H
    | progress cbn [bindR Py.get Py.strip Py.truthy Py.lookup item_text
                      andb negb] in H
    | lazymatch type of H with
          | ?lhs = _ =>
              let x := scrutinee lhs in
              lazymatch x with
              | Py.eq_str ?v ?lit =>
                  let Heq := fresh "Heq" in
                  destruct (Py.eq_str v lit) eqn:Heq;
                  [apply eq_str_true in Heq; try discriminate Heq;
                   try subst v |]
              | Py.lookup _ _ =>
                  let Hx := fresh "Hx" in destruct x eqn:Hx
              | PyStr.nonempty _ =>
                  let Hx := fresh "Hx" in destruct x eqn:Hx
              | Py.truthy _ =>
                  let Hx := fresh "Hx" in destruct x eqn:Hx
              | negb (_ =? _) =>
                  let Hx := fresh "Hx" in destruct x eqn:Hx
              | _ => is_var x; destruct x
              end
      end ].

Section RendererFacts.

Variable E : Env.

(** A line from which a summary is extracted is displayed. *)
Lemma summary_is_shown line formatted tag text :
  render_line E line = Ok (formatted, tag, Some text) ->
  PyStr.nonempty formatted = true.
Proof.
  unfold render_line.
  destruct (PyStr.nonempty (PyStr.strip line)); cbn [negb];
    [| discriminate].
  destruct (json_loads E (PyStr.strip line)) as [payload | | e];
    [| discriminate | discriminate].
  unfold format_event. intros H.
  crunch H.
  all: injection H as <- <- <-; reflexivity.
Qed.

(** The text of an item is its trimmed [text] field, or empty when the
    field is absent or null. *)
Lemma item_text_string item raw :
  Py.lookup "text" item = Some (PStr raw) ->
  item_text (PDict item) = Ok (PyStr.strip raw).
Proof.
  intros Htext. unfold item_text. cbn [Py.get bindR]. rewrite Htext.
  unfold Py.or_else. cbn [Py.truthy].
  destruct raw; reflexivity.
Qed.

Lemma item_text_absent item :
  Py.lookup "text" item = None \/ Py.lookup "text" item = Some PNone ->
  item_text (PDict item) = Ok "".
Proof.
  intros [Htext | Htext]; unfold item_text; cbn [Py.get bindR];
    rewrite Htext; reflexivity.
Qed.

(** The renderer does return on a well-formed agent message, with the
    trimmed text as summary. *)
Lemma render_line_agent_message line d item text :
  PyStr.nonempty (PyStr.strip line) = true ->
  json_loads E (PyStr.strip line) = Decoded (PDict d) ->
  Py.lookup "type" d = Some (PStr "item.completed") ->
  Py.lookup "item" d = Some (PDict item) ->
  Py.lookup "type" item = Some (PStr "agent_message") ->
  item_text (PDict item) = Ok text ->
  render_line E line
  = Ok (if PyStr.nonempty text then "[agent] " ^^ text else "[agent]",
        "agent", Some text).
Proof.
  intros Hne Hjson Hty Hitem Hity Htext.
  unfold render_line, format_event.
  rewrite Hne, Hjson. cbn [negb Py.get bindR].
  rewrite Hty, Hitem. cbn [Py.get bindR].
  rewrite Hity.
  change (Py.eq_str (PStr "item.completed") "item.started") with false.
  change (Py.eq_str (PStr "item.completed") "item.completed") with true.
  change (Py.eq_str (PStr "agent_message") "command_execution") with false.
  change (Py.eq_str (PStr "agent_message") "reasoning") with false.
  change (Py.eq_str (PStr "agent_message") "agent_message") with true.
  cbn [bindR]. rewrite Htext. cbn [bindR].
  destruct (PyStr.nonempty text); reflexivity.
Qed.


End RendererFacts.

Section RendererTotal.

Variable E : Env.

(** A blank line, or one that is not JSON, is passed through trimmed. *)
Lemma render_line_undecodable line :
  json_loads E (PyStr.strip line) = NotJson ->
  render_line E line = Ok (PyStr.strip line, "default", None).
Proof.
  intros Hjson. unfold render_line. rewrite Hjson.
  destruct (PyStr.strip line); reflexivity.
Qed.

Lemma render_line_blank line :
  PyStr.strip line = "" -> render_line E line = Ok ("", "default", None).
Proof. intros Hblank. unfold render_line. now rewrite Hblank. Qed.

End RendererTotal.



(** * The multiplexer *)

Lemma reads_of_app k a b : reads_of k (a ++ b) = reads_of k a ++ reads_of k b.
Proof. apply flat_map_app. Qed.

Lemma writes_to_app k a b : writes_to k (a ++ b) = writes_to k a ++ writes_to k b.
Proof. apply flat_map_app. Qed.

Lemma all_reads_app a b : all_reads (a ++ b) = all_reads a ++ all_reads b.
Proof. apply flat_map_app. Qed.

Lemma append_assoc (a b c : string) : (a ^^ b) ^^ c = a ^^ b ^^ c.
Proof. induction a as [| x a IH]; cbn; [reflexivity | now rewrite IH]. Qed.

Lemma append_empty_r (a : string) : a ^^ "" = a.
Proof. induction a as [| x a IH]; cbn; [reflexivity | now rewrite IH]. Qed.

Lemma concat_lines_app a b :
  concat_lines (a ++ b) = concat_lines a ^^ concat_lines b.
Proof.
  induction a as [| x a IH]; cbn; [reflexivity |].
  now rewrite IH, append_assoc.
Qed.

Lemma last_cons_default {A} (x : A) l d1 d2 :
  last (x :: l) d1 = last (x :: l) d2.
Proof.
  revert x. induction l as [| y l IH]; intros x; [reflexivity |].
  change (last (y :: l) d1 = last (y :: l) d2). apply IH.
Qed.

Lemma last_app_default {A} (a b : list A) d : last (a ++ b) d = last b (last a d).
Proof.
  revert d. induction a as [| x a IH]; intros d; [reflexivity |].
  destruct b as [| z b].
  - now rewrite app_nil_r.
  - transitivity (last (a ++ z :: b) d).
    + cbn [app]. destruct a; reflexivity.
    + rewrite IH. apply last_cons_default.
Qed.

Lemma latest_app E a b init :
  latest E (a ++ b) init = latest E b (latest E a init).
Proof.
  unfold latest.
  now rewrite flat_map_app, filter_app, map_app, last_app_default.
Qed.

Lemma readline_splits buf :
  buf = fst (PyStr.readline buf) ^^ snd (PyStr.readline buf).
Proof.
  induction buf as [| c buf IH]; [reflexivity |].
  cbn [PyStr.readline]. destruct (Ascii.eqb c PyStr.newline); [reflexivity |].
  destruct (PyStr.readline buf) as [l r]. cbn in *. now rewrite <- IH.
Qed.

Lemma readline_empty buf :
  PyStr.nonempty (fst (PyStr.readline buf)) = false -> buf = "".
Proof.
  destruct buf as [| c buf]; [reflexivity |].
  cbn [PyStr.readline]. destruct (Ascii.eqb c PyStr.newline); [discriminate |].
  destruct (PyStr.readline buf). discriminate.
Qed.

Section SessionSpec.

Variables (E : Env) (prefix : option string).

Lemma session_spec_nil s : session_spec E prefix s [] (Ok s).
Proof.
  repeat split.
  - intros k. constructor.
  - intros k. exists (buffer s k). split; [reflexivity |].
    now intros s' [= <-].
  - now intros s' [= <-].
  - now intros s' [= <-].
Qed.

Lemma session_spec_halt s r :
  (forall s', r <> Ok s') -> session_spec E prefix s [] r.
Proof.
  intros Hr. repeat split.
  - intros k. constructor.
  - intros k. exists (buffer s k). split; [reflexivity |].
    intros s' ->. now destruct (Hr s').
  - intros s' ->. now destruct (Hr s').
  - intros s' ->. now destruct (Hr s').
Qed.

Lemma session_spec_app s e1 s1 e2 r :
  session_spec E prefix s e1 (Ok s1) ->
  session_spec E prefix s1 e2 r ->
  session_spec E prefix s (e1 ++ e2) r.
Proof.
  intros (Ho1 & Hb1 & Hc1 & Hl1) (Ho2 & Hb2 & Hc2 & Hl2).
  repeat split.
  - intros k. rewrite reads_of_app, writes_to_app, filter_app.
    apply Forall2_app; auto.
  - intros k. destruct (Hb1 k) as (rest1 & Hbuf1 & Hrest1).
    destruct (Hb2 k) as (rest2 & Hbuf2 & Hrest2).
    exists rest2. split; [| exact Hrest2].
    rewrite reads_of_app, concat_lines_app, append_assoc, <- Hbuf2.
    now rewrite (Hrest1 s1 eq_refl).
  - intros s' Hr Hs. eauto.
  - intros s' Hr. rewrite all_reads_app, latest_app.
    rewrite (Hl2 s' Hr). f_equal. now apply Hl1.
Qed.

(** A stretch that ends in an exception or blocks after reading one line
    and writing nothing. *)
Lemma session_spec_stuck s key line remaining r :
  PyStr.readline (buffer s key) = (line, remaining) ->
  (forall s', r <> Ok s') ->
  shown E line = false ->
  session_spec E prefix s [EvReadline key line] r.
Proof.
  intros Hread Hr Hshown. repeat split.
  - intros k. cbn. destruct (handle_eqb key k); cbn; [rewrite Hshown |];
      constructor.
  - intros k. cbn. destruct (handle_eqb key k) eqn:Hk.
    + exists remaining. split; [| intros s' ->; now destruct (Hr s')].
      assert (key = k) as <- by (destruct key, k; congruence || discriminate).
      cbn. rewrite append_empty_r.
      pose proof (readline_splits (buffer s key)) as Hsplit.
      now rewrite Hread in Hsplit.
    + exists (buffer s k). split; [reflexivity |].
      intros s' ->. now destruct (Hr s').
  - intros s' ->. now destruct (Hr s').
  - intros s' ->. now destruct (Hr s').
Qed.

End SessionSpec.

Lemma handle_eqb_eq a b : handle_eqb a b = true <-> a = b.
Proof. destruct a, b; cbn; split; congruence. Qed.

Lemma buffer_set_buffer s key b k :
  buffer (set_buffer s key b) k = if handle_eqb key k then b else buffer s k.
Proof. destruct key, k; reflexivity. Qed.

Lemma registered_set_buffer s key b k :
  registered (set_buffer s key b) k = registered s k.
Proof. destruct key, k; reflexivity. Qed.

Lemma unregister_ok s key s' :
  unregister s key = Ok s' ->
  (forall k, buffer s' k = buffer s k)
  /\ (forall k, registered s' k
                = if handle_eqb key k then false else registered s k)
  /\ last_agent_message s' = last_agent_message s.
Proof.
  unfold unregister. destruct (registered s key); [| discriminate].
  intros [= <-]. repeat split; try intros k; destruct key; try destruct k;
    reflexivity.
Qed.

Section Steps.

Variables (E : Env) (prefix : option string).

(** Reading the end of a pipe and unregistering it. *)
Lemma session_spec_eof s key line remaining s' :
  PyStr.readline (buffer s key) = (line, remaining) ->
  PyStr.nonempty line = false ->
  unregister s key = Ok s' ->
  session_spec E prefix s [EvReadline key line] (Ok s').
Proof.
  intros Hread Hline Hunreg.
  destruct line; [| discriminate].
  pose proof (readline_empty (buffer s key)) as Hbuf.
  rewrite Hread in Hbuf. specialize (Hbuf eq_refl).
  destruct (unregister_ok _ _ Hunreg) as (Hbuffers & Hregs & Hlast).
  repeat split.
  - intros k. cbn. destruct (handle_eqb key k); cbn; constructor.
  - intros k. exists (buffer s k). split.
    + cbn. destruct (handle_eqb key k); reflexivity.
    + intros s'' [= <-]. apply Hbuffers.
  - intros s'' [= <-] Hclosed k Hk. rewrite Hbuffers.
    rewrite Hregs in Hk. destruct (handle_eqb key k) eqn:Hkey.
    + apply handle_eqb_eq in Hkey. now subst k.
    + now apply Hclosed.
  - intros s'' [= <-]. rewrite Hlast. reflexivity.
Qed.

(** Reading a line that renders to nothing. *)
Lemma session_spec_silent s key line remaining formatted tag agent_text :
  PyStr.readline (buffer s key) = (line, remaining) ->
  render_line E line = Ok (formatted, tag, agent_text) ->
  PyStr.nonempty formatted = false ->
  session_spec E prefix s [EvReadline key line]
    (Ok (set_buffer s key remaining)).
Proof.
  intros Hread Hrender Hformatted.
  assert (Hshown : shown E line = false).
  { unfold shown. now rewrite Hrender. }
  assert (Hnone : extracted E line = []).
  { unfold extracted. rewrite Hrender. destruct agent_text; [| reflexivity].
    pose proof (summary_is_shown _ _ Hrender). congruence. }
  pose proof (readline_splits (buffer s key)) as Hsplit.
  rewrite Hread in Hsplit. cbn [fst snd] in Hsplit.
  repeat split.
  - intros k. cbn. destruct (handle_eqb key k); cbn; [rewrite Hshown |];
      constructor.
  - intros k. exists (buffer (set_buffer s key remaining) k). split.
    + cbn. rewrite buffer_set_buffer.
      destruct (handle_eqb key k) eqn:Hkey; [| reflexivity].
      apply handle_eqb_eq in Hkey. subst k. cbn.
      now rewrite append_empty_r.
    + now intros s'' [= <-].
  - intros s'' [= <-] Hclosed k Hk. rewrite registered_set_buffer in Hk.
    rewrite buffer_set_buffer.
    destruct (handle_eqb key k) eqn:Hkey; [| now apply Hclosed].
    apply handle_eqb_eq in Hkey. subst k.
    specialize (Hclosed key Hk). rewrite Hclosed in Hsplit.
    destruct line; [exact (eq_sym Hsplit) | discriminate].
  - intros s'' [= <-]. unfold latest. cbn. rewrite app_nil_r, Hnone.
    destruct key; reflexivity.
Qed.

(** Reading a line that is displayed. *)
Lemma session_spec_shown s key line remaining formatted tag agent_text ts :
  PyStr.readline (buffer s key) = (line, remaining) ->
  render_line E line = Ok (formatted, tag, agent_text) ->
  PyStr.nonempty formatted = true ->
  session_spec E prefix s
    [EvReadline key line; EvWrite key (output_line prefix ts formatted tag)]
    (Ok (if Py.some_text agent_text
         then set_last (set_buffer s key remaining) agent_text
         else set_buffer s key remaining)).
Proof.
  intros Hread Hrender Hformatted.
  assert (Hshown : shown E line = true).
  { unfold shown. now rewrite Hrender. }
  pose proof (readline_splits (buffer s key)) as Hsplit.
  rewrite Hread in Hsplit. cbn [fst snd] in Hsplit.
  assert (Hbuf : forall k,
             buffer (if Py.some_text agent_text
                     then set_last (set_buffer s key remaining) agent_text
                     else set_buffer s key remaining) k
             = if handle_eqb key k then remaining else buffer s k).
  { intros k. destruct (Py.some_text agent_text), key, k; reflexivity. }
  assert (Hreg : forall k,
             registered (if Py.some_text agent_text
                         then set_last (set_buffer s key remaining) agent_text
                         else set_buffer s key remaining) k
             = registered s k).
  { intros k. destruct (Py.some_text agent_text), key, k; reflexivity. }
  repeat split.
  - intros k. cbn. destruct (handle_eqb key k); cbn; [rewrite Hshown |];
      repeat constructor.
    exists formatted, tag, agent_text, ts. auto.
  - intros k. eexists. split; [| intros s'' [= <-]; reflexivity].
    rewrite Hbuf. cbn.
    destruct (handle_eqb key k) eqn:Hkey; [| reflexivity].
    apply handle_eqb_eq in Hkey. subst k. cbn.
    now rewrite append_empty_r.
  - intros s'' [= <-] Hclosed k Hk. rewrite Hreg in Hk. rewrite Hbuf.
    destruct (handle_eqb key k) eqn:Hkey; [| now apply Hclosed].
    apply handle_eqb_eq in Hkey. subst k.
    specialize (Hclosed key Hk). rewrite Hclosed in Hsplit.
    destruct line; [exact (eq_sym Hsplit) | discriminate].
  - intros s'' [= <-]. unfold latest, extracted. cbn.
    rewrite app_nil_r, Hrender.
    destruct agent_text as [text |]; cbn.
    + destruct (PyStr.nonempty text); cbn; destruct key; reflexivity.
    + destruct key; reflexivity.
Qed.

(** The body of the loop over the keys of one [select]. *)
Lemma for_keys_spec keys : forall s h r ev,
  for_keys E prefix keys s h = (r, ev) -> session_spec E prefix s ev r.
Proof.
  induction keys as [| key rest IH]; intros s h r ev H.
  - cbn in H. run_inv. apply session_spec_nil.
  - cbn [for_keys] in H.
    destruct (PyStr.readline (buffer s key)) as [line remaining] eqn:Hread.
    run_inv.
    decode_cases; [apply session_spec_halt; discriminate |].
    destruct (PyStr.nonempty line) eqn:Hline; cbn [negb] in *; run_inv.
    + destruct a as [[formatted tag] agent_text].
      destruct (PyStr.nonempty formatted) eqn:Hf; cbn [negb] in *; run_inv.
      * cbn [app].
        match goal with
        | |- session_spec _ _ _ (?x :: ?y :: ?e) _ =>
            change (x :: y :: e) with ([x; y] ++ e)
        end.
        eapply session_spec_app; [| eapply IH; eauto].
        now apply session_spec_shown.
      * cbn [app].
        match goal with
        | |- session_spec _ _ _ (?x :: ?e) _ => change (x :: e) with ([x] ++ e)
        end.
        eapply session_spec_app; [| eapply IH; eauto].
        eapply session_spec_silent; eauto.
    + cbn [app]. eapply session_spec_stuck; eauto; [discriminate |].
      unfold shown.
      match goal with
      | H : render_line E line = _ |- _ => now rewrite H
      | H : _ = render_line E line |- _ => now rewrite <- H
      end.
    + cbn [app]. eapply session_spec_stuck; eauto; [discriminate |].
      unfold shown.
      match goal with
      | H : render_line E line = _ |- _ => now rewrite H
      | H : _ = render_line E line |- _ => now rewrite <- H
      end.
    + cbn [app].
      match goal with
      | |- session_spec _ _ _ (?x :: ?e) _ => change (x :: e) with ([x] ++ e)
      end.
      eapply session_spec_app; [| eapply IH; eauto].
      eapply session_spec_eof; eauto.
    + cbn [app]. eapply session_spec_stuck; eauto;
        [congruence | destruct line; [reflexivity | discriminate]].
    + cbn [app]. eapply session_spec_stuck; eauto;
        [congruence | destruct line; [reflexivity | discriminate]].
Qed.

End Steps.

Section Sessions.

Variables (E : Env) (prefix : option string).

(** The whole loop of a session; when it ends, both handles have been
    unregistered. *)
Lemma select_loop_spec ready : forall s h r ev,
  select_loop E prefix ready s h = (r, ev) ->
  session_spec E prefix s ev r
  /\ forall s', r = Ok s' -> reg_out s' = false /\ reg_err s' = false.
Proof.
  induction ready as [| keys later IH]; intros s h r ev H;
    cbn [select_loop] in H;
    destruct (reg_out s || reg_err s) eqn:Hreg; cbn [negb] in H; run_inv.
  - split; [apply session_spec_halt; discriminate | discriminate].
  - split; [apply session_spec_nil |].
    intros s' [= <-]. now apply orb_false_elim in Hreg.
  - destruct (IH _ _ _ _ H2) as [Hspec Hend].
    split; [| exact Hend].
    eapply session_spec_app; eauto using for_keys_spec.
  - split; [eauto using for_keys_spec | discriminate].
  - split; [eauto using for_keys_spec | discriminate].
  - split; [apply session_spec_nil |].
    intros s' [= <-]. now apply orb_false_elim in Hreg.
Qed.

Lemma stream_process_spawned command h proc r ev :
  popen E (h ++ [EvPopen command]) command = Spawned proc ->
  stream_process E command prefix h = (r, ev) ->
  exists s0 h' rs ev',
    s0 = opening proc
    /\ select_loop E prefix (p_ready proc) s0 h' = (rs, ev')
    /\ ev = EvPopen command :: ev'
    /\ r = match rs with
           | Ok s =>
               match p_wait proc with
               | Some code => Ok (Pair code (last_agent_message s))
               | None => Hang
               end
           | Raise e => Raise e
           | Hang => Hang
           end.
Proof.
  intros Hspawn H. unfold stream_process in H. run_inv.
  rewrite app_nil_r in *. rewrite Hspawn in *.
  run_inv; try (destruct (p_wait proc) eqn:Hwait; run_inv);
    do 4 eexists; (split; [reflexivity |]);
    (split; [eassumption |]); cbn [app]; rewrite ?app_nil_r;
    rewrite ?Hwait; auto.
Qed.

(** C8.  In a stream session the texts written to a sink are, in order,
    the renderings of the displayed lines that arrived on the pipe of the
    same name, in the order in which they arrived; and the lines that
    arrived on a pipe are, in order, the text the process put on it, as
    the text-mode pipe delivers it (a carriage return, alone or before a
    line feed, ends a line like a line feed): a beginning of it in
    general, and all of it when the session ends. *)
Theorem per_handle_order command h proc r ev k :
  popen E (h ++ [EvPopen command]) command = Spawned proc ->
  stream_process E command prefix h = (r, ev) ->
  Forall2 (rendering_of E prefix)
    (filter (shown E) (reads_of k ev)) (writes_to k ev)
  /\ exists rest,
       PyStr.universal_newlines (pipe proc k)
       = concat_lines (reads_of k ev) ^^ rest
       /\ forall result, r = Ok result -> rest = "".
Proof.
  intros Hspawn H.
  destruct (stream_process_spawned _ _ Hspawn H)
    as (s0 & h' & rs & ev' & Hs0 & Hloop & -> & ->).
  destruct (select_loop_spec _ _ _ Hloop)
    as [(Horder & Hbuf & Hclosed & _) Hend].
  split; [exact (Horder k) |].
  destruct (Hbuf k) as (rest & Hpipe & Hrest).
  exists rest. split.
  - change (reads_of k (EvPopen command :: ev')) with (reads_of k ev').
    rewrite <- Hpipe, Hs0. destruct k; reflexivity.
  - intros result Hr. destruct rs as [s' | |]; try discriminate.
    rewrite <- (Hrest s' eq_refl).
    apply (Hclosed s' eq_refl).
    + intros k' Hk'. subst s0. destruct k'; discriminate.
    + destruct (Hend s' eq_refl). destruct k; assumption.
Qed.

(** C4 (as the code has it).  The last agent message that a stream
    session returns is the text of the last completed agent-message
    event with non-empty text among the lines that arrived on the two
    pipes combined, and none if there was no such event. *)
Theorem last_agent_message_returned command h code message ev :
  stream_process E command prefix h = (Ok (Pair code message), ev) ->
  message = last_nonempty_extracted E (all_reads ev).
Proof.
  intros H.
  destruct (popen E (h ++ [EvPopen command]) command)
    as [msg | e | proc] eqn:Hspawn.
  - unfold stream_process in H. run_inv.
    rewrite app_nil_r in *. rewrite Hspawn in *. run_inv.
  - unfold stream_process in H. run_inv.
    rewrite app_nil_r in *. rewrite Hspawn in *. run_inv.
  - destruct (stream_process_spawned _ _ Hspawn H)
      as (s0 & h' & rs & ev' & Hs0 & Hloop & -> & Hr).
    destruct rs as [s' | |]; try discriminate.
    destruct (p_wait proc); try discriminate. injection Hr as _ ->.
    destruct (select_loop_spec _ _ _ Hloop) as [(_ & _ & _ & Hlast) _].
    rewrite (Hlast s' eq_refl), Hs0. reflexivity.
Qed.

End Sessions.

Lemma per_handle_order_witness :
  let out := "one" ^^ String PyStr.carriage_return "two"
               ^^ String PyStr.carriage_return PyStr.nl ^^ "three" in
  exists ev,
    stream_process mixed_line_ends (build_command "go") (Some "[T-001]") []
    = (Ok (Pair 0 None), ev)
    /\ reads_of Stdout ev = ["one" ^^ PyStr.nl; "two" ^^ PyStr.nl; "three"; ""]
    /\ length (writes_to Stdout ev) = 3%nat
    /\ Forall2 (rendering_of mixed_line_ends (Some "[T-001]"))
         (filter (shown mixed_line_ends) (reads_of Stdout ev))
         (writes_to Stdout ev)
    /\ exists rest,
         PyStr.universal_newlines (pipe (talking out 0) Stdout)
         = concat_lines (reads_of Stdout ev) ^^ rest
         /\ forall result, Ok (Pair 0 None) = Ok result -> rest = "".
Proof.
  intros out.
  pose (run := stream_process mixed_line_ends (build_command "go")
                 (Some "[T-001]") []).
  assert (Hrun : stream_process mixed_line_ends (build_command "go")
                   (Some "[T-001]") [] = (Ok (Pair 0 None), snd run)).
  { vm_compute. reflexivity. }
  assert (Hspawn : popen mixed_line_ends ([] ++ [EvPopen (build_command "go")])
                     (build_command "go")
                   = Spawned (talking out 0)).
  { reflexivity. }
  exists (snd run).
  split; [exact Hrun |].
  split; [vm_compute; reflexivity |].
  split; [vm_compute; reflexivity |].
  exact (@per_handle_order _ _ _ _ _ _ _ Stdout Hspawn Hrun).
Defined.

Lemma last_agent_message_returned_witness :
  exists ev,
    stream_process empty_last_message (build_command "go") None []
    = (Ok (Pair 0 (Some "hello")), ev)
    /\ Some "hello" = last_nonempty_extracted empty_last_message (all_reads ev).
Proof.
  pose (run := stream_process empty_last_message (build_command "go") None []).
  assert (Hrun : stream_process empty_last_message (build_command "go") None []
                 = (Ok (Pair 0 (Some "hello")), snd run)).
  { vm_compute. reflexivity. }
  exists (snd run). split; [exact Hrun |].
  exact (@last_agent_message_returned _ _ _ _ _ _ _ Hrun).
Defined.

(** C4 as written fails: when the last completed agent message has empty
    text, the session still returns the earlier non-empty one. *)
Lemma empty_message_does_not_overwrite :
  exists ev,
    stream_process empty_last_message (build_command "go") None []
    = (Ok (Pair 0 (Some "hello")), ev)
    /\ all_reads ev = [agent_line "hello"; ""; agent_line ""; ""]
    /\ last_extracted empty_last_message (all_reads ev) = Some ""
    /\ Some "hello" <> last_extracted empty_last_message (all_reads ev).
Proof.
  exists (snd (stream_process empty_last_message (build_command "go") None [])).
  split; [vm_compute; reflexivity |].
  split; [vm_compute; reflexivity |].
  split; [vm_compute; reflexivity |].
  vm_compute. discriminate.
Qed.

Ltac rest_of_keys IH :=
  match goal with
  | H : for_keys _ _ _ _ _ = _ |- _ =>
      let l := fresh "l" in
      let Hl := fresh "Hl" in
      let Hbad := fresh "Hbad" in
      apply IH in H;
      [ destruct H as [H | (l & Hl & Hbad)];
        [now left | right; exists l; split; [| exact Hbad]]
      | assumption | ]
  end.

Section Liveness.

Variables (E : Env) (prefix : option string).

Hypothesis decodes : forall h k, decode_fails E h k = false.

(** Over distinct registered handles, and when all that is read decodes,
    the loop body returns, unless the renderer fails on a line it read. *)
Lemma for_keys_outcome keys : forall s h r ev,
  for_keys E prefix keys s h = (r, ev) ->
  NoDup keys ->
  (forall k, In k keys -> registered s k = true) ->
  (exists s', r = Ok s')
  \/ exists line,
       In line (all_reads ev) /\ forall x, render_line E line <> Ok x.
Proof.
  induction keys as [| key rest IH]; intros s h r ev H Hnodup Hreg.
  - cbn in H. run_inv. left. eauto.
  - cbn [for_keys] in H.
    destruct (PyStr.readline (buffer s key)) as [line remaining] eqn:Hread.
    inversion Hnodup as [| ? ? Hnotin Hnodup']; subst.
    assert (Hrest : forall s',
               (forall k, registered s' k = registered s k
                          \/ k = key /\ registered s' k = false) ->
               forall k, In k rest -> registered s' k = true).
    { intros s' Hs' k Hk. destruct (Hs' k) as [-> | [-> _]].
      - apply Hreg. now right.
      - contradiction. }
    run_inv. rewrite decodes in *. run_inv.
    destruct (PyStr.nonempty line) eqn:Hline; cbn [negb] in *; run_inv.
    + destruct a as [[formatted tag] agent_text].
      destruct (PyStr.nonempty formatted) eqn:Hf; cbn [negb] in *; run_inv.
      * rest_of_keys IH.
        -- cbn. right. assumption.
        -- apply Hrest. intros k. left.
           destruct (Py.some_text agent_text), key, k; reflexivity.
      * rest_of_keys IH.
        -- cbn. right. assumption.
        -- apply Hrest. intros k. left. apply registered_set_buffer.
    + right. exists line. split; [cbn; now left |].
      intros x Hx. congruence.
    + right. exists line. split; [cbn; now left |].
      intros x Hx. congruence.
    + match goal with
      | H : unregister _ _ = Ok _ |- _ =>
          destruct (unregister_ok _ _ H) as (_ & Hregs & _)
      end.
      rest_of_keys IH.
      -- cbn. right. assumption.
      -- apply Hrest. intros k. rewrite Hregs.
         destruct (handle_eqb key k) eqn:Hk; [| now left].
         apply handle_eqb_eq in Hk. right. auto.
    + exfalso. unfold unregister in *.
      rewrite (Hreg key (or_introl eq_refl)) in *. discriminate.
    + exfalso. unfold unregister in *.
      rewrite (Hreg key (or_introl eq_refl)) in *. discriminate.
Qed.

Lemma select_loop_outcome ready s :
  answers_suffice E prefix ready s ->
  forall h r ev,
    select_loop E prefix ready s h = (r, ev) ->
    (exists s', r = Ok s')
    \/ exists line,
         In line (all_reads ev) /\ forall x, render_line E line <> Ok x.
Proof.
  induction 1 as [ready s Hout Herr | keys later s Hnodup Hreg Hnext IH];
    intros h r ev H.
  - destruct ready; cbn [select_loop] in H; rewrite Hout, Herr in H;
      cbn in H; run_inv; left; eauto.
  - cbn [select_loop] in H.
    destruct (reg_out s || reg_err s); cbn [negb] in H; run_inv;
      try (left; eauto; fail).
    + destruct (IH _ _ _ H1 _ _ _ H2) as [Hok | (l & Hl & Hbad)];
        [now left |].
      right. exists l. split; [| exact Hbad].
      rewrite all_reads_app. apply in_or_app. now right.
    + destruct (for_keys_outcome _ _ H1 Hnodup Hreg)
        as [(s' & Hs') | Hbad]; [discriminate | now right].
    + destruct (for_keys_outcome _ _ H1 Hnodup Hreg)
        as [(s' & Hs') | Hbad]; [discriminate | now right].
Qed.

(** A session with a process that closes its pipes and exits returns the
    pair of the exit code and the last agent message, unless the renderer
    fails on a line that arrived. *)
Lemma stream_process_returns command h proc code r ev :
  popen E (h ++ [EvPopen command]) command = Spawned proc ->
  answers_suffice E prefix (p_ready proc) (opening proc) ->
  p_wait proc = Some code ->
  stream_process E command prefix h = (r, ev) ->
  (exists message, r = Ok (Pair code message))
  \/ exists line,
       In line (all_reads ev) /\ forall x, render_line E line <> Ok x.
Proof.
  intros Hspawn Hsuffice Hwait H.
  destruct (@stream_process_spawned _ _ _ _ _ _ _ Hspawn H)
    as (s0 & h' & rs & ev' & -> & Hloop & -> & ->).
  rewrite Hwait.
  destruct (select_loop_outcome Hsuffice _ Hloop)
    as [(s' & ->) | Hbad]; [left; eauto | right; exact Hbad].
Qed.

End Liveness.

(** * Bound on the passes *)

Section Fuel.

Variables (E : Env) (task_id path : string) (max_rounds : Z).

(** The bound on the passes of a task is never reached: any bound that
    covers the rounds still allowed gives the same run. *)
Lemma while_rounds_fuel fuel1 : forall fuel2 rounds feedback h,
  max_rounds - rounds <= Z.of_nat fuel1 ->
  max_rounds - rounds <= Z.of_nat fuel2 ->
  while_rounds E task_id path max_rounds fuel1 rounds feedback h
  = while_rounds E task_id path max_rounds fuel2 rounds feedback h.
Proof.
  induction fuel1 as [| fuel1 IH]; intros fuel2 rounds feedback h H1 H2;
    destruct fuel2 as [| fuel2]; cbn [while_rounds];
    destruct (Z.ltb_spec rounds max_rounds); try reflexivity; try lia.
  unfold bind.
  destruct (round_body E task_id path max_rounds rounds feedback h)
    as [[[code | | rounds' feedback'] | e |] e1] eqn:Hbody; try reflexivity.
  apply round_body_obs in Hbody.
  assert (rounds' = rounds + 1) as ->.
  { inversion Hbody; subst; try reflexivity;
      match goal with
      | H : forall s, Ok ?x <> Ok s |- _ => now destruct (H x)
      end. }
  rewrite (IH fuel2); [reflexivity | lia | lia].
Qed.

End Fuel.

(** * Sample evaluations *)

Example of_Z_samples :
  PyStr.of_Z 127 = "127" /\ PyStr.of_Z 0 = "0" /\ PyStr.of_Z (-15) = "-15"
  /\ PyStr.of_Z 1000 = "1000".
Proof. repeat split; reflexivity. Qed.

Example strip_sample :
  PyStr.strip ("  [x]  " ^^ PyStr.nl) = "[x]"
  /\ PyStr.readline ("a" ^^ PyStr.nl ^^ "b") = ("a" ^^ PyStr.nl, "b").
Proof. split; reflexivity. Qed.

(** One task accepted at its first review: one executor round, one reviewer
    round, two statuses read, exit code 0. *)
Example accepted_at_first_review :
  let run := run_scheduler second_task_stalls ["T-001"] TASKS_STATE_PATH 3 [] in
  fst run = Ok 0
  /\ view (snd run)
     = [call_executor second_task_stalls "T-001" None;
        VStatus "T-001" "executor" READY;
        call_reviewer second_task_stalls "T-001" (Some "ok");
        VStatus "T-001" "reviewer" DONE].
Proof. split; vm_compute; reflexivity. Qed.

(** A carriage return ends a line on a text-mode pipe: three lines are
    read, and three are written. *)
Example carriage_returns_end_lines :
  let run := stream_process mixed_line_ends (build_command "go") None [] in
  fst run = Ok (Pair 0 None)
  /\ reads_of Stdout (snd run)
     = ["one" ^^ PyStr.nl; "two" ^^ PyStr.nl; "three"; ""]
  /\ writes_to Stdout (snd run)
     = ["[2025-01-01 00:00:00] one" ^^ PyStr.nl;
        "[2025-01-01 00:00:00] two" ^^ PyStr.nl;
        "[2025-01-01 00:00:00] three" ^^ PyStr.nl].
Proof. repeat split; vm_compute; reflexivity. Qed.

(** A process that never exits: the session reads both pipes to their end
    and then waits for ever. *)
Example wait_blocks :
  stream_process never_exits (build_command "go") None []
  = (Hang, [EvPopen (build_command "go");
            EvReadline Stdout ""; EvReadline Stderr ""]).
Proof. vm_compute. reflexivity. Qed.

(** Bytes that are not UTF-8 on the standard error: the first line of the
    standard output is read and written, then the read of the standard
    error raises. *)
Example undecodable_bytes_raise :
  let run := stream_process (garbled_stderr empty_last_message)
               (build_command "go") None [] in
  fst run = Raise UnicodeDecodeError
  /\ reads_of Stdout (snd run) = [agent_line "hello"]
  /\ reads_of Stderr (snd run) = [].
Proof. repeat split; vm_compute; reflexivity. Qed.

(** A notifier script that is not executable: the run ends with the
    exception right after the first status is read, before the status is
    looked at. *)
Example refused_notifier_raises :
  let E := refusing_notifier second_task_stalls 0 PermissionError in
  let run := run_scheduler E ["T-001"] TASKS_STATE_PATH 3 [] in
  fst run = Raise PermissionError
  /\ view (snd run)
     = [call_executor E "T-001" None; VStatus "T-001" "executor" READY].
Proof. split; vm_compute; reflexivity. Qed.

(** An integer literal too long to convert: the exception of the decoder
    leaves the renderer. *)
Example long_integer_raises :
  render_line (long_integers empty_last_message) ("  12345" ^^ PyStr.nl)
  = Raise ValueError.
Proof. vm_compute. reflexivity. Qed.

Example talking_returns :
  answers_suffice empty_last_message None
    (p_ready (talking (agent_line "hi") 0))
    {| reg_out := true; reg_err := true;
       buf_out := agent_line "hi"; buf_err := "";
       last_agent_message := None |}.
Proof.
  apply as_step.
  - repeat constructor; cbn; intuition discriminate.
  - intros k _. now destruct k.
  - intros h s' ev H. vm_compute in H. injection H as <- _.
    apply as_step.
    + repeat constructor; cbn; intuition discriminate.
    + intros k [<- | []]. reflexivity.
    + intros h' s' ev' H. vm_compute in H. injection H as <- _.
      now apply as_done.
Qed.

(** * Missing binary *)

Section MissingBinary.

Variable E : Env.

(** What [stream_process] does when the binary is missing: it prints one
    line to the error sink and returns the bare integer 127, which the
    callers cannot unpack. *)
Lemma stream_process_missing_binary command prefix h message :
  popen E (h ++ [EvPopen command]) command = SpawnNotFound message ->
  stream_process E command prefix h
  = (Ok (Bare 127),
     [EvPopen command;
      EvWrite Stderr ("Required binary not found: " ^^ message
                        ^^ ". Ensure codex is installed." ^^ PyStr.nl)])
  /\ unpack (Bare 127) = Raise TypeError.
Proof.
  intros Hspawn. split; [| reflexivity].
  unfold stream_process, bind, emit, ask, print, ret.
  rewrite app_nil_r, Hspawn. cbn. now rewrite append_assoc.
Qed.

End MissingBinary.


Section MissingBinaryRun.

Variables (E : Env) (message : string).

(** The binary is missing throughout the run. *)
Hypothesis never_found : forall h command,
  popen E h command = SpawnNotFound message.

(** The first executor round of a run then ends in [TypeError]: neither
    0 nor 127 nor any other exit code is returned. *)
Lemma missing_binary_raises task_id later path max_rounds h :
  0 < max_rounds ->
  fst (run_scheduler E (task_id :: later) path max_rounds h)
  = Raise TypeError.
Proof.
  intros Hmax. cbn [run_scheduler]. unfold task_rounds.
  destruct (Z.to_nat max_rounds) as [| fuel] eqn:Hfuel; [lia |].
  cbn [while_rounds]. destruct (Z.ltb_spec 0 max_rounds); [| lia].
  cbv [round_body run_codex stream_process bind emit ask print lift ret].
  rewrite never_found. reflexivity.
Qed.

End MissingBinaryRun.

(** C1 fails on the code.  With the codex binary missing, [stream_process]
    returns the bare integer 127 instead of a pair, and the round of the
    scheduler that called it raises [TypeError] on unpacking it instead of
    returning 127. *)
Theorem missing_binary_breaks_unpacking :
  fst (stream_process missing_binary (build_command "p") None [])
  = Ok (Bare 127)
  /\ unpack (Bare 127) = Raise TypeError
  /\ fst (run_scheduler missing_binary ["T-001"] TASKS_STATE_PATH 3 [])
     = Raise TypeError
  /\ fst (main missing_binary
            {| a_prompt := DEFAULT_PROMPT; a_tasks := None; a_all := false;
               a_tasks_state := TASKS_STATE_PATH;
               a_max_rounds := MAX_REVIEW_ROUNDS |} [])
     = Raise TypeError.
Proof. repeat split; vm_compute; reflexivity. Qed.

(** * All-pending mode *)

Lemma repeat_snoc {A} (x : A) n : repeat x n ++ [x] = repeat x (S n).
Proof. induction n as [| n IH]; cbn; [reflexivity | now rewrite IH]. Qed.

Section AllPending.

Variables (E : Env) (path : string) (entries : list (string * pyval)).

Variable h : list Event.

(** The registry does not change while the dispatcher only reads it. *)
Hypothesis registry_stable : forall n,
  Py.or_else (yaml_safe_load E (h ++ repeat (EvLoad path) (S n)) path)
    (PDict [])
  = PDict entries.

Lemma load_tasks_state_stable n :
  load_tasks_state E path (h ++ repeat (EvLoad path) n)
  = (Ok entries, [EvLoad path]).
Proof.
  unfold load_tasks_state, bind, emit, ask.
  rewrite <- app_assoc, repeat_snoc, app_nil_r, registry_stable.
  reflexivity.
Qed.

Lemma task_status_stable n task_id :
  task_status E path task_id (h ++ repeat (EvLoad path) n)
  = (Ok (status_in entries task_id), [EvLoad path]).
Proof.
  unfold task_status, bind. rewrite load_tasks_state_stable. reflexivity.
Qed.

Lemma not_done_stable ids : forall n,
  not_done E path ids (h ++ repeat (EvLoad path) n)
  = (Ok (filter (fun task_id =>
                   negb (status_is (status_in entries task_id) "done")) ids),
     repeat (EvLoad path) (length ids)).
Proof.
  induction ids as [| task_id later IH]; intros n; [reflexivity |].
  cbn [not_done]. unfold bind at 1. rewrite task_status_stable.
  unfold bind at 1. rewrite <- app_assoc, repeat_snoc, IH.
  cbn [ret filter length repeat app]. rewrite app_nil_r.
  destruct (status_is (status_in entries task_id) "done"); reflexivity.
Qed.

(** C7.  In all-pending mode, over a registry that does not change while
    it is read, the dispatcher schedules the keys of the registry in their
    order, without the key "schema_version" and without the tasks whose
    status is "done"; a task whose entry has no status text stays in.
    With nothing left it prints a line and returns 0. *)
Theorem all_pending_schedule args :
  a_all args = true ->
  a_tasks args = None \/ a_tasks args = Some [] ->
  a_tasks_state args = path ->
  let loads :=
    repeat (EvLoad path)
      (S (length (filter (fun key => negb (String.eqb key "schema_version"))
                    (map fst entries)))) in
  main E args h
  = match pending_ids entries with
    | [] => (Ok 0, loads ++ [EvWrite Stdout ("No tasks to run." ^^ PyStr.nl)])
    | task_ids =>
        let '(r, ev) :=
          run_scheduler E task_ids path (a_max_rounds args) (h ++ loads) in
        (r, loads ++ ev)
    end.
Proof.
  intros Hall Htasks Hpath loads.
  unfold main. rewrite Hall, Hpath.
  assert (Hgiven : match a_tasks args with
                   | Some (_ :: _) => true
                   | _ => false
                   end = false).
  { destruct Htasks as [-> | ->]; reflexivity. }
  rewrite Hgiven. cbn [andb orb].
  unfold bind at 1. unfold bind at 1. unfold task_ids_from_state.
  unfold bind at 1.
  pose proof (load_tasks_state_stable 0) as Hload.
  cbn [repeat] in Hload. rewrite app_nil_r in Hload. rewrite Hload.
  cbn [ret]. rewrite app_nil_r.
  pose proof (not_done_stable
                (filter (fun key => negb (String.eqb key "schema_version"))
                   (map fst entries)) 1) as Hnd.
  cbn [repeat] in Hnd. rewrite Hnd.
  fold (pending_ids entries).
  cbn [app].
  destruct (pending_ids entries) as [| task_id later].
  - reflexivity.
  - subst loads. cbn [repeat].
    change (h ++ EvLoad path :: ?x) with (h ++ [EvLoad path] ++ x).
    rewrite app_assoc.
    destruct (run_scheduler E (task_id :: later) path (a_max_rounds args) _).
    reflexivity.
Qed.

End AllPending.

Lemma all_pending_schedule_witness :
  pending_ids [("schema_version", PInt 1);
               ("T-001", PDict [("status", PStr "backlog")]);
               ("T-002", PDict [("status", PStr "done")]);
               ("T-003", PDict [("title", PStr "no status yet")])]
  = ["T-001"; "T-003"]
  /\ main three_tasks
       {| a_prompt := DEFAULT_PROMPT; a_tasks := None; a_all := true;
          a_tasks_state := TASKS_STATE_PATH; a_max_rounds := 3 |} []
     = let loads := repeat (EvLoad TASKS_STATE_PATH) 4 in
       let '(r, ev) :=
         run_scheduler three_tasks ["T-001"; "T-003"] TASKS_STATE_PATH 3
           ([] ++ loads) in
       (r, loads ++ ev).
Proof.
  split; [reflexivity |].
  apply (@all_pending_schedule three_tasks TASKS_STATE_PATH
           [("schema_version", PInt 1);
            ("T-001", PDict [("status", PStr "backlog")]);
            ("T-002", PDict [("status", PStr "done")]);
            ("T-003", PDict [("title", PStr "no status yet")])] []).
  - intros n. reflexivity.
  - reflexivity.
  - left. reflexivity.
  - reflexivity.
Defined.

(** * The scheduler *)

Section RoundCap.

Variables (E : Env) (path : string) (max_rounds : Z).

Lemma while_rounds_no_budget fuel task_id rounds feedback h :
  max_rounds <= rounds ->
  while_rounds E task_id path max_rounds fuel rounds feedback h
    = (Ok Completed, []).
Proof.
  intros Hle. destruct fuel; cbn [while_rounds];
    destruct (Z.ltb_spec rounds max_rounds); try lia; reflexivity.
Qed.

(** C10.  With a round cap of zero or less the scheduler returns 0 and
    the only thing it does is print the line announcing each task: no
    executor or reviewer round is invoked, no status is read and no
    notification is sent. *)
Theorem nonpositive_cap_runs_nothing task_ids h :
  max_rounds <= 0 ->
  run_scheduler E task_ids path max_rounds h = (Ok 0, map starting task_ids).
Proof.
  intros Hcap. revert h.
  induction task_ids as [| task_id later IH]; intros h; [reflexivity |].
  cbn [run_scheduler map].
  unfold bind at 1, task_rounds, bind at 1, print, emit.
  rewrite while_rounds_no_budget by lia.
  cbn [app]. rewrite IH. reflexivity.
Qed.

End RoundCap.

Lemma nonpositive_cap_runs_nothing_witness :
  run_scheduler always_changes ["T-001"; "T-002"] TASKS_STATE_PATH 0 []
  = (Ok 0, [starting "T-001"; starting "T-002"]).
Proof.
  apply (nonpositive_cap_runs_nothing always_changes TASKS_STATE_PATH
           ["T-001"; "T-002"] []).
  lia.
Defined.

Section AbortStopsRun.

Variables (E : Env) (path : string) (max_rounds : Z).

Lemma run_scheduler_cons task_id later h :
  run_scheduler E (task_id :: later) path max_rounds h
  = let '(r, e1) := task_rounds E task_id path max_rounds h in
    match r with
    | Ok Completed =>
        let '(r2, e2) := run_scheduler E later path max_rounds (h ++ e1) in
        (r2, e1 ++ e2)
    | Ok (Aborted code) => (Ok code, e1)
    | Raise e => (Raise e, e1)
    | Hang => (Hang, e1)
    end.
Proof.
  cbn [run_scheduler]. unfold bind.
  destruct (task_rounds E task_id path max_rounds h) as [[[| code] | e |] e1];
    try reflexivity.
  cbn [ret]. rewrite app_nil_r. reflexivity.
Qed.

(** The run of a list whose first tasks all complete goes on with the
    rest of the list. *)
Lemma run_scheduler_split earlier rest h e1 :
  all_complete E path max_rounds earlier h e1 ->
  run_scheduler E (earlier ++ rest) path max_rounds h
  = let '(r, e2) := run_scheduler E rest path max_rounds (h ++ e1) in
    (r, e1 ++ e2).
Proof.
  induction 1 as [h | t ts h e1 e2 Ht Hts IH].
  - cbn [app]. rewrite app_nil_r.
    now destruct (run_scheduler E rest path max_rounds h).
  - rewrite <- app_comm_cons, run_scheduler_cons, Ht, IH.
    rewrite <- app_assoc.
    destruct (run_scheduler E rest path max_rounds (h ++ e1 ++ e2)).
    now rewrite app_assoc.
Qed.

(** C6.  When the tasks before some task all complete, the run of the
    whole list returns 0 if there is no further task, and if the next
    task aborts with some code the run returns that code and ends with
    that task's events, whatever tasks come later in the list. *)
Theorem abort_stops_run earlier h e1 :
  all_complete E path max_rounds earlier h e1 ->
  run_scheduler E earlier path max_rounds h = (Ok 0, e1)
  /\ forall task_id later code e2,
       task_rounds E task_id path max_rounds (h ++ e1)
         = (Ok (Aborted code), e2) ->
       run_scheduler E (earlier ++ task_id :: later) path max_rounds h
         = (Ok code, e1 ++ e2).
Proof.
  intros Hdone. split.
  - rewrite <- (app_nil_r earlier) at 1.
    rewrite (run_scheduler_split [] Hdone). cbn [run_scheduler ret].
    now rewrite app_nil_r.
  - intros task_id later code e2 Habort.
    rewrite (run_scheduler_split (task_id :: later) Hdone).
    rewrite run_scheduler_cons, Habort. reflexivity.
Qed.

End AbortStopsRun.

Lemma abort_stops_run_witness :
  exists e1 e2,
    all_complete second_task_stalls TASKS_STATE_PATH 3 ["T-001"] [] e1
    /\ task_rounds second_task_stalls "T-002" TASKS_STATE_PATH 3 ([] ++ e1)
       = (Ok (Aborted 1), e2)
    /\ run_scheduler second_task_stalls ["T-001"] TASKS_STATE_PATH 3 []
       = (Ok 0, e1)
    /\ run_scheduler second_task_stalls (["T-001"] ++ "T-002" :: ["T-003"])
         TASKS_STATE_PATH 3 []
       = (Ok 1, e1 ++ e2).
Proof.
  pose (e1 := snd (task_rounds second_task_stalls "T-001" TASKS_STATE_PATH 3 [])).
  pose (e2 := snd (task_rounds second_task_stalls "T-002" TASKS_STATE_PATH 3 ([] ++ e1))).
  assert (Hc : all_complete second_task_stalls TASKS_STATE_PATH 3 ["T-001"] [] e1).
  { rewrite <- (app_nil_r e1). constructor; [vm_compute; reflexivity | constructor]. }
  assert (Ha : task_rounds second_task_stalls "T-002" TASKS_STATE_PATH 3 ([] ++ e1)
               = (Ok (Aborted 1), e2)).
  { vm_compute. reflexivity. }
  exists e1, e2.
  destruct (abort_stops_run Hc) as [H0 H1].
  split; [exact Hc |]. split; [exact Ha |]. split; [exact H0 |].
  exact (H1 _ ["T-003"] _ _ Ha).
Defined.

Lemma ready_only_nil : ready_only [].
Proof. intros t s []. Qed.

Lemma ready_only_app a b : ready_only a -> ready_only b -> ready_only (a ++ b).
Proof.
  intros Ha Hb t s Hin. apply in_app_or in Hin. destruct Hin; eauto.
Qed.

Lemma handoff_shape_app a b aborted :
  ready_only a -> handoff_shape b aborted -> handoff_shape (a ++ b) aborted.
Proof.
  intros Ha [Hb | (earlier & t & s & -> & He & Hs & Hab)].
  - left. now apply ready_only_app.
  - right. exists (a ++ earlier), t, s. rewrite app_assoc.
    repeat split; auto using ready_only_app.
Qed.

Lemma handoff_shape_last v aborted a x b :
  handoff_shape v aborted ->
  v = a ++ x :: b ->
  (exists task_id status,
      x = VStatus task_id "executor" status /\ status <> READY) ->
  aborted /\ b = [].
Proof.
  intros Hshape Hv (t & s & -> & Hs).
  destruct Hshape as [Hall | (earlier & t' & s' & Hv' & He & Hs' & Hab)].
  - exfalso. apply Hs, (Hall t). rewrite Hv. apply in_elt.
  - rewrite Hv in Hv'. clear Hv. destruct b as [| y b'] using rev_ind.
    + auto.
    + exfalso. clear IHb'.
      rewrite app_comm_cons, app_assoc in Hv'.
      apply app_inj_tail in Hv'. destruct Hv' as [<- _].
      apply Hs, (He t). apply in_elt.
Qed.

Ltac ready_list :=
  let t := fresh in
  let s := fresh in
  let Hin := fresh in
  intros t s Hin; unfold call_executor, call_reviewer in Hin; cbn [In] in Hin;
  repeat match goal with
    | H : _ \/ _ |- _ => destruct H
    | H : False |- _ => destruct H
    | H : VStatus _ _ _ = VStatus _ _ _ |- _ => inversion H; subst; clear H
    | H : VCall _ _ _ = VStatus _ _ _ |- _ => discriminate H
    end; try reflexivity.

Section Handoff.

Variables (E : Env) (path : string) (max_rounds : Z).

Lemma body_obs_handoff task_id rounds feedback v r :
  body_obs E task_id max_rounds rounds feedback v r ->
  ((r = Ok (Return 1) \/ exists e, r = Raise e /\ notifier_raises E e)
   /\ exists status,
       v = [call_executor E task_id feedback]
             ++ [VStatus task_id "executor" status]
       /\ status <> READY)
  \/ ready_only v.
Proof.
  destruct 1 as [| | status e He | status | | | | | | | ];
    try (right; ready_list; fail).
  - destruct (status_is status "ready_for_review") eqn:Hs.
    + apply status_is_true in Hs. subst status. right. ready_list.
    + left. split; [right; eauto |]. exists status. split; [reflexivity |].
      intros ->. discriminate Hs.
  - left. split; [now left |]. now exists status.
Qed.

Lemma task_rounds_handoff task_id h r ev :
  task_rounds E task_id path max_rounds h = (r, ev) ->
  handoff_shape (view ev)
    (r = Ok (Aborted 1) \/ exists e, r = Raise e /\ notifier_raises E e).
Proof.
  revert h r ev.
  apply (@task_rounds_view_ind E path max_rounds task_id
           (fun _ _ v r =>
              handoff_shape v
                (r = Ok (Aborted 1)
                 \/ exists e, r = Raise e /\ notifier_raises E e))).
  - intros. left. apply ready_only_nil.
  - intros rounds feedback v rb _ Hobs _.
    destruct (body_obs_handoff Hobs) as [(Hr & s & -> & Hs) | Hall].
    + right. exists [call_executor E task_id feedback], task_id, s.
      split; [reflexivity |]. split; [ready_list |]. split; [exact Hs |].
      destruct Hr as [-> | (e & -> & He)]; [now left | right].
      exists e. split; [reflexivity | exact He].
    + now left.
  - intros rounds feedback v fb' v' r' _ Hobs IH.
    apply handoff_shape_app; [| exact IH].
    destruct (body_obs_handoff Hobs) as [([Hr | (e & Hr & _)] & _) | Hall];
      [discriminate | discriminate | exact Hall].
Qed.

Lemma run_scheduler_handoff task_ids h r ev :
  run_scheduler E task_ids path max_rounds h = (r, ev) ->
  handoff_shape (view ev)
    (r = Ok 1 \/ exists e, r = Raise e /\ notifier_raises E e).
Proof.
  revert task_ids h r ev.
  apply (@run_scheduler_view_ind E path max_rounds
           (fun _ v r =>
              handoff_shape v
                (r = Ok 1
                 \/ exists e, r = Raise e /\ notifier_raises E e))).
  - left. apply ready_only_nil.
  - intros task_id later h' r' ev' Ht _.
    destruct (task_rounds_handoff _ _ Ht)
      as [Hall | (earlier & t & s & Hv & He & Hs & Hr)].
    + now left.
    + right. exists earlier, t, s.
      split; [exact Hv |]. split; [exact He |]. split; [exact Hs |].
      destruct Hr as [-> | (e & -> & Hn)]; [now left | right].
      exists e. split; [reflexivity | exact Hn].
  - intros task_id later h' ev' v' r' Ht IH.
    apply handoff_shape_app; [| exact IH].
    destruct (task_rounds_handoff _ _ Ht)
      as [Hall | (earlier & t & s & Hv & He & Hs & [Hr | (e & Hr & _)])];
      [exact Hall | discriminate | discriminate].
Qed.


End Handoff.


Lemma reviewer_statuses_app a b :
  reviewer_statuses (a ++ b) = reviewer_statuses a ++ reviewer_statuses b.
Proof. apply flat_map_app. Qed.

Lemma executor_calls_app a b :
  executor_calls (a ++ b) = executor_calls a ++ executor_calls b.
Proof. apply flat_map_app. Qed.

Lemma count_changes_app a b :
  count_changes (a ++ b) = (count_changes a + count_changes b)%nat.
Proof.
  unfold count_changes.
  now rewrite reviewer_statuses_app, filter_app, length_app.
Qed.

Lemma status_is_false s lit : s <> Some lit -> status_is s lit = false.
Proof.
  intros Hs. destruct (status_is s lit) eqn:H; [| reflexivity].
  apply status_is_true in H. contradiction.
Qed.

(** A run of [n] consecutive "request_changes" among the statuses means at
    least [n] of them. *)
Lemma streak_counts statuses a b n :
  statuses = a ++ repeat CHANGES n ++ b ->
  (n <= length (filter (fun s => status_is s "request_changes") statuses))%nat.
Proof.
  intros ->. rewrite !filter_app, !length_app.
  assert (H : length (filter (fun s => status_is s "request_changes")
                        (repeat CHANGES n)) = n).
  { induction n as [| n IH]; cbn in *; [reflexivity | now rewrite IH]. }
  lia.
Qed.

Section Budget.

Variables (E : Env) (path : string) (max_rounds : Z).

Lemma body_obs_counts task_id rounds feedback v r :
  body_obs E task_id max_rounds rounds feedback v r ->
  executor_calls v = [task_id]
  /\ (count_changes v = 0%nat
      \/ count_changes v = 1%nat
         /\ (r = Ok (Return 1) /\ max_rounds <= rounds + 1
             \/ (exists e, r = Raise e /\ notifier_raises E e)
             \/ exists feedback',
                 r = Ok (Continue (rounds + 1) (Some feedback')))).
Proof.
  destruct 1 as [| | | | | | summary status e He | | | | ];
    (split; [reflexivity |]);
    try (left; reflexivity);
    try (right; split; [reflexivity |]; eauto; fail).
  - unfold count_changes. cbn.
    destruct (status_is status "request_changes");
      [right; split; [reflexivity |]; right; left; eauto
      | left; reflexivity].
  - left. unfold count_changes. cbn.
    rewrite status_is_false by assumption. reflexivity.
Qed.

(** The passes of one task: at most as many "request_changes" outcomes as
    the budget leaves, and when the budget is used up the task ends there
    (it aborts with code 1, or the last notification raised) after one
    executor round per outcome. *)
Lemma task_rounds_budget task_id h r ev :
  task_rounds E task_id path max_rounds h = (r, ev) ->
  0 < max_rounds ->
  Z.of_nat (count_changes (view ev)) <= max_rounds
  /\ (Z.of_nat (count_changes (view ev)) = max_rounds ->
      (r = Ok (Aborted 1) \/ exists e, r = Raise e /\ notifier_raises E e)
      /\ executor_calls (view ev) = repeat task_id (Z.to_nat max_rounds)).
Proof.
  intros Hrun Hmax.
  cut (0 < max_rounds ->
       Z.of_nat (count_changes (view ev)) <= max_rounds - 0
       /\ (Z.of_nat (count_changes (view ev)) = max_rounds - 0 ->
           (r = Ok (Aborted 1)
            \/ exists e, r = Raise e /\ notifier_raises E e)
           /\ executor_calls (view ev)
              = repeat task_id (Z.to_nat (max_rounds - 0)))).
  { rewrite Z.sub_0_r. auto. }
  revert h r ev Hrun.
  apply (@task_rounds_view_ind E path max_rounds task_id
           (fun rounds _ v r =>
              rounds < max_rounds ->
              Z.of_nat (count_changes v) <= max_rounds - rounds
              /\ (Z.of_nat (count_changes v) = max_rounds - rounds ->
                  (r = Ok (Aborted 1)
                   \/ exists e, r = Raise e /\ notifier_raises E e)
                  /\ executor_calls v
                     = repeat task_id (Z.to_nat (max_rounds - rounds))))).
  - intros. lia.
  - intros rounds feedback v rb Hlt Hobs Hstop _.
    destruct (body_obs_counts Hobs)
      as (Hcalls & [Hc | (Hc & [(-> & Hle) | [(e & -> & He) | (fb' & ->)]])]);
      rewrite Hc; cbn [Z.of_nat Pos.of_succ_nat].
    + split; [lia |]. intros. lia.
    + split; [lia |]. intros Heq. split; [now left |].
      rewrite Hcalls. replace (max_rounds - rounds) with 1 by lia. reflexivity.
    + split; [lia |]. intros Heq.
      split; [right; exists e; split; [reflexivity | exact He] |].
      rewrite Hcalls. replace (max_rounds - rounds) with 1 by lia. reflexivity.
    + now destruct (Hstop (rounds + 1) (Some fb')).
  - intros rounds feedback v fb' v' r' Hlt Hobs IH _.
    destruct (body_obs_counts Hobs)
      as (Hcalls & [Hc | (Hc & [(Hr & _) | [(e & Hr & _) | _]])]);
      try discriminate Hr.
    + exfalso. inversion Hobs; subst;
        try match goal with
          | H : forall s, Ok ?x <> Ok s |- _ => now destruct (H x)
          end.
      discriminate Hc.
    + assert (Hnext : rounds + 1 < max_rounds).
      { inversion Hobs; subst; try assumption;
          match goal with
          | H : forall s, Ok ?x <> Ok s |- _ => now destruct (H x)
          end. }
      destruct (IH Hnext) as [IHle IHeq].
      rewrite count_changes_app, executor_calls_app, Hc, Hcalls.
      split; [lia |]. intros Heq.
      destruct IHeq as [Hr' ->]; [lia |]. split; [exact Hr' |].
      replace (Z.to_nat (max_rounds - rounds))
        with (S (Z.to_nat (max_rounds - (rounds + 1)))) by lia.
      reflexivity.
Qed.


End Budget.


Lemma length_append (s t : string) :
  String.length (s ^^ t) = (String.length s + String.length t)%nat.
Proof. induction s as [| c s IH]; cbn; [reflexivity | now rewrite IH]. Qed.

Lemma append_nonempty_differs (s t : string) :
  PyStr.nonempty t = true -> s ^^ t <> s.
Proof.
  intros Ht Heq.
  assert (Hlen : String.length (s ^^ t) = String.length s) by now rewrite Heq.
  rewrite length_append in Hlen.
  destruct t; [discriminate | cbn in Hlen; lia].
Qed.

Section Feedback.

Variable E : Env.

Lemma feedback_ok_app a : forall before b,
  feedback_ok E before (a ++ b)
  <-> feedback_ok E before a /\ feedback_ok E (before ++ a) b.
Proof.
  induction a as [| x a IH]; intros before b; cbn [app feedback_ok].
  - rewrite app_nil_r. tauto.
  - rewrite IH, <- app_assoc. cbn [app]. tauto.
Qed.

Lemma feedback_ok_split v : forall before a task_id prompt b,
  feedback_ok E before v ->
  v = a ++ VCall task_id "executor" prompt :: b ->
  feedback_rule E (before ++ a) task_id prompt.
Proof.
  intros before a task_id prompt b Hok ->.
  apply feedback_ok_app in Hok. destruct Hok as [_ Hok].
  cbn [feedback_ok] in Hok. now apply Hok.
Qed.

(** What the executor prompt is made of. *)
Lemma build_executor_prompt_block task_id feedback :
  build_executor_prompt E task_id feedback
  = if Py.some_text feedback
    then executor_base E task_id ^^ feedback_block (Py.text_or feedback "")
    else executor_base E task_id.
Proof. reflexivity. Qed.

Lemma feedback_block_iff task_id feedback :
  build_executor_prompt E task_id feedback <> executor_base E task_id
  <-> Py.some_text feedback = true.
Proof.
  rewrite build_executor_prompt_block.
  destruct (Py.some_text feedback); split; try congruence.
  intros _. apply append_nonempty_differs. reflexivity.
Qed.

Variables (path : string) (max_rounds : Z).

(** A pass that is handed feedback allowed by the rule obeys the rule. *)
Lemma body_obs_feedback task_id rounds feedback v r before :
  body_obs E task_id max_rounds rounds feedback v r ->
  feedback_rule E before task_id (build_executor_prompt E task_id feedback) ->
  feedback_ok E before v.
Proof.
  intros Hobs Hrule.
  destruct Hobs; unfold call_executor, call_reviewer; cbn [feedback_ok];
    repeat split; auto; discriminate.
Qed.

Lemma body_obs_continue task_id rounds feedback v feedback' :
  body_obs E task_id max_rounds rounds feedback v
    (Ok (Continue (rounds + 1) (Some feedback'))) ->
  PyStr.nonempty feedback' = true
  /\ exists earlier, v = earlier ++ [VStatus task_id "reviewer" CHANGES].
Proof.
  intros Hobs. inversion Hobs; subst;
    try match goal with
      | H : forall s, Ok ?x <> Ok s |- _ => now destruct (H x)
      end.
  split; [assumption |].
  eexists [_; _; _]. reflexivity.
Qed.

Lemma task_rounds_feedback task_id h r ev before :
  task_rounds E task_id path max_rounds h = (r, ev) ->
  feedback_ok E before (view ev).
Proof.
  intros Hrun. revert before.
  cut (forall before,
          feedback_rule E before task_id
            (build_executor_prompt E task_id None) ->
          feedback_ok E before (view ev)).
  { intros H before. apply H. now left. }
  revert h r ev Hrun.
  apply (@task_rounds_view_ind E path max_rounds task_id
           (fun _ feedback v _ =>
              forall before,
                feedback_rule E before task_id
                  (build_executor_prompt E task_id feedback) ->
                feedback_ok E before v)).
  - intros. exact I.
  - intros rounds feedback v rb _ Hobs _ before Hrule.
    eapply body_obs_feedback; eauto.
  - intros rounds feedback v fb' v' r' _ Hobs IH before Hrule.
    apply feedback_ok_app. split.
    + eapply body_obs_feedback; eauto.
    + apply IH. destruct (body_obs_continue Hobs) as (Hfb & earlier & ->).
      right. exists (before ++ earlier), fb'.
      rewrite app_assoc. auto.
Qed.

Lemma run_scheduler_feedback task_ids h r ev before :
  run_scheduler E task_ids path max_rounds h = (r, ev) ->
  feedback_ok E before (view ev).
Proof.
  intros Hrun. revert before. revert task_ids h r ev Hrun.
  apply (@run_scheduler_view_ind E path max_rounds
           (fun _ v _ => forall before, feedback_ok E before v)).
  - intros. exact I.
  - intros task_id later h r ev Ht _ before.
    eapply task_rounds_feedback; eauto.
  - intros task_id later h ev v' r Ht IH before.
    apply feedback_ok_app. split; [| apply IH].
    eapply task_rounds_feedback; eauto.
Qed.

(** C9.  Every executor round of a run is handed either no feedback, or
    non-empty feedback right after the status read after a reviewer round
    of the same task was "request_changes"; the executor round that opens
    a task is handed none; and the executor prompt is the fixed
    instruction with the task and the working directory, followed, exactly
    when the feedback is non-empty, by a line break, the line "Reviewer
    feedback:" and the feedback itself. *)
Theorem feedback_only_after_changes task_ids h r ev :
  run_scheduler E task_ids path max_rounds h = (r, ev) ->
  (forall before task_id prompt after,
      view ev = before ++ VCall task_id "executor" prompt :: after ->
      feedback_rule E before task_id prompt)
  /\ (forall task_id h' r' ev',
        task_rounds E task_id path max_rounds h' = (r', ev') ->
        0 < max_rounds ->
        exists later,
          ev' = starting task_id
                  :: EvRunCodex (build_executor_prompt E task_id None)
                       (Some task_id) (Some "executor") :: later)
  /\ (forall task_id text,
        let base :=
          "You are the executor agent. Read and follow your role definition "
            ^^ "'agents/roles/executor.md'. Work on task " ^^ task_id
            ^^ ". Repo path: " ^^ getcwd E ^^ "." in
        build_executor_prompt E task_id None = base
        /\ build_executor_prompt E task_id (Some "") = base
        /\ (PyStr.nonempty text = true ->
            build_executor_prompt E task_id (Some text)
            = base ^^ PyStr.nl ^^ "Reviewer feedback:" ^^ PyStr.nl ^^ text
            /\ build_executor_prompt E task_id (Some text) <> base)).
Proof.
  intros Hrun. split; [| split].
  - intros before task_id prompt after Hview.
    apply (@feedback_ok_split (view ev) [] before task_id prompt after);
      [| exact Hview].
    eapply run_scheduler_feedback; eauto.
  - intros task_id h' r' ev' Ht Hmax.
    unfold task_rounds in Ht. run_inv.
    destruct (Z.to_nat max_rounds) as [| fuel] eqn:Hfuel; [lia |].
    cbn [while_rounds] in H2.
    destruct (Z.ltb_spec 0 max_rounds); [| lia].
    unfold round_body, run_codex in H2. run_inv; eexists; reflexivity.
  - intros task_id text base. split; [reflexivity |].
    split; [reflexivity |]. intros Htext.
    assert (Hprompt : build_executor_prompt E task_id (Some text)
                      = base ^^ PyStr.nl ^^ "Reviewer feedback:"
                          ^^ PyStr.nl ^^ text).
    { unfold build_executor_prompt. cbn [Py.some_text Py.text_or].
      rewrite Htext. reflexivity. }
    split; [exact Hprompt |].
    rewrite Hprompt. apply append_nonempty_differs. reflexivity.
Qed.

End Feedback.

Lemma feedback_only_after_changes_witness :
  exists ev before prompt after,
    run_scheduler two_voices ["T-001"] TASKS_STATE_PATH 2 [] = (Ok 1, ev)
    /\ view ev = before ++ VCall "T-001" "executor" prompt :: after
    /\ length before = 4%nat
    /\ feedback_rule two_voices before "T-001" prompt
    /\ prompt
       = "You are the executor agent. Read and follow your role definition "
           ^^ "'agents/roles/executor.md'. Work on task T-001"
           ^^ ". Repo path: /repo." ^^ PyStr.nl ^^ "Reviewer feedback:"
           ^^ PyStr.nl ^^ "please fix".
Proof.
  pose (run := run_scheduler two_voices ["T-001"] TASKS_STATE_PATH 2 []).
  pose (v := view (snd run)).
  assert (Hrun : run_scheduler two_voices ["T-001"] TASKS_STATE_PATH 2 []
                 = (Ok 1, snd run)).
  { vm_compute. reflexivity. }
  assert (Hview : view (snd run)
                  = firstn 4 v
                      ++ VCall "T-001" "executor"
                           (build_executor_prompt two_voices "T-001"
                              (Some "please fix"))
                      :: skipn 5 v).
  { vm_compute. reflexivity. }
  exists (snd run), (firstn 4 v),
    (build_executor_prompt two_voices "T-001" (Some "please fix")),
    (skipn 5 v).
  split; [exact Hrun |]. split; [exact Hview |].
  split; [vm_compute; reflexivity |].
  destruct (@feedback_only_after_changes _ _ _ _ _ _ _ Hrun)
    as (Hrule & _ & Htext).
  split; [exact (Hrule _ _ _ _ Hview) |].
  exact (proj1 (proj2 (proj2 (Htext "T-001" "please fix")) eq_refl)).
Defined.

(** * More about the scheduler *)

Section SchedulerEvents.

Variables (E : Env) (path : string) (max_rounds : Z).

Section Passes.

Variable task_id : string.

Variable P : Z -> option string -> list Event -> list Event
             -> Result TaskEnd -> Prop.

Hypothesis P_exit : forall rounds feedback h,
  max_rounds <= rounds -> P rounds feedback h [] (Ok Completed).

Hypothesis P_stop : forall rounds feedback h r ev,
  rounds < max_rounds ->
  round_body E task_id path max_rounds rounds feedback h = (r, ev) ->
  (forall rounds' feedback', r <> Ok (Continue rounds' feedback')) ->
  P rounds feedback h ev (end_of_pass r).

Hypothesis P_continue : forall rounds feedback h feedback' e1 e2 r,
  rounds < max_rounds ->
  round_body E task_id path max_rounds rounds feedback h
    = (Ok (Continue (rounds + 1) (Some feedback')), e1) ->
  P (rounds + 1) (Some feedback') (h ++ e1) e2 r ->
  P rounds feedback h (e1 ++ e2) r.

(** Induction over the passes of the loop of one task, with the events
    and the history of each pass. *)
Lemma while_rounds_events_ind : forall fuel rounds feedback h r ev,
  max_rounds - rounds <= Z.of_nat fuel ->
  while_rounds E task_id path max_rounds fuel rounds feedback h = (r, ev) ->
  P rounds feedback h ev r.
Proof.
  induction fuel as [| fuel IH]; intros rounds feedback h r ev Hfuel H;
    cbn [while_rounds] in H;
    destruct (Z.ltb_spec rounds max_rounds) as [Hlt | Hge];
    try lia; run_inv; try (apply P_exit; lia).
  - match goal with
    | H : round_body _ _ _ _ _ _ _ = (Ok ?a, _) |- _ =>
        pose proof (round_body_obs _ _ _ _ _ _ _ H) as Hobs;
        destruct a as [code | | rounds' feedback']; run_inv
    end.
    + rewrite app_nil_r.
      refine (@P_stop _ _ _ _ _ Hlt H1 _). congruence.
    + rewrite app_nil_r.
      refine (@P_stop _ _ _ _ _ Hlt H1 _). congruence.
    + inversion Hobs; subst;
        try match goal with
          | H : forall s, Ok ?x <> Ok s |- _ => now destruct (H x)
          end.
      eapply P_continue; [exact Hlt | exact H1 |].
      eapply IH; eauto. lia.
  - refine (@P_stop _ _ _ _ _ Hlt H1 _). congruence.
  - refine (@P_stop _ _ _ _ _ Hlt H1 _). congruence.
Qed.

End Passes.

End SchedulerEvents.
(** * What the result of a run tells *)

Section RunResult.

Variables (E : Env) (path : string) (max_rounds : Z).

Lemma body_obs_return_code task_id rounds feedback v code :
  body_obs E task_id max_rounds rounds feedback v (Ok (Return code)) ->
  code <> 0.
Proof.
  inversion 1; subst; try assumption; try discriminate;
    match goal with
    | H : forall s, Ok ?x <> Ok s |- _ => now destruct (H x)
    end.
Qed.

Lemma task_rounds_abort_code task_id h code ev :
  task_rounds E task_id path max_rounds h = (Ok (Aborted code), ev) ->
  code <> 0.
Proof.
  intros H.
  apply (@task_rounds_view_ind E path max_rounds task_id
           (fun _ _ _ r => forall c, r = Ok (Aborted c) -> c <> 0))
    with (c := code) in H; auto.
  - discriminate.
  - intros rounds feedback v r _ Hobs _ c Hr.
    destruct r as [[c' | | ? ?] | |]; cbn in Hr; try discriminate.
    injection Hr as ->. exact (body_obs_return_code Hobs).
Qed.

(** X1.  Every exit code of a run is accounted for: a run returns 0 only
    when every task of the list completed, and any other code is the code
    with which one task aborted after all tasks before it completed. *)
Theorem run_result_accounted : forall task_ids h code ev,
  run_scheduler E task_ids path max_rounds h = (Ok code, ev) ->
  (code = 0 /\ all_complete E path max_rounds task_ids h ev)
  \/ (code <> 0 /\ aborted_at E path max_rounds task_ids h ev code).
Proof.
  induction task_ids as [| task_id later IH]; intros h code ev H.
  - cbn in H. injection H as <- <-. left. split; [reflexivity | constructor].
  - rewrite run_scheduler_cons in H.
    destruct (task_rounds E task_id path max_rounds h)
      as [[[| c] | e |] e1] eqn:Ht; try discriminate.
    + destruct (run_scheduler E later path max_rounds (h ++ e1))
        as [r2 e2] eqn:Hrest.
      injection H as -> <-.
      destruct (IH _ _ _ Hrest)
        as [[-> Hall] | [Hc (earlier & t & rest & a & b & -> & Hall & Hb & ->)]].
      * left. split; [reflexivity | now constructor].
      * right. split; [exact Hc |].
        exists (task_id :: earlier), t, rest, (e1 ++ a), b.
        repeat split.
        -- now constructor.
        -- now rewrite app_assoc.
        -- now rewrite app_assoc.
    + injection H as -> <-. right.
      split; [exact (@task_rounds_abort_code _ _ _ _ Ht) |].
      exists [], task_id, later, [], e1.
      repeat split; [constructor | now rewrite app_nil_r].
Qed.

End RunResult.
Lemma accepted_app a b : accepted (a ++ b) = accepted a ++ accepted b.
Proof. apply flat_map_app. Qed.

Lemma reviewer_calls_app a b :
  reviewer_calls (a ++ b) = reviewer_calls a ++ reviewer_calls b.
Proof. apply flat_map_app. Qed.

Ltac not_ok :=
  match goal with
  | H : forall s, Ok ?x <> Ok s |- _ => now destruct (H x)
  end.

Section Accepted.

Variables (E : Env) (path : string) (max_rounds : Z).

Lemma body_obs_accepted task_id rounds feedback v r :
  body_obs E task_id max_rounds rounds feedback v r ->
  (r = Ok Break /\ accepted v = [task_id])
  \/ (r <> Ok Break /\ accepted v = [])
  \/ ((exists e, r = Raise e) /\ accepted v = [task_id]).
Proof.
  destruct 1 as [| | | | | | summary status e He | | | | ];
    first [ left; split; reflexivity
          | right; left; split; [discriminate | reflexivity]
          | idtac ].
  - right. left. split; [intros ->; not_ok | reflexivity].
  - right. left. split; [intros ->; not_ok | reflexivity].
  - cbn. destruct (status_is status "done");
      [right; right; split; [eauto | reflexivity]
      | right; left; split; [discriminate | reflexivity]].
  - right. left. split; [discriminate |].
    cbn. rewrite status_is_false by assumption. reflexivity.
Qed.

(** The tasks reported done in the passes of one task: this task when it
    completes, no task when it aborts or blocks, and either when a
    notification raises. *)
Lemma task_rounds_accepted task_id h r ev :
  0 < max_rounds ->
  task_rounds E task_id path max_rounds h = (r, ev) ->
  match r with
  | Ok Completed => accepted (view ev) = [task_id]
  | Raise _ => accepted (view ev) = [] \/ accepted (view ev) = [task_id]
  | _ => accepted (view ev) = []
  end.
Proof.
  intros Hmax H.
  cut (0 < max_rounds ->
       match r with
       | Ok Completed => accepted (view ev) = [task_id]
       | Raise _ => accepted (view ev) = [] \/ accepted (view ev) = [task_id]
       | _ => accepted (view ev) = []
       end); [intros Hcut; exact (Hcut Hmax) |].
  revert h r ev H.
  apply (@task_rounds_view_ind E path max_rounds task_id
           (fun rounds _ v r =>
              rounds < max_rounds ->
              match r with
              | Ok Completed => accepted v = [task_id]
              | Raise _ => accepted v = [] \/ accepted v = [task_id]
              | _ => accepted v = []
              end)).
  - intros. lia.
  - intros rounds feedback v r _ Hobs Hstop _.
    destruct (body_obs_accepted Hobs)
      as [[-> ->] | [[Hr ->] | [(e & ->) ->]]];
      [reflexivity | | now right].
    destruct r as [[c | | n fb] | |]; cbn; auto.
    + now destruct Hr.
    + now destruct (Hstop n fb).
  - intros rounds feedback v fb' v' r _ Hobs IH _.
    destruct (body_obs_accepted Hobs)
      as [[Hr _] | [[_ Hv] | [(e & Hr) _]]]; try discriminate.
    rewrite accepted_app, Hv. apply IH.
    inversion Hobs; subst; try assumption; not_ok.
Qed.

(** X2.  With a positive round cap, the tasks that a review reported done
    are an initial stretch of the task list, in list order, and a run that
    returns 0 has had every task of the list reported done. *)
Theorem exit_zero_means_all_done task_ids h r ev :
  0 < max_rounds ->
  run_scheduler E task_ids path max_rounds h = (r, ev) ->
  exists rest,
    task_ids = accepted (view ev) ++ rest /\ (r = Ok 0 -> rest = []).
Proof.
  intros Hmax. revert task_ids h r ev.
  apply (@run_scheduler_view_ind E path max_rounds
           (fun task_ids v r =>
              exists rest,
                task_ids = accepted v ++ rest /\ (r = Ok 0 -> rest = []))).
  - exists []. auto.
  - intros task_id later h r ev Ht Hr.
    pose proof (@task_rounds_accepted _ _ _ _ Hmax Ht) as Hacc.
    destruct r as [[| c] | e |].
    + now destruct Hr.
    + exists (task_id :: later). rewrite Hacc.
      split; [reflexivity |]. cbn. intros [= ->].
      now destruct (@task_rounds_abort_code _ _ _ _ _ _ _ Ht).
    + destruct Hacc as [-> | ->];
        [exists (task_id :: later) | exists later];
        (split; [reflexivity | discriminate]).
    + exists (task_id :: later). rewrite Hacc.
      split; [reflexivity | discriminate].
  - intros task_id later h ev v' r Ht (rest & -> & Hrest).
    exists rest. rewrite accepted_app, (@task_rounds_accepted _ _ _ _ Hmax Ht).
    auto.
Qed.

End Accepted.

Lemma exit_zero_means_all_done_witness :
  exists ev,
    run_scheduler second_task_stalls ["T-001"] TASKS_STATE_PATH 3 []
      = (Ok 0, ev)
    /\ accepted (view ev) = ["T-001"].
Proof.
  pose (run := run_scheduler second_task_stalls ["T-001"] TASKS_STATE_PATH 3 []).
  assert (Hrun : run_scheduler second_task_stalls ["T-001"] TASKS_STATE_PATH 3 []
                 = (Ok 0, snd run)).
  { vm_compute. reflexivity. }
  assert (Hmax : 0 < 3) by lia.
  destruct (@exit_zero_means_all_done _ _ _ _ _ _ _ Hmax Hrun)
    as (rest & Hlist & Hrest).
  exists (snd run). split; [exact Hrun |].
  rewrite (Hrest eq_refl), app_nil_r in Hlist. symmetry. exact Hlist.
Defined.
Lemma run_result_accounted_witness :
  exists ev,
    run_scheduler second_task_stalls ["T-001"; "T-002"; "T-003"]
      TASKS_STATE_PATH 3 [] = (Ok 1, ev)
    /\ aborted_at second_task_stalls TASKS_STATE_PATH 3
         ["T-001"; "T-002"; "T-003"] [] ev 1.
Proof.
  pose (run := run_scheduler second_task_stalls ["T-001"; "T-002"; "T-003"]
                 TASKS_STATE_PATH 3 []).
  assert (Hrun : run_scheduler second_task_stalls ["T-001"; "T-002"; "T-003"]
                   TASKS_STATE_PATH 3 [] = (Ok 1, snd run)).
  { vm_compute. reflexivity. }
  exists (snd run). split; [exact Hrun |].
  destruct (@run_result_accounted _ _ _ _ _ _ _ Hrun) as [[H _] | [_ H]];
    [discriminate H | exact H].
Defined.

(** * Where a run stops *)

Lemma ends_at_app bad a b aborted :
  forallb (fun x => negb (bad x)) a = true ->
  ends_at bad b aborted -> ends_at bad (a ++ b) aborted.
Proof.
  intros Ha [Hb | (earlier & x & -> & He & Hx & Hab)].
  - left. rewrite forallb_app, Ha, Hb. reflexivity.
  - right. exists (a ++ earlier), x. rewrite app_assoc.
    repeat split; auto. rewrite forallb_app, Ha, He. reflexivity.
Qed.

Lemma ends_at_last bad v aborted a x b :
  ends_at bad v aborted ->
  v = a ++ x :: b ->
  bad x = true ->
  aborted /\ b = [].
Proof.
  intros Hshape Hv Hx.
  destruct Hshape as [Hall | (earlier & x' & Hv' & He & Hx' & Hab)].
  - exfalso. rewrite Hv, forallb_app in Hall. cbn [forallb] in Hall.
    rewrite Hx in Hall. cbn in Hall. now rewrite andb_false_r in Hall.
  - rewrite Hv in Hv'. clear Hv. destruct b as [| y b'] using rev_ind.
    + auto.
    + exfalso. clear IHb'.
      rewrite app_comm_cons, app_assoc in Hv'.
      apply app_inj_tail in Hv'. destruct Hv' as [<- _].
      rewrite forallb_app in He. cbn [forallb] in He.
      rewrite Hx in He. cbn in He. now rewrite andb_false_r in He.
Qed.

Section UnexpectedReview.

Variables (E : Env) (path : string) (max_rounds : Z).

Lemma body_obs_unexpected task_id rounds feedback v r :
  body_obs E task_id max_rounds rounds feedback v r ->
  ((r = Ok (Return 1) \/ exists e, r = Raise e /\ notifier_raises E e)
   /\ exists earlier x,
       v = earlier ++ [x]
       /\ forallb (fun x => negb (unexpected_review x)) earlier = true
       /\ unexpected_review x = true)
  \/ forallb (fun x => negb (unexpected_review x)) v = true.
Proof.
  destruct 1 as [| | | | | | summary status e He | | | | summary status];
    try (right; reflexivity).
  - destruct (unexpected_review (VStatus task_id "reviewer" status)) eqn:Hu.
    + left. split; [right; eauto |].
      exists [call_executor E task_id feedback;
              VStatus task_id "executor" READY;
              call_reviewer E task_id summary],
             (VStatus task_id "reviewer" status).
      repeat split. exact Hu.
    + right. cbn [forallb]. rewrite Hu. reflexivity.
  - left. split; [now left |].
    exists [call_executor E task_id feedback;
            VStatus task_id "executor" READY;
            call_reviewer E task_id summary],
           (VStatus task_id "reviewer" status).
    repeat split. cbn.
    now rewrite !status_is_false by assumption.
Qed.

Lemma task_rounds_unexpected task_id h r ev :
  task_rounds E task_id path max_rounds h = (r, ev) ->
  ends_at unexpected_review (view ev)
    (r = Ok (Aborted 1) \/ exists e, r = Raise e /\ notifier_raises E e).
Proof.
  revert h r ev.
  apply (@task_rounds_view_ind E path max_rounds task_id
           (fun _ _ v r =>
              ends_at unexpected_review v
                (r = Ok (Aborted 1)
                 \/ exists e, r = Raise e /\ notifier_raises E e))).
  - intros. now left.
  - intros rounds feedback v rb _ Hobs _.
    destruct (body_obs_unexpected Hobs)
      as [(Hr & earlier & x & -> & He & Hx) | Hall].
    + right. exists earlier, x.
      split; [reflexivity |]. split; [exact He |]. split; [exact Hx |].
      destruct Hr as [-> | (e & -> & Hn)]; [now left | right].
      exists e. split; [reflexivity | exact Hn].
    + now left.
  - intros rounds feedback v fb' v' r' _ Hobs IH.
    apply ends_at_app; [| exact IH].
    destruct (body_obs_unexpected Hobs)
      as [([Hr | (e & Hr & _)] & _) | Hall];
      [discriminate | discriminate | exact Hall].
Qed.

Lemma run_scheduler_unexpected task_ids h r ev :
  run_scheduler E task_ids path max_rounds h = (r, ev) ->
  ends_at unexpected_review (view ev)
    (r = Ok 1 \/ exists e, r = Raise e /\ notifier_raises E e).
Proof.
  revert task_ids h r ev.
  apply (@run_scheduler_view_ind E path max_rounds
           (fun _ v r =>
              ends_at unexpected_review v
                (r = Ok 1
                 \/ exists e, r = Raise e /\ notifier_raises E e))).
  - now left.
  - intros task_id later h' r' ev' Ht _.
    destruct (task_rounds_unexpected _ _ Ht)
      as [Hall | (earlier & x & Hv & He & Hx & Hr)].
    + now left.
    + right. exists earlier, x.
      split; [exact Hv |]. split; [exact He |]. split; [exact Hx |].
      destruct Hr as [-> | (e & -> & Hn)]; [now left | right].
      exists e. split; [reflexivity | exact Hn].
  - intros task_id later h' ev' v' r' Ht IH.
    apply ends_at_app; [| exact IH].
    destruct (task_rounds_unexpected _ _ Ht)
      as [Hall | (earlier & x & Hv & He & Hx & [Hr | (e & Hr & _)])];
      [exact Hall | discriminate | discriminate].
Qed.


End UnexpectedReview.

(** * How many rounds a run invokes, and in which order *)

Lemma count_occ_repeat (t t' : string) n :
  count_occ string_dec (repeat t n) t' = if string_dec t t' then n else 0%nat.
Proof.
  induction n as [| n IH]; cbn [repeat count_occ].
  - now destruct (string_dec t t').
  - rewrite IH. now destruct (string_dec t t').
Qed.

Section RoundCount.

Variables (E : Env) (path : string) (max_rounds : Z).

Lemma body_obs_calls task_id rounds feedback v r :
  body_obs E task_id max_rounds rounds feedback v r ->
  executor_calls v = [task_id]
  /\ exists m, reviewer_calls v = repeat task_id m /\ (m <= 1)%nat.
Proof.
  destruct 1; (split; [reflexivity |]);
    first [ exists 0%nat; split; [reflexivity | lia]
          | exists 1%nat; split; [reflexivity | lia] ].
Qed.

(** The passes of one task invoke at most [max_rounds] executor rounds and
    no more reviewer rounds than executor rounds, all for this task. *)
Lemma task_rounds_calls task_id h r ev :
  task_rounds E task_id path max_rounds h = (r, ev) ->
  exists n m,
    executor_calls (view ev) = repeat task_id n
    /\ reviewer_calls (view ev) = repeat task_id m
    /\ (m <= n <= Z.to_nat max_rounds)%nat.
Proof.
  intros H.
  cut (exists n m,
         executor_calls (view ev) = repeat task_id n
         /\ reviewer_calls (view ev) = repeat task_id m
         /\ (m <= n <= Z.to_nat (max_rounds - 0))%nat).
  { now rewrite Z.sub_0_r. }
  revert h r ev H.
  apply (@task_rounds_view_ind E path max_rounds task_id
           (fun rounds _ v _ =>
              exists n m,
                executor_calls v = repeat task_id n
                /\ reviewer_calls v = repeat task_id m
                /\ (m <= n <= Z.to_nat (max_rounds - rounds))%nat)).
  - intros. exists 0%nat, 0%nat. repeat split; lia.
  - intros rounds feedback v r Hlt Hobs _.
    destruct (body_obs_calls Hobs) as (He & m & Hr & Hm).
    exists 1%nat, m. repeat split; auto; lia.
  - intros rounds feedback v fb' v' r Hlt Hobs (n & m & He' & Hr' & Hle).
    destruct (body_obs_calls Hobs) as (He & m1 & Hr & Hm).
    exists (1 + n)%nat, (m1 + m)%nat.
    rewrite executor_calls_app, reviewer_calls_app, He, He', Hr, Hr'.
    change [task_id] with (repeat task_id 1). rewrite <- !repeat_app.
    repeat split; lia.
Qed.

(** X4.  The round cap holds for every run, however it ends: for each
    task, the executor rounds invoked for it are at most [max_rounds]
    times the number of times the task is listed, and there are never
    more reviewer rounds than executor rounds for it. *)
Theorem rounds_capped task_id : forall task_ids h r ev,
  run_scheduler E task_ids path max_rounds h = (r, ev) ->
  (count_occ string_dec (reviewer_calls (view ev)) task_id
   <= count_occ string_dec (executor_calls (view ev)) task_id
   <= count_occ string_dec task_ids task_id * Z.to_nat max_rounds)%nat.
Proof.
  apply (@run_scheduler_view_ind E path max_rounds
           (fun task_ids v _ =>
              (count_occ string_dec (reviewer_calls v) task_id
               <= count_occ string_dec (executor_calls v) task_id
               <= count_occ string_dec task_ids task_id
                  * Z.to_nat max_rounds)%nat)).
  - cbn. lia.
  - intros t later h r ev Ht _.
    destruct (task_rounds_calls _ _ Ht) as (n & m & -> & -> & Hle).
    rewrite !count_occ_repeat. cbn [count_occ].
    destruct (string_dec t task_id); nia.
  - intros t later h ev v' r Ht IH.
    destruct (task_rounds_calls _ _ Ht) as (n & m & He & Hr & Hle).
    rewrite executor_calls_app, reviewer_calls_app, He, Hr.
    rewrite !count_occ_app, !count_occ_repeat. cbn [count_occ].
    destruct (string_dec t task_id); nia.
Qed.

Lemma body_obs_task task_id rounds feedback v r :
  body_obs E task_id max_rounds rounds feedback v r ->
  map task_of v = repeat task_id (length v).
Proof. destruct 1; reflexivity. Qed.

Lemma task_rounds_task task_id h r ev :
  task_rounds E task_id path max_rounds h = (r, ev) ->
  map task_of (view ev) = repeat task_id (length (view ev)).
Proof.
  revert h r ev.
  apply (@task_rounds_view_ind E path max_rounds task_id
           (fun _ _ v _ => map task_of v = repeat task_id (length v))).
  - reflexivity.
  - intros rounds feedback v r _ Hobs _. exact (body_obs_task Hobs).
  - intros rounds feedback v fb' v' r _ Hobs IH.
    rewrite map_app, length_app, repeat_app, IH, (body_obs_task Hobs).
    reflexivity.
Qed.

(** X5.  Tasks are handled strictly one after the other, in list order:
    the rounds invoked and statuses read during a run fall into one
    uninterrupted block per task, the blocks in the order of the list. *)
Theorem rounds_grouped_by_task : forall task_ids h r ev,
  run_scheduler E task_ids path max_rounds h = (r, ev) ->
  exists counts, map task_of (view ev) = blocks task_ids counts.
Proof.
  apply (@run_scheduler_view_ind E path max_rounds
           (fun task_ids v _ =>
              exists counts, map task_of v = blocks task_ids counts)).
  - now exists [].
  - intros t later h r ev Ht _. exists [length (view ev)].
    rewrite (task_rounds_task _ _ Ht). unfold blocks. cbn [combine].
    destruct later; cbn; now rewrite app_nil_r.
  - intros t later h ev v' r Ht (counts & IH).
    exists (length (view ev) :: counts).
    rewrite map_app, IH, (task_rounds_task _ _ Ht). reflexivity.
Qed.

End RoundCount.

Lemma rounds_capped_witness :
  exists ev,
    run_scheduler always_changes ["T-001"; "T-002"] TASKS_STATE_PATH 3 []
      = (Ok 1, ev)
    /\ (count_occ string_dec (executor_calls (view ev)) "T-001" <= 3)%nat.
Proof.
  pose (run := run_scheduler always_changes ["T-001"; "T-002"]
                 TASKS_STATE_PATH 3 []).
  assert (Hrun : run_scheduler always_changes ["T-001"; "T-002"]
                   TASKS_STATE_PATH 3 [] = (Ok 1, snd run)).
  { vm_compute. reflexivity. }
  exists (snd run). split; [exact Hrun |].
  exact (proj2 (@rounds_capped _ _ _ "T-001" _ _ _ _ Hrun)).
Defined.

Lemma rounds_grouped_by_task_witness :
  exists ev counts,
    run_scheduler second_task_stalls ["T-001"; "T-002"; "T-003"]
      TASKS_STATE_PATH 3 [] = (Ok 1, ev)
    /\ map task_of (view ev) = blocks ["T-001"; "T-002"; "T-003"] counts.
Proof.
  pose (run := run_scheduler second_task_stalls ["T-001"; "T-002"; "T-003"]
                 TASKS_STATE_PATH 3 []).
  assert (Hrun : run_scheduler second_task_stalls ["T-001"; "T-002"; "T-003"]
                   TASKS_STATE_PATH 3 [] = (Ok 1, snd run)).
  { vm_compute. reflexivity. }
  destruct (@rounds_grouped_by_task _ _ _ _ _ _ _ Hrun) as (counts & H).
  exists (snd run), counts. split; [exact Hrun | exact H].
Defined.
(** * Notifications report what the registry holds *)

Section Fresh.

Variables (E : Env) (path : string).

Lemma fresh_quiet h ev :
  forallb (fun e => negb (is_notify e)) ev = true ->
  reports_fresh E path h ev.
Proof.
  intros Hq before role t s resp after ->.
  rewrite forallb_app in Hq. cbn in Hq.
  now rewrite andb_false_r in Hq.
Qed.

Lemma fresh_app h a b :
  reports_fresh E path h a ->
  reports_fresh E path (h ++ a) b ->
  reports_fresh E path h (a ++ b).
Proof.
  intros Ha Hb before role t s resp after Heq.
  apply app_eq_app in Heq.
  destruct Heq as (l & [[-> Hl] | [-> Hl]]).
  - destruct l as [| x l].
    + cbn in Hl. rewrite app_nil_r in *.
      specialize (Hb [] role t s resp after (eq_sym Hl)).
      now rewrite app_nil_r in Hb.
    + injection Hl as <- ->. eapply Ha. reflexivity.
  - rewrite app_assoc. eapply Hb. exact Hl.
Qed.

Lemma fresh_io h ev :
  forallb is_io ev = true -> reports_fresh E path h ev.
Proof.
  intros Hio. apply fresh_quiet.
  rewrite forallb_forall in *. intros e He. specialize (Hio e He).
  now destruct e.
Qed.

Lemma fresh_codex prompt task_id role h r ev :
  run_codex E prompt task_id role h = (r, ev) ->
  reports_fresh E path h ev.
Proof.
  unfold run_codex. intros H. run_inv;
    repeat (apply fresh_app; [apply fresh_quiet; reflexivity |]);
    eapply fresh_io, stream_process_io; eassumption.
Qed.

Lemma task_status_inv task_id h r ev :
  task_status E path task_id h = (r, ev) ->
  ev = [EvLoad path]
  /\ forall status,
       r = Ok status -> just_read E path (h ++ ev) task_id status.
Proof.
  unfold task_status, load_tasks_state. intros H. run_inv;
    try (destruct (Py.or_else _ _) eqn:Hdoc; run_inv);
    (split; [reflexivity |]); try discriminate.
  intros status [= <-]. cbn [app].
  exists h. eexists. split; [reflexivity |]. split; [exact Hdoc | reflexivity].
Qed.

Lemma fresh_notify role task_id status response h r ev :
  just_read E path h task_id status ->
  send_imessage E role task_id status response h = (r, ev) ->
  reports_fresh E path h ev.
Proof.
  unfold send_imessage. intros Hread H. run_inv.
  assert (Hone : forall rest,
             forallb (fun e => negb (is_notify e)) rest = true ->
             reports_fresh E path h
               (EvNotify role task_id status response :: rest)).
  { intros rest Hrest before role' t s resp after Heq.
    destruct before as [| b before].
    - injection Heq as <- <- <- <- <-. now rewrite app_nil_r.
    - exfalso. injection Heq as <- ->.
      rewrite forallb_app in Hrest. cbn in Hrest.
      now rewrite andb_false_r in Hrest. }
  destruct (run_notifier E _); run_inv; apply Hone; reflexivity.
Qed.

Ltac fresh_chain :=
  repeat match goal with
    | H : task_status _ _ _ _ = (_, ?ev) |- _ =>
        apply task_status_inv in H; destruct H as [? H]; subst ev
    end;
  solve [ repeat first
            [ apply fresh_app
            | eapply fresh_codex; eassumption
            | eapply fresh_notify; [| eassumption]; auto
            | apply fresh_quiet; reflexivity ] ].

Lemma round_body_fresh task_id max_rounds rounds feedback h r ev :
  round_body E task_id path max_rounds rounds feedback h = (r, ev) ->
  reports_fresh E path h ev.
Proof.
  unfold round_body. intros H.
  run_inv; try fresh_chain.
  split_pair; split_code; run_inv; try fresh_chain.
  split_status "ready_for_review"; cbn [negb] in *; run_inv; try fresh_chain.
  split_pair; split_code; run_inv; try fresh_chain.
  split_status "done"; run_inv; try fresh_chain.
  split_status "request_changes"; run_inv; try fresh_chain.
  match goal with
  | H : context [?a >=? ?b] |- _ => destruct (Z.geb_spec a b)
  end; run_inv; fresh_chain.
Qed.

End Fresh.
Section FreshRun.

Variables (E : Env) (path : string) (max_rounds : Z).

Lemma task_rounds_fresh task_id h r ev :
  task_rounds E task_id path max_rounds h = (r, ev) ->
  reports_fresh E path h ev.
Proof.
  unfold task_rounds. intros H. run_inv.
  apply fresh_app; [apply fresh_quiet; reflexivity |].
  revert H2.
  apply (@while_rounds_events_ind E path max_rounds task_id
           (fun _ _ h ev _ => reports_fresh E path h ev)); try lia.
  - intros. apply fresh_quiet. reflexivity.
  - intros rounds feedback h' r' ev' _ Hbody _.
    eapply round_body_fresh; eassumption.
  - intros rounds feedback h' fb' ea eb r' _ Hbody IH.
    apply fresh_app; [eapply round_body_fresh; eassumption | exact IH].
Qed.

(** X6.  The registry is read afresh for every status reported: each
    notification that a run sends comes right after a load of the
    registry file, and carries the status that the document loaded there
    holds for the task (none when the task or its status is missing). *)
Theorem notifications_report_registry : forall task_ids h r ev,
  run_scheduler E task_ids path max_rounds h = (r, ev) ->
  reports_fresh E path h ev.
Proof.
  induction task_ids as [| task_id later IH]; intros h r ev H.
  - cbn in H. injection H as <- <-. apply fresh_quiet. reflexivity.
  - rewrite run_scheduler_cons in H.
    destruct (task_rounds E task_id path max_rounds h)
      as [r1 e1] eqn:Ht.
    pose proof (@task_rounds_fresh _ _ _ _ Ht) as H1.
    destruct r1 as [[| c] | e |]; try (injection H as <- <-; exact H1).
    destruct (run_scheduler E later path max_rounds (h ++ e1))
      as [r2 e2] eqn:Hrest.
    injection H as <- <-.
    apply fresh_app; [exact H1 | exact (IH _ _ _ Hrest)].
Qed.

End FreshRun.

Lemma notifications_report_registry_witness :
  exists ev before response after,
    run_scheduler second_task_stalls ["T-001"; "T-002"; "T-003"]
      TASKS_STATE_PATH 3 [] = (Ok 1, ev)
    /\ ev = before ++ EvNotify "reviewer" "T-001" DONE response :: after
    /\ just_read second_task_stalls TASKS_STATE_PATH ([] ++ before)
         "T-001" DONE.
Proof.
  pose (run := run_scheduler second_task_stalls ["T-001"; "T-002"; "T-003"]
                 TASKS_STATE_PATH 3 []).
  assert (Hrun : run_scheduler second_task_stalls ["T-001"; "T-002"; "T-003"]
                   TASKS_STATE_PATH 3 [] = (Ok 1, snd run)).
  { vm_compute. reflexivity. }
  pose (n := 19%nat).
  pose (before := firstn n (snd run)).
  pose (after := skipn (S n) (snd run)).
  assert (Hev : snd run
                = before ++ EvNotify "reviewer" "T-001" DONE (Some "ok")
                    :: after).
  { vm_compute. reflexivity. }
  exists (snd run), before, (Some "ok"), after.
  split; [exact Hrun |]. split; [exact Hev |].
  exact (@notifications_report_registry _ _ _ _ _ _ _ Hrun
           _ _ _ _ _ _ Hev).
Defined.
(** * Exit codes of agent processes *)

Section SessionEvents.

Variable E : Env.

Lemma for_keys_no_spawn prefix keys : forall s h r ev,
  for_keys E prefix keys s h = (r, ev) ->
  forallb (fun e => negb (is_spawn e)) ev = true.
Proof.
  induction keys as [| key rest IH]; intros s h r ev H.
  - inversion H. reflexivity.
  - cbn [for_keys] in H.
    destruct (PyStr.readline (buffer s key)) as [line remaining].
    run_inv. decode_cases; [reflexivity |].
    destruct (PyStr.nonempty line); cbn [negb] in *; run_inv; cbn;
      try reflexivity; eauto.
    destruct a as [[formatted tag] agent_text].
    destruct (PyStr.nonempty formatted); cbn [negb] in *; run_inv; cbn;
      try reflexivity; eauto.
Qed.

Lemma select_loop_no_spawn prefix ready : forall s h r ev,
  select_loop E prefix ready s h = (r, ev) ->
  forallb (fun e => negb (is_spawn e)) ev = true.
Proof.
  induction ready as [| keys later IH]; intros s h r ev H; cbn [select_loop] in H.
  - destruct (negb (reg_out s || reg_err s)); run_inv; reflexivity.
  - destruct (negb (reg_out s || reg_err s)); run_inv;
      try rewrite forallb_app;
      repeat match goal with
        | H : for_keys _ _ _ _ _ = _ |- _ =>
            apply for_keys_no_spawn in H; rewrite ?H
        end; eauto.
Qed.

Lemma for_keys_stream prefix keys : forall s h r ev,
  for_keys E prefix keys s h = (r, ev) -> forallb is_stream ev = true.
Proof.
  induction keys as [| key rest IH]; intros s h r ev H.
  - inversion H. reflexivity.
  - cbn [for_keys] in H.
    destruct (PyStr.readline (buffer s key)) as [line remaining].
    run_inv. decode_cases; [reflexivity |].
    destruct (PyStr.nonempty line); cbn [negb] in *; run_inv; cbn;
      try reflexivity; eauto.
    destruct a as [[formatted tag] agent_text].
    destruct (PyStr.nonempty formatted); cbn [negb] in *; run_inv; cbn;
      try reflexivity; eauto.
Qed.

Lemma select_loop_stream prefix ready : forall s h r ev,
  select_loop E prefix ready s h = (r, ev) -> forallb is_stream ev = true.
Proof.
  induction ready as [| keys later IH]; intros s h r ev H; cbn [select_loop] in H.
  - destruct (negb (reg_out s || reg_err s)); run_inv; reflexivity.
  - destruct (negb (reg_out s || reg_err s)); run_inv;
      try rewrite forallb_app;
      repeat match goal with
        | H : for_keys _ _ _ _ _ = _ |- _ =>
            apply for_keys_stream in H; rewrite ?H
        end; eauto.
Qed.

(** A session starts with the spawn, and after it only reads and writes;
    a pair that it hands back holds the exit code of the process. *)
Lemma stream_process_stream command prefix h r ev :
  stream_process E command prefix h = (r, ev) ->
  exists session,
    ev = EvPopen command :: session
    /\ forallb is_stream session = true
    /\ forall code message,
         r = Ok (Pair code message) ->
         exists proc,
           popen E (h ++ [EvPopen command]) command = Spawned proc
           /\ p_wait proc = Some code.
Proof.
  unfold stream_process. intros H. run_inv.
  rewrite app_nil_r in *.
  destruct (popen E (h ++ [EvPopen command]) command)
    as [exc | e | proc] eqn:Hp; run_inv;
    try (destruct (p_wait proc) as [c |] eqn:Hwait; run_inv);
    eexists; (split; [reflexivity |]); cbn [app]; rewrite ?app_nil_r;
    (split;
     [ first [ reflexivity | eapply select_loop_stream; eassumption ]
     | intros code message Hr; try discriminate Hr ]).
  injection Hr as -> _. eauto.
Qed.

(** A session that hands back a pair hands back the exit code of the
    process it started, and starts no other. *)
Lemma stream_process_exit command prefix h code message ev :
  stream_process E command prefix h = (Ok (Pair code message), ev) ->
  last_spawn_exit E h ev code.
Proof.
  unfold stream_process. intros H. run_inv.
  destruct (popen E (h ++ [EvPopen command]) command)
    as [exc | e | proc] eqn:Hp; run_inv.
  destruct (p_wait proc) as [c |] eqn:Hwait; run_inv.
  match goal with
  | H : select_loop _ _ _ _ _ = (_, ?e) |- _ =>
      exists [], command, proc, (e ++ []);
      apply select_loop_no_spawn in H
  end.
  cbn [app]. rewrite app_nil_r. auto.
Qed.

Lemma last_spawn_shift h a b code :
  last_spawn_exit E (h ++ a) b code -> last_spawn_exit E h (a ++ b) code.
Proof.
  intros (before & command & proc & after & -> & Hp & Hc & Hq).
  exists (a ++ before), command, proc, after.
  rewrite <- !app_assoc in *. auto.
Qed.

Lemma last_spawn_extend h a b code :
  last_spawn_exit E h a code ->
  forallb (fun e => negb (is_spawn e)) b = true ->
  last_spawn_exit E h (a ++ b) code.
Proof.
  intros (before & command & proc & after & -> & Hp & Hc & Hq) Hb.
  exists before, command, proc, (after ++ b).
  rewrite <- app_assoc, forallb_app, Hq, Hb. auto.
Qed.

Lemma run_codex_exit prompt task_id role h res code message ev :
  run_codex E prompt task_id role h = (Ok res, ev) ->
  unpack res = Ok (code, message) ->
  last_spawn_exit E h ev code.
Proof.
  unfold run_codex. intros H Hres.
  destruct res as [c m |]; [| discriminate]. injection Hres as -> ->.
  run_inv.
  repeat apply last_spawn_shift.
  eapply stream_process_exit; eassumption.
Qed.

Lemma round_body_exit task_id path max_rounds rounds feedback h code ev :
  round_body E task_id path max_rounds rounds feedback h
    = (Ok (Return code), ev) ->
  code <> 1 ->
  last_spawn_exit E h ev code.
Proof.
  unfold round_body. intros H Hcode.
  run_inv.
  split_pair; split_code; run_inv.
  - split_status "ready_for_review"; cbn [negb] in *; run_inv;
      [| congruence].
    split_pair; split_code; run_inv.
    + split_status "done"; run_inv.
      split_status "request_changes"; run_inv; [| congruence].
      match goal with
      | H : context [?a >=? ?b] |- _ => destruct (Z.geb_spec a b)
      end; run_inv. congruence.
    + do 4 apply last_spawn_shift.
      apply last_spawn_extend; [| reflexivity].
      eapply run_codex_exit; eassumption.
  - apply last_spawn_extend; [| reflexivity].
    eapply run_codex_exit; eassumption.
Qed.

End SessionEvents.
Section ExitCodes.

Variables (E : Env) (path : string) (max_rounds : Z).

Lemma task_rounds_exit task_id h code ev :
  task_rounds E task_id path max_rounds h = (Ok (Aborted code), ev) ->
  code <> 1 ->
  last_spawn_exit E h ev code.
Proof.
  unfold task_rounds. intros H Hcode. run_inv.
  apply last_spawn_shift.
  match goal with
  | H : while_rounds _ _ _ _ _ _ _ _ = _ |- _ =>
      apply (@while_rounds_events_ind E path max_rounds task_id
               (fun _ _ h ev r =>
                  forall c, r = Ok (Aborted c) -> c <> 1 ->
                            last_spawn_exit E h ev c))
        with (c := code) in H; auto; try lia
  end.
  - discriminate.
  - intros rounds feedback h' r ev' _ Hbody _ c Hr Hc.
    destruct r as [[c' | | ? ?] | |]; cbn in Hr; try discriminate.
    injection Hr as ->. eapply round_body_exit; eassumption.
  - intros rounds feedback h' fb' ea eb r _ _ IH c Hr Hc.
    apply last_spawn_shift. eauto.
Qed.

(** X7.  An exit code of a run other than 0 and 1 is never made up by the
    scheduler: it is the exit code of the agent process that the run
    started last. *)
Theorem exit_code_of_last_process : forall task_ids h code ev,
  run_scheduler E task_ids path max_rounds h = (Ok code, ev) ->
  code <> 0 ->
  code <> 1 ->
  last_spawn_exit E h ev code.
Proof.
  induction task_ids as [| task_id later IH]; intros h code ev H H0 H1.
  - cbv [run_scheduler ret] in H. injection H as <- <-. now destruct H0.
  - rewrite run_scheduler_cons in H.
    destruct (task_rounds E task_id path max_rounds h)
      as [[[| c] | e |] e1] eqn:Ht; try discriminate.
    + destruct (run_scheduler E later path max_rounds (h ++ e1))
        as [r2 e2] eqn:Hrest.
      injection H as -> <-. apply last_spawn_shift. eauto.
    + injection H as -> <-. eapply task_rounds_exit; eassumption.
Qed.

(** X8.  Without a task list and without --all, the dispatcher runs the
    one prompt it was given: it starts one agent process, [codex exec
    --json -s danger-full-access] followed by that prompt, and after that
    only reads from the pipes and writes to the sinks (it neither reads
    the registry nor calls the notifier); an exit code it returns is the
    exit code of that process. *)
Theorem prompt_mode_exit_code args h r ev :
  a_all args = false ->
  a_tasks args = None \/ a_tasks args = Some [] ->
  main E args h = (r, ev) ->
  let command :=
    ["codex"; "exec"; "--json"; "-s"; "danger-full-access"; a_prompt args] in
  let start :=
    [EvRunCodex (a_prompt args) None None;
     EvWrite Stdout ("Running: codex exec --json -s danger-full-access "
                       ^^ a_prompt args ^^ PyStr.nl);
     EvPopen command] in
  exists session,
    ev = start ++ session
    /\ forallb is_stream session = true
    /\ (forall code,
          r = Ok code ->
          exists proc,
            popen E (h ++ start) command = Spawned proc
            /\ p_wait proc = Some code).
Proof.
  intros Hall Htasks H command start.
  assert (Hcodex : forall rc ec,
             run_codex E (a_prompt args) None None h = (rc, ec) ->
             exists session,
               ec = start ++ session
               /\ forallb is_stream session = true
               /\ (forall code message,
                     rc = Ok (Pair code message) ->
                     exists proc,
                       popen E (h ++ start) command = Spawned proc
                       /\ p_wait proc = Some code)).
  { unfold run_codex. intros rc ec Hc. run_inv.
    all: match goal with
         | H : stream_process _ _ _ _ = _ |- _ =>
             apply stream_process_stream in H;
             destruct H as (session & -> & Hs & Hcode)
         end.
    all: exists session; split; [reflexivity |]; split; [exact Hs |].
    all: intros code message Hr; try discriminate Hr.
    destruct (Hcode code message Hr) as (proc & Hp & Hw).
    exists proc. split; [| exact Hw].
    unfold start. rewrite <- Hp. f_equal.
    now rewrite <- !app_assoc. }
  unfold main in H. rewrite Hall in H.
  assert (Hplain : bind (run_codex E (a_prompt args) None None)
                     (fun r => bind (lift (unpack r))
                                 (fun x => let (exit_code, _) := x in
                                           ret exit_code)) h = (r, ev)).
  { destruct Htasks as [Ht | Ht]; rewrite Ht in H; exact H. }
  clear H.
  run_inv;
    try match goal with
      | H : unpack ?a = Ok ?p |- _ =>
          destruct p as [c m]; destruct a as [c' m' |];
          try discriminate H; injection H as -> ->; run_inv
      end;
    match goal with
    | H : run_codex _ _ _ _ _ = (_, ?ec) |- _ =>
        destruct (Hcodex _ _ H) as (session & Hev & Hs & Hcode); subst ec
    end;
    exists session; rewrite ?app_nil_r;
    (split; [reflexivity |]); (split; [exact Hs |]);
    intros code Hr; try discriminate Hr.
  injection Hr as ->. eapply Hcode. reflexivity.
Qed.

End ExitCodes.

Lemma exit_code_of_last_process_witness :
  exists ev,
    run_scheduler agent_fails ["T-001"] TASKS_STATE_PATH 3 [] = (Ok 3, ev)
    /\ last_spawn_exit agent_fails [] ev 3.
Proof.
  pose (run := run_scheduler agent_fails ["T-001"] TASKS_STATE_PATH 3 []).
  assert (Hrun : run_scheduler agent_fails ["T-001"] TASKS_STATE_PATH 3 []
                 = (Ok 3, snd run)).
  { vm_compute. reflexivity. }
  exists (snd run). split; [exact Hrun |].
  apply (@exit_code_of_last_process _ _ _ _ _ _ _ Hrun); lia.
Defined.

Lemma prompt_mode_exit_code_witness :
  exists session,
    main agent_fails
      {| a_prompt := "say hello"; a_tasks := None; a_all := false;
         a_tasks_state := TASKS_STATE_PATH; a_max_rounds := 3 |} []
    = (Ok 3,
       [EvRunCodex "say hello" None None;
        EvWrite Stdout ("Running: codex exec --json -s danger-full-access "
                          ^^ "say hello" ^^ PyStr.nl);
        EvPopen ["codex"; "exec"; "--json"; "-s"; "danger-full-access";
                 "say hello"]] ++ session)
    /\ forallb is_stream session = true.
Proof.
  pose (args := {| a_prompt := "say hello"; a_tasks := None;
                   a_all := false; a_tasks_state := TASKS_STATE_PATH;
                   a_max_rounds := 3 |}).
  pose (run := main agent_fails args []).
  assert (Hrun : main agent_fails args [] = (Ok 3, snd run)).
  { vm_compute. reflexivity. }
  destruct (@prompt_mode_exit_code agent_fails args [] _ _
              eq_refl (or_introl eq_refl) Hrun)
    as (session & Hev & Hs & _).
  exists session. split; [| exact Hs].
  fold args. rewrite Hrun, Hev. reflexivity.
Defined.
(** * More about the renderer and the stream sessions *)

Section RendererDisplay.

Variable E : Env.

(** The display text is empty exactly for a blank line. *)
Lemma display_empty_iff_blank line formatted tag agent_text :
  render_line E line = Ok (formatted, tag, agent_text) ->
  PyStr.nonempty formatted = nonblank line.
Proof.
  unfold render_line, nonblank.
  destruct (PyStr.nonempty (PyStr.strip line)) eqn:Hne; cbn [negb].
  2: { intros [= <- <- <-]. reflexivity. }
  destruct (json_loads E (PyStr.strip line)) as [payload | | e].
  2: { intros [= <- <- <-]. exact Hne. }
  2: { discriminate. }
  unfold format_event. intros H.
  crunch H.
  all: injection H as <- <- <-.
  all: reflexivity.
Qed.

(** X9.  The renderer hides blank lines only: whenever it returns, its
    display text is empty exactly when the line is blank, and for a line
    that decodes as JSON the display text starts with a bracketed label. *)
Theorem hidden_only_if_blank line formatted tag agent_text :
  render_line E line = Ok (formatted, tag, agent_text) ->
  PyStr.nonempty formatted = nonblank line
  /\ (nonblank line = true ->
      json_loads E (PyStr.strip line) <> NotJson ->
      exists rest, formatted = "[" ^^ rest).
Proof.
  unfold render_line, nonblank.
  destruct (PyStr.nonempty (PyStr.strip line)) eqn:Hne; cbn [negb].
  2: { intros [= <- <- <-]. split; [reflexivity | discriminate]. }
  destruct (json_loads E (PyStr.strip line)) as [payload | | e].
  2: { intros [= <- <- <-]. split; [exact Hne | congruence]. }
  2: { discriminate. }
  unfold format_event. intros H.
  crunch H.
  all: injection H as <- <- <-.
  all: split; [reflexivity | intros _ _; eexists; reflexivity].
Qed.

(** A summary that the renderer extracts is a trimmed text. *)
Lemma render_line_summary line formatted tag text :
  render_line E line = Ok (formatted, tag, Some text) ->
  exists raw, text = PyStr.strip raw.
Proof.
  unfold render_line.
  destruct (PyStr.nonempty (PyStr.strip line)); cbn [negb];
    [| discriminate].
  destruct (json_loads E (PyStr.strip line)) as [payload | | e];
    [| discriminate | discriminate].
  unfold format_event. intros H.
  crunch H.
  all: injection H as <- <- <-.
  all: first [ now eexists | now exists "" ].
Qed.

End RendererDisplay.

Lemma reads_in_all_reads k ev line :
  In line (reads_of k ev) -> In line (all_reads ev).
Proof.
  unfold reads_of, all_reads. rewrite !in_flat_map.
  intros (e & He & Hl). exists e. split; [exact He |].
  destruct e; try contradiction.
  destruct (handle_eqb _ _); [exact Hl | contradiction].
Qed.

Lemma hidden_only_if_blank_witness :
  exists rest,
    render_line second_task_stalls (agent_line "ok")
      = Ok ("[" ^^ rest, "agent", Some "ok").
Proof.
  pose (r := render_line second_task_stalls (agent_line "ok")).
  assert (Hr : render_line second_task_stalls (agent_line "ok")
               = Ok ("[agent] ok", "agent", Some "ok")).
  { vm_compute. reflexivity. }
  destruct (hidden_only_if_blank _ _ Hr) as [_ Hshape].
  destruct Hshape as (rest & Hrest); [reflexivity | vm_compute; discriminate |].
  exists rest. rewrite Hr, Hrest. reflexivity.
Defined.
Section SessionDisplay.

Variables (E : Env) (prefix : option string).

(** The lines read in a stretch of a session that goes on were all
    rendered. *)
Lemma for_keys_rendered keys : forall s h s' ev,
  for_keys E prefix keys s h = (Ok s', ev) ->
  forall line, In line (all_reads ev) -> shown E line = nonblank line.
Proof.
  induction keys as [| key rest IH]; intros s h s' ev H.
  - cbn in H. run_inv. intros line [].
  - cbn [for_keys] in H.
    destruct (PyStr.readline (buffer s key)) as [line remaining] eqn:Hread.
    run_inv. decode_cases.
    destruct (PyStr.nonempty line) eqn:Hline; cbn [negb] in *; run_inv.
    + destruct a as [[formatted tag] agent_text].
      assert (Hl : shown E line = nonblank line).
      { unfold shown.
        match goal with H : render_line E line = _ |- _ => rewrite H end.
        eapply display_empty_iff_blank; eassumption. }
      destruct (PyStr.nonempty formatted) eqn:Hf; cbn [negb] in *; run_inv;
        cbn; intros l [<- | Hin]; auto;
        rewrite ?all_reads_app in Hin; cbn in Hin; eauto.
    + destruct line; [| discriminate].
      cbn. intros l [<- | Hin]; [reflexivity | eauto].
Qed.

Lemma select_loop_rendered ready : forall s h s' ev,
  select_loop E prefix ready s h = (Ok s', ev) ->
  forall line, In line (all_reads ev) -> shown E line = nonblank line.
Proof.
  induction ready as [| keys later IH]; intros s h s' ev H;
    cbn [select_loop] in H;
    destruct (reg_out s || reg_err s); cbn [negb] in H; run_inv;
    try (intros line []).
  intros line Hin. rewrite all_reads_app in Hin.
  apply in_app_or in Hin. destruct Hin; eauto using for_keys_rendered.
Qed.

(** X10.  A session that ends normally drops no line: the texts written
    to a sink are, in order, the renderings of the lines that arrived on
    the pipe of the same name and are not blank. *)
Theorem no_line_dropped command h code message ev k :
  stream_process E command prefix h = (Ok (Pair code message), ev) ->
  Forall2 (rendering_of E prefix)
    (filter nonblank (reads_of k ev)) (writes_to k ev).
Proof.
  intros H.
  destruct (popen E (h ++ [EvPopen command]) command)
    as [msg | e | proc] eqn:Hspawn.
  - unfold stream_process in H. run_inv.
    rewrite app_nil_r in *. rewrite Hspawn in *. run_inv.
  - unfold stream_process in H. run_inv.
    rewrite app_nil_r in *. rewrite Hspawn in *. run_inv.
  - destruct (@stream_process_spawned _ _ _ _ _ _ _ Hspawn H)
      as (s0 & h' & rs & ev' & Hs0 & Hloop & -> & Hr).
    destruct rs as [s' | |]; try discriminate.
    destruct (p_wait proc); try discriminate.
    pose proof Hloop as Hspec. apply select_loop_spec in Hspec.
    destruct Hspec as [(Horder & _) _].
    specialize (Horder k).
    change (reads_of k (EvPopen command :: ev')) with (reads_of k ev').
    change (writes_to k (EvPopen command :: ev')) with (writes_to k ev').
    erewrite filter_ext_in; [exact Horder |].
    intros line Hin. symmetry.
    eapply select_loop_rendered; [exact Hloop |].
    now apply reads_in_all_reads with (k := k).
Qed.

End SessionDisplay.
Lemma no_line_dropped_witness :
  exists ev,
    stream_process blank_between (build_command "go") None []
    = (Ok (Pair 0 (Some "last")), ev)
    /\ length (reads_of Stdout ev) = 5%nat
    /\ length (writes_to Stdout ev) = 3%nat
    /\ Forall2 (rendering_of blank_between None)
         (filter nonblank (reads_of Stdout ev)) (writes_to Stdout ev).
Proof.
  pose (run := stream_process blank_between (build_command "go") None []).
  assert (Hrun : stream_process blank_between (build_command "go") None []
                 = (Ok (Pair 0 (Some "last")), snd run)).
  { vm_compute. reflexivity. }
  exists (snd run).
  split; [exact Hrun |].
  split; [vm_compute; reflexivity |].
  split; [vm_compute; reflexivity |].
  exact (@no_line_dropped _ _ _ _ _ _ _ Stdout Hrun).
Defined.

(** * Trimmed text *)

Module StripFacts.

Import PyStr.

Lemma lstrip_idempotent s : lstrip (lstrip s) = lstrip s.
Proof.
  induction s as [| c s IH]; [reflexivity |].
  cbn [lstrip]. destruct (is_space c) eqn:Hc; [exact IH |].
  cbn [lstrip]. now rewrite Hc.
Qed.

(** What is left of a text trimmed on the left starts with a character
    that is not white space. *)
Lemma lstrip_head s :
  lstrip s = "" \/ exists c t, lstrip s = String c t /\ is_space c = false.
Proof.
  induction s as [| c s IH]; [now left |].
  cbn [lstrip]. destruct (is_space c) eqn:Hc; [exact IH |].
  right. eauto.
Qed.

Lemma lstrip_app a c b :
  is_space c = false -> lstrip (a ^^ String c b) = lstrip a ^^ String c b.
Proof.
  intros Hc. induction a as [| x a IH]; cbn [String.append lstrip].
  - now rewrite Hc.
  - destruct (is_space x); [exact IH | reflexivity].
Qed.

Lemma list_of_append a b :
  list_ascii_of_string (a ^^ b)
  = list_ascii_of_string a ++ list_ascii_of_string b.
Proof.
  induction a as [| c a IH]; cbn; [reflexivity | now rewrite IH].
Qed.

Lemma string_of_app (l1 l2 : list ascii) :
  string_of_list_ascii (l1 ++ l2)
  = string_of_list_ascii l1 ^^ string_of_list_ascii l2.
Proof.
  induction l1 as [| c l1 IH]; cbn; [reflexivity | now rewrite IH].
Qed.

Lemma reverse_app a b : reverse (a ^^ b) = reverse b ^^ reverse a.
Proof.
  unfold reverse. rewrite list_of_append, rev_app_distr.
  apply string_of_app.
Qed.

Lemma reverse_involutive s : reverse (reverse s) = s.
Proof.
  unfold reverse.
  rewrite list_ascii_of_string_of_list_ascii, rev_involutive.
  apply string_of_list_ascii_of_string.
Qed.

Lemma reverse_cons c s : reverse (String c s) = reverse s ^^ String c "".
Proof. apply (reverse_app (String c "") s). Qed.

Lemma rstrip_idempotent s : rstrip (rstrip s) = rstrip s.
Proof.
  unfold rstrip. now rewrite reverse_involutive, lstrip_idempotent.
Qed.

Lemma rstrip_cons c s :
  is_space c = false -> rstrip (String c s) = String c (rstrip s).
Proof.
  intros Hc. unfold rstrip.
  rewrite reverse_cons, (@lstrip_app _ _ _ Hc), reverse_app. reflexivity.
Qed.

(** Trimming a trimmed text changes nothing. *)
Lemma strip_idempotent s : strip (strip s) = strip s.
Proof.
  unfold strip.
  assert (Hl : lstrip (rstrip (lstrip s)) = rstrip (lstrip s)).
  { destruct (lstrip_head s) as [-> | (c & t & -> & Hc)]; [reflexivity |].
    rewrite (@rstrip_cons _ _ Hc). cbn [lstrip]. now rewrite Hc. }
  rewrite Hl. apply rstrip_idempotent.
Qed.

End StripFacts.
Lemma last_some_in {A} (l : list A) (m : A) :
  last (map Some l) None = Some m -> In m l.
Proof.
  induction l as [| x l IH]; [discriminate |].
  destruct l as [| y l'].
  - cbn. intros [= ->]. now left.
  - intros H. right. apply IH. exact H.
Qed.

Section Summary.

Variables (E : Env) (prefix : option string).

(** X11.  A session never returns a blank summary: the last agent message
    that it hands back, if any, is not empty and has no white space at
    either end. *)
Theorem summary_is_trimmed command h code message ev :
  stream_process E command prefix h = (Ok (Pair code (Some message)), ev) ->
  PyStr.nonempty message = true /\ PyStr.strip message = message.
Proof.
  intros H.
  destruct (popen E (h ++ [EvPopen command]) command)
    as [msg | e | proc] eqn:Hspawn.
  - unfold stream_process in H. run_inv.
    rewrite app_nil_r in *. rewrite Hspawn in *. run_inv.
  - unfold stream_process in H. run_inv.
    rewrite app_nil_r in *. rewrite Hspawn in *. run_inv.
  - destruct (@stream_process_spawned _ _ _ _ _ _ _ Hspawn H)
      as (s0 & h' & rs & ev' & Hs0 & Hloop & -> & Hr).
    destruct rs as [s' | |]; try discriminate.
    destruct (p_wait proc); try discriminate. injection Hr as _ Hm.
    apply select_loop_spec in Hloop.
    destruct Hloop as [(_ & _ & _ & Hlast) _].
    specialize (Hlast s' eq_refl). rewrite <- Hm, Hs0 in Hlast.
    cbn [last_agent_message] in Hlast. unfold latest in Hlast.
    symmetry in Hlast. apply last_some_in, filter_In in Hlast.
    destruct Hlast as [Hin Hne]. split; [exact Hne |].
    apply in_flat_map in Hin. destruct Hin as (line & _ & Hline).
    unfold extracted in Hline.
    destruct (render_line E line) as [[[f t] [text |]] | |] eqn:Hrender;
      try contradiction.
    destruct Hline as [-> | []].
    destruct (render_line_summary _ _ Hrender) as (raw & ->).
    apply StripFacts.strip_idempotent.
Qed.

End Summary.

Lemma summary_is_trimmed_witness :
  exists ev,
    stream_process blank_between (build_command "go") None []
    = (Ok (Pair 0 (Some "last")), ev)
    /\ PyStr.strip "last" = "last".
Proof.
  pose (run := stream_process blank_between (build_command "go") None []).
  assert (Hrun : stream_process blank_between (build_command "go") None []
                 = (Ok (Pair 0 (Some "last")), snd run)).
  { vm_compute. reflexivity. }
  exists (snd run). split; [exact Hrun |].
  exact (proj2 (@summary_is_trimmed _ _ _ _ _ _ _ Hrun)).
Defined.
(** * What is handed over between sessions *)

Lemma each_event_nil ok h : each_event ok h [].
Proof. intros before e after H. destruct before; discriminate H. Qed.

Lemma each_event_app ok h a b :
  each_event ok h a -> each_event ok (h ++ a) b -> each_event ok h (a ++ b).
Proof.
  intros Ha Hb before e after Heq.
  apply app_eq_app in Heq.
  destruct Heq as (l & [[-> Hl] | [-> Hl]]).
  - destruct l as [| x l].
    + cbn in Hl. rewrite app_nil_r in *.
      specialize (Hb [] e after (eq_sym Hl)).
      now rewrite app_nil_r in Hb.
    + injection Hl as <- ->. eapply Ha. reflexivity.
  - rewrite app_assoc. eapply Hb. exact Hl.
Qed.

Lemma each_event_cons ok h e ev :
  ok h e -> each_event ok (h ++ [e]) ev -> each_event ok h (e :: ev).
Proof.
  intros He Hev. apply (@each_event_app ok h [e] ev); [| exact Hev].
  intros [| x before] e' after Heq.
  - injection Heq as <- _. now rewrite app_nil_r.
  - injection Heq as _ Heq. now destruct before.
Qed.

Lemma since_last_call_quiet ev :
  existsb is_call ev = false -> since_last_call ev = ev.
Proof.
  induction ev as [| e ev IH]; [reflexivity |].
  cbn [existsb since_last_call]. intros H.
  apply orb_false_elim in H. destruct H as [He Hev].
  now rewrite Hev, He.
Qed.

Lemma since_last_call_app a q :
  existsb is_call q = false ->
  since_last_call (a ++ q) = since_last_call a ++ q.
Proof.
  intros Hq. induction a as [| e a IH].
  - now apply since_last_call_quiet.
  - cbn [app since_last_call]. rewrite existsb_app, Hq, orb_false_r.
    destruct (existsb is_call a); [exact IH |].
    now destruct (is_call e).
Qed.

Lemma since_last_call_call a c b :
  is_call c = true -> existsb is_call b = false ->
  since_last_call (a ++ c :: b) = b.
Proof.
  intros Hc Hb. induction a as [| e a IH].
  - cbn [app since_last_call]. now rewrite Hb, Hc.
  - cbn [app since_last_call]. rewrite existsb_app. cbn [existsb].
    rewrite Hc, orb_true_r. exact IH.
Qed.

Lemma aside_no_call q :
  forallb is_aside q = true -> existsb is_call q = false.
Proof.
  induction q as [| e q IH]; [reflexivity |].
  cbn [forallb existsb]. intros H. apply andb_prop in H.
  destruct H as [He Hq]. rewrite (IH Hq). now destruct e.
Qed.

Lemma aside_no_reads q : forallb is_aside q = true -> all_reads q = [].
Proof.
  induction q as [| e q IH]; [reflexivity |].
  cbn [forallb]. intros H. apply andb_prop in H. destruct H as [He Hq].
  change (e :: q) with ([e] ++ q). rewrite all_reads_app, (IH Hq).
  now destruct e.
Qed.

Section Summaries.

Variable E : Env.

(** Events that are neither calls nor reads do not change the summary. *)
Lemma session_summary_aside h q :
  forallb is_aside q = true ->
  session_summary E (h ++ q) = session_summary E h.
Proof.
  intros Hq. unfold session_summary.
  rewrite since_last_call_app by (now apply aside_no_call).
  rewrite all_reads_app, (@aside_no_reads q Hq).
  now rewrite app_nil_r.
Qed.

Lemma session_summary_call h c rest :
  is_call c = true -> existsb is_call rest = false ->
  session_summary E (h ++ c :: rest)
  = last_nonempty_extracted E (all_reads rest).
Proof.
  intros Hc Hrest. unfold session_summary.
  now rewrite since_last_call_call.
Qed.

Lemma each_event_plain ok h ev :
  (forall hist e, is_plain e = true -> ok hist e) ->
  forallb is_plain ev = true -> each_event ok h ev.
Proof.
  intros Hok Hev before e after ->. apply Hok.
  rewrite forallb_app in Hev. apply andb_prop in Hev.
  destruct Hev as [_ Hev]. cbn [forallb] in Hev.
  now apply andb_prop in Hev.
Qed.

Lemma handover_plain hist e : is_plain e = true -> handover E hist e.
Proof. now destruct e. Qed.

Lemma io_plain ev : forallb is_io ev = true -> forallb is_plain ev = true.
Proof.
  rewrite !forallb_forall. intros H x Hx. specialize (H x Hx).
  now destruct x.
Qed.

Lemma io_no_call ev : forallb is_io ev = true -> existsb is_call ev = false.
Proof.
  induction ev as [| e ev IH]; [reflexivity |].
  cbn [forallb existsb]. intros H. apply andb_prop in H.
  destruct H as [He Hev]. rewrite (IH Hev). now destruct e.
Qed.

(** The message that a session returns, as the round runner sees it. *)
Lemma stream_process_message command prefix h code message ev :
  stream_process E command prefix h = (Ok (Pair code message), ev) ->
  message = last_nonempty_extracted E (all_reads ev).
Proof.
  intros H.
  destruct (popen E (h ++ [EvPopen command]) command)
    as [msg | e | proc] eqn:Hspawn.
  - unfold stream_process in H. run_inv.
    rewrite app_nil_r in *. rewrite Hspawn in *. run_inv.
  - unfold stream_process in H. run_inv.
    rewrite app_nil_r in *. rewrite Hspawn in *. run_inv.
  - destruct (@stream_process_spawned _ _ _ _ _ _ _ Hspawn H)
      as (s0 & h' & rs & ev' & Hs0 & Hloop & -> & Hr).
    destruct rs as [s' | |]; try discriminate.
    destruct (p_wait proc); try discriminate. injection Hr as _ ->.
    apply select_loop_spec in Hloop.
    destruct Hloop as [(_ & _ & _ & Hlast) _].
    rewrite (Hlast s' eq_refl), Hs0. reflexivity.
Qed.

(** The events of one call of the round runner: the call, and a session
    whose summary is the message handed back. *)
Lemma run_codex_events prompt task_id role h r ev :
  run_codex E prompt task_id role h = (r, ev) ->
  exists rest,
    ev = EvRunCodex prompt task_id role :: rest
    /\ forallb is_io rest = true
    /\ forall res code message,
         r = Ok res -> unpack res = Ok (code, message) ->
         message = last_nonempty_extracted E (all_reads rest).
Proof.
  unfold run_codex. intros H. run_inv;
    (eexists; split; [reflexivity |]); cbn [app forallb is_io andb];
    rewrite ?app_nil_r.
  all: match goal with
       | H : stream_process _ _ _ _ = _ |- _ =>
           pose proof H as Hio; apply stream_process_io in Hio
       end.
  all: split; [exact Hio |]; intros res code message Hres Hun;
    try discriminate Hres.
  subst r. destruct res as [c m |]; [| discriminate].
  injection Hun as -> ->.
  match goal with
  | H : stream_process _ _ _ _ = _ |- _ =>
      apply stream_process_message in H; rewrite H
  end.
  reflexivity.
Qed.

Lemma send_imessage_events role task_id status response h r ev :
  send_imessage E role task_id status response h = (r, ev) ->
  exists rest,
    ev = EvNotify role task_id status response :: rest
    /\ forallb is_plain rest = true
    /\ forallb is_aside rest = true.
Proof.
  unfold send_imessage. intros H. run_inv.
  destruct (run_notifier E _); run_inv; eexists; repeat split.
Qed.

End Summaries.
Ltac summary_norm :=
  repeat (rewrite session_summary_aside
           by (cbn [forallb is_aside andb]; first [reflexivity | assumption]));
  rewrite ?session_summary_call
    by (first [reflexivity | now apply io_no_call]).

Ltac events_inv :=
  repeat match goal with
    | H : run_codex _ _ _ _ _ = (_, ?ev) |- _ =>
        let rest := fresh "session" in
        let Hio := fresh "Hio" in
        let Hm := fresh "Hm" in
        apply run_codex_events in H;
        destruct H as (rest & ? & Hio & Hm); subst ev
    | H : task_status _ _ _ _ = (_, ?ev) |- _ =>
        apply task_status_inv in H; destruct H as [? _]; subst ev
    | H : send_imessage _ _ _ _ _ _ = (_, ?ev) |- _ =>
        let rest := fresh "notes" in
        apply send_imessage_events in H;
        destruct H as (rest & ? & ? & ?); subst ev
    end.

Ltac handed Hfb :=
  unfold handover;
  change ("executor" =? "reviewer")%string with false;
  change ("reviewer" =? "reviewer")%string with true;
  cbv iota;
  first
    [ destruct Hfb as [-> | ->]; [now left | right; reflexivity]
    | match goal with
      | Hm : forall res code message, Ok ?a = Ok res -> _,
        Hu : unpack ?a = Ok (_, ?m) |- _ = _ =>
          rewrite (Hm _ _ _ eq_refl Hu); summary_norm; reflexivity
      end ].

Ltac handover_chain Hfb :=
  repeat first
    [ apply each_event_nil
    | apply each_event_app
    | apply each_event_plain;
      [ apply handover_plain
      | first [assumption | now apply io_plain | reflexivity] ]
    | apply each_event_cons; [handed Hfb |] ].

Ltac leaf Hfb :=
  solve [ events_inv; split;
          [ handover_chain Hfb | intros ? ? Hr; discriminate Hr ] ].

Section Handover.

Variables (E : Env) (path : string) (max_rounds : Z).

Lemma round_body_handover task_id rounds feedback h r ev :
  feedback = None
  \/ feedback = Some (Py.text_or (session_summary E h)
                        "No reviewer summary captured.") ->
  round_body E task_id path max_rounds rounds feedback h = (r, ev) ->
  each_event (handover E) h ev
  /\ forall n feedback',
       r = Ok (Continue n (Some feedback')) ->
       feedback' = Py.text_or (session_summary E (h ++ ev))
                     "No reviewer summary captured.".
Proof.
  unfold round_body. intros Hfb H.
  run_inv; try (leaf Hfb).
  split_pair; split_code; run_inv; try (leaf Hfb).
  split_status "ready_for_review"; cbn [negb] in *; run_inv;
    try (leaf Hfb).
  split_pair; split_code; run_inv; try (leaf Hfb).
  split_status "done"; run_inv; try (leaf Hfb).
  split_status "request_changes"; run_inv; try (leaf Hfb).
  match goal with
  | H : context [?a >=? ?b] |- _ => destruct (Z.geb_spec a b)
  end; run_inv; try (leaf Hfb).
  events_inv. split; [handover_chain Hfb |].
  intros n fb' [= _ <-]. f_equal.
  match goal with
  | Hm : forall res code message, Ok ?a = Ok res -> _,
    Hu : unpack ?a = Ok (_, ?m) |- ?m = _ =>
      rewrite (Hm _ _ _ eq_refl Hu)
  end.
  rewrite !app_assoc. summary_norm. reflexivity.
Qed.

End Handover.
Section HandoverRun.

Variables (E : Env) (path : string) (max_rounds : Z).

Lemma task_rounds_handover task_id h r ev :
  task_rounds E task_id path max_rounds h = (r, ev) ->
  each_event (handover E) h ev.
Proof.
  unfold task_rounds. intros H. run_inv.
  apply each_event_app;
    [apply each_event_plain; [apply handover_plain | reflexivity] |].
  match goal with
  | H : while_rounds _ _ _ _ _ _ _ _ = _ |- _ =>
      apply (@while_rounds_events_ind E path max_rounds task_id
               (fun _ feedback h ev _ =>
                  feedback = None
                  \/ feedback = Some (Py.text_or (session_summary E h)
                                        "No reviewer summary captured.") ->
                  each_event (handover E) h ev)) in H; auto; try lia
  end.
  - intros. apply each_event_nil.
  - intros rounds feedback h' r' ev' _ Hbody _ Hfb.
    eapply round_body_handover; eassumption.
  - intros rounds feedback h' fb' ea eb r' _ Hbody IH Hfb.
    destruct (@round_body_handover E path max_rounds _ _ _ _ _ _ Hfb Hbody)
      as [Hev Hnext].
    apply each_event_app; [exact Hev |].
    apply IH. right. f_equal. eapply Hnext. reflexivity.
Qed.

Lemma run_scheduler_handover : forall task_ids h r ev,
  run_scheduler E task_ids path max_rounds h = (r, ev) ->
  each_event (handover E) h ev.
Proof.
  induction task_ids as [| task_id later IH]; intros h r ev H.
  - cbv [run_scheduler ret] in H. injection H as <- <-.
    apply each_event_nil.
  - rewrite run_scheduler_cons in H.
    destruct (task_rounds E task_id path max_rounds h)
      as [r1 e1] eqn:Ht.
    apply task_rounds_handover in Ht.
    destruct r1 as [[| c] | e |]; try (injection H as <- <-; exact Ht).
    destruct (run_scheduler E later path max_rounds (h ++ e1))
      as [r2 e2] eqn:Hrest.
    injection H as <- <-.
    apply each_event_app; [exact Ht | exact (IH _ _ _ Hrest)].
Qed.

(** X12.  The reviewer of a round is prompted with the summary of the
    executor session that has just finished: the last non-empty agent
    message read since the executor was called, or the placeholder text
    when there was none. *)
Theorem reviewer_gets_executor_summary
  task_ids h r ev before prompt task_id after :
  run_scheduler E task_ids path max_rounds h = (r, ev) ->
  ev = before ++ EvRunCodex prompt (Some task_id) (Some "reviewer") :: after ->
  prompt = build_reviewer_prompt E task_id (session_summary E (h ++ before)).
Proof.
  intros Hrun Hev.
  exact (@run_scheduler_handover _ _ _ _ Hrun _ _ _ Hev).
Qed.

(** X13.  Every notification carries, as the agent's response, the
    summary of the session that has just finished: the last non-empty
    agent message read since the round runner was last called. *)
Theorem notification_carries_summary
  task_ids h r ev before role task_id status response after :
  run_scheduler E task_ids path max_rounds h = (r, ev) ->
  ev = before ++ EvNotify role task_id status response :: after ->
  response = session_summary E (h ++ before).
Proof.
  intros Hrun Hev.
  exact (@run_scheduler_handover _ _ _ _ Hrun _ _ _ Hev).
Qed.

(** X14.  The feedback in an executor prompt is never stale: an executor
    is prompted either without feedback or with the summary of the
    reviewer session that has just finished (the placeholder text when
    that session left no agent message). *)
Theorem feedback_is_reviewer_summary
  task_ids h r ev before prompt task_id after :
  run_scheduler E task_ids path max_rounds h = (r, ev) ->
  ev = before ++ EvRunCodex prompt (Some task_id) (Some "executor") :: after ->
  prompt = build_executor_prompt E task_id None
  \/ prompt = build_executor_prompt E task_id
                (Some (Py.text_or (session_summary E (h ++ before))
                         "No reviewer summary captured.")).
Proof.
  intros Hrun Hev.
  exact (@run_scheduler_handover _ _ _ _ Hrun _ _ _ Hev).
Qed.

End HandoverRun.
Lemma reviewer_gets_executor_summary_witness :
  exists ev before prompt after,
    run_scheduler two_voices ["T-001"] TASKS_STATE_PATH 2 [] = (Ok 1, ev)
    /\ ev = before
              ++ EvRunCodex prompt (Some "T-001") (Some "reviewer") :: after
    /\ session_summary two_voices ([] ++ before) = Some "built"
    /\ prompt = build_reviewer_prompt two_voices "T-001"
                  (session_summary two_voices ([] ++ before)).
Proof.
  pose (run := run_scheduler two_voices ["T-001"] TASKS_STATE_PATH 2 []).
  assert (Hrun : run_scheduler two_voices ["T-001"] TASKS_STATE_PATH 2 []
                 = (Ok 1, snd run)).
  { vm_compute. reflexivity. }
  pose (before := firstn 11 (snd run)).
  pose (after := skipn 12 (snd run)).
  pose (prompt := build_reviewer_prompt two_voices "T-001" (Some "built")).
  assert (Hev : snd run
                = before
                    ++ EvRunCodex prompt (Some "T-001") (Some "reviewer")
                    :: after).
  { vm_compute. reflexivity. }
  exists (snd run), before, prompt, after.
  split; [exact Hrun |]. split; [exact Hev |].
  split; [vm_compute; reflexivity |].
  exact (@reviewer_gets_executor_summary _ _ _ _ _ _ _ _ _ _ _ Hrun Hev).
Defined.

Lemma notification_carries_summary_witness :
  exists ev before response after,
    run_scheduler two_voices ["T-001"] TASKS_STATE_PATH 2 [] = (Ok 1, ev)
    /\ ev = before
              ++ EvNotify "reviewer" "T-001" CHANGES response :: after
    /\ session_summary two_voices ([] ++ before) = Some "please fix"
    /\ response = session_summary two_voices ([] ++ before).
Proof.
  pose (run := run_scheduler two_voices ["T-001"] TASKS_STATE_PATH 2 []).
  assert (Hrun : run_scheduler two_voices ["T-001"] TASKS_STATE_PATH 2 []
                 = (Ok 1, snd run)).
  { vm_compute. reflexivity. }
  pose (before := firstn 19 (snd run)).
  pose (after := skipn 20 (snd run)).
  assert (Hev : snd run
                = before
                    ++ EvNotify "reviewer" "T-001" CHANGES (Some "please fix")
                    :: after).
  { vm_compute. reflexivity. }
  exists (snd run), before, (Some "please fix"), after.
  split; [exact Hrun |]. split; [exact Hev |].
  split; [vm_compute; reflexivity |].
  exact (@notification_carries_summary _ _ _ _ _ _ _ _ _ _ _ _ _ Hrun Hev).
Defined.

Lemma feedback_is_reviewer_summary_witness :
  exists ev before prompt after,
    run_scheduler two_voices ["T-001"] TASKS_STATE_PATH 2 [] = (Ok 1, ev)
    /\ ev = before
              ++ EvRunCodex prompt (Some "T-001") (Some "executor") :: after
    /\ session_summary two_voices ([] ++ before) = Some "please fix"
    /\ (prompt = build_executor_prompt two_voices "T-001" None
        \/ prompt = build_executor_prompt two_voices "T-001"
                      (Some (Py.text_or
                               (session_summary two_voices ([] ++ before))
                               "No reviewer summary captured."))).
Proof.
  pose (run := run_scheduler two_voices ["T-001"] TASKS_STATE_PATH 2 []).
  assert (Hrun : run_scheduler two_voices ["T-001"] TASKS_STATE_PATH 2 []
                 = (Ok 1, snd run)).
  { vm_compute. reflexivity. }
  pose (before := firstn 22 (snd run)).
  pose (after := skipn 23 (snd run)).
  pose (prompt := build_executor_prompt two_voices "T-001"
                    (Some "please fix")).
  assert (Hev : snd run
                = before
                    ++ EvRunCodex prompt (Some "T-001") (Some "executor")
                    :: after).
  { vm_compute. reflexivity. }
  exists (snd run), before, prompt, after.
  split; [exact Hrun |]. split; [exact Hev |].
  split; [vm_compute; reflexivity |].
  exact (@feedback_is_reviewer_summary _ _ _ _ _ _ _ _ _ _ _ Hrun Hev).
Defined.
(** * Lines are written as they arrive *)

Section Echo.

Variables (E : Env) (prefix : option string).

Lemma for_keys_echo keys : forall s h r ev,
  for_keys E prefix keys s h = (r, ev) ->
  each_event (echoes E prefix) h ev.
Proof.
  induction keys as [| key rest IH]; intros s h r ev H.
  - cbn in H. run_inv. apply each_event_nil.
  - cbn [for_keys] in H.
    destruct (PyStr.readline (buffer s key)) as [line remaining].
    run_inv. decode_cases; [apply each_event_nil |].
    destruct (PyStr.nonempty line); cbn [negb] in *; run_inv;
      try (destruct a as [[formatted tag] agent_text];
           destruct (PyStr.nonempty formatted); cbn [negb] in *; run_inv);
      rewrite ?app_nil_r in *; cbn [app];
      repeat first
        [ apply each_event_nil
        | eapply IH; eassumption
        | apply each_event_cons;
          [ first
              [ exact I
              | exists h, line; split; [reflexivity |];
                exists formatted, tag, agent_text; eexists;
                split; [eassumption | reflexivity] ]
          | ] ].
Qed.

Lemma select_loop_echo ready : forall s h r ev,
  select_loop E prefix ready s h = (r, ev) ->
  each_event (echoes E prefix) h ev.
Proof.
  induction ready as [| keys later IH]; intros s h r ev H;
    cbn [select_loop] in H;
    destruct (reg_out s || reg_err s); cbn [negb] in H; run_inv;
    try apply each_event_nil; eauto using for_keys_echo.
  apply each_event_app; eauto using for_keys_echo.
Qed.

(** X19.  A session writes each line as it arrives: every text that a
    session with a started process writes is the rendering of the line
    read immediately before it, from the pipe of the same name, so the
    output follows the order of arrival across both pipes. *)
Theorem written_as_read command h proc r ev :
  popen E (h ++ [EvPopen command]) command = Spawned proc ->
  stream_process E command prefix h = (r, ev) ->
  each_event (echoes E prefix) h ev.
Proof.
  intros Hspawn H.
  unfold stream_process in H. run_inv.
  rewrite app_nil_r in *. rewrite Hspawn in *. run_inv;
    try (destruct (p_wait proc); run_inv);
    rewrite ?app_nil_r in *; cbn [app];
    (apply each_event_cons; [exact I |]);
    rewrite ?app_nil_r; eapply select_loop_echo; eassumption.
Qed.

End Echo.

Lemma written_as_read_witness :
  exists ev before text after,
    stream_process blank_between (build_command "go") None []
    = (Ok (Pair 0 (Some "last")), ev)
    /\ ev = before ++ EvWrite Stdout text :: after
    /\ echoes blank_between None ([] ++ before) (EvWrite Stdout text).
Proof.
  pose (run := stream_process blank_between (build_command "go") None []).
  assert (Hrun : stream_process blank_between (build_command "go") None []
                 = (Ok (Pair 0 (Some "last")), snd run)).
  { vm_compute. reflexivity. }
  assert (Hspawn : popen blank_between ([] ++ [EvPopen (build_command "go")])
                     (build_command "go")
                   = Spawned (talking (agent_line " first " ^^ PyStr.nl
                                         ^^ "plain text" ^^ PyStr.nl
                                         ^^ agent_line "last") 0)).
  { reflexivity. }
  pose (before := firstn 2 (snd run)).
  pose (after := skipn 3 (snd run)).
  pose (text := nth 0 (writes_to Stdout (snd run)) "").
  assert (Hev : snd run = before ++ EvWrite Stdout text :: after).
  { vm_compute. reflexivity. }
  exists (snd run), before, text, after.
  split; [exact Hrun |]. split; [exact Hev |].
  exact (@written_as_read _ _ _ _ _ _ _ Hspawn Hrun _ _ _ Hev).
Defined.
(** * The scheduler returns *)

Lemma bind_returns {A B} (m : M A) (k : A -> M B) h a e :
  m h = (Ok a, e) ->
  (exists b e', k a (h ++ e) = (Ok b, e')) ->
  exists b e', bind m k h = (Ok b, e').
Proof.
  intros Hm (b & e' & Hk). unfold bind. rewrite Hm, Hk. eauto.
Qed.

Lemma bind_ok {A B} (m : M A) (k : A -> M B) h a e r e' :
  m h = (Ok a, e) -> k a (h ++ e) = (r, e') -> bind m k h = (r, e ++ e').
Proof. intros Hm Hk. unfold bind. now rewrite Hm, Hk. Qed.

Section Returns.

Variables (E : Env) (path : string) (max_rounds : Z).

Hypothesis sessions_return : forall command prefix h,
  exists code message ev,
    stream_process E command prefix h = (Ok (Pair code message), ev).

Hypothesis statuses_return : forall task_id h,
  exists status ev, task_status E path task_id h = (Ok status, ev).

Hypothesis notices_return : forall role task_id status response h,
  exists ev, send_imessage E role task_id status response h = (Ok tt, ev).

Lemma run_codex_returns prompt task_id role h :
  exists code message ev,
    run_codex E prompt task_id role h = (Ok (Pair code message), ev).
Proof.
  cbv [run_codex bind emit print].
  match goal with
  | |- context [stream_process E ?c ?p ?hh] =>
      destruct (sessions_return c p hh) as (code & message & ev & Hs);
      rewrite Hs
  end.
  eauto.
Qed.

Ltac returns_with H := eapply bind_returns; [exact H | cbv beta].
Ltac returns_prim := eapply bind_returns; [reflexivity | cbv beta iota].
Ltac returns_ret := do 2 eexists; reflexivity.

Lemma round_body_returns task_id rounds feedback h :
  exists step ev,
    round_body E task_id path max_rounds rounds feedback h = (Ok step, ev).
Proof.
  unfold round_body.
  destruct (run_codex_returns (build_executor_prompt E task_id feedback)
              (Some task_id) (Some "executor") h) as (c1 & m1 & e1 & H1).
  returns_with H1. returns_prim.
  destruct (c1 =? 0); cbn [negb]; [| returns_prim; returns_ret].
  match goal with
  | |- exists _ _, bind _ _ ?hh = _ =>
      destruct (statuses_return task_id hh) as (s1 & l1 & Hs1)
  end.
  returns_with Hs1.
  match goal with
  | |- exists _ _, bind (send_imessage E ?r ?t ?s ?m) _ ?hh = _ =>
      destruct (notices_return r t s m hh) as (n1 & Hn1)
  end.
  returns_with Hn1.
  destruct (status_is s1 "ready_for_review"); cbn [negb];
    [| returns_prim; returns_ret].
  match goal with
  | |- exists _ _, bind (run_codex E ?p ?t ?r) _ ?hh = _ =>
      destruct (run_codex_returns p t r hh) as (c2 & m2 & e2 & H2)
  end.
  returns_with H2. returns_prim.
  destruct (c2 =? 0); cbn [negb]; [| returns_prim; returns_ret].
  match goal with
  | |- exists _ _, bind _ _ ?hh = _ =>
      destruct (statuses_return task_id hh) as (s2 & l2 & Hs2)
  end.
  returns_with Hs2.
  match goal with
  | |- exists _ _, bind (send_imessage E ?r ?t ?s ?m) _ ?hh = _ =>
      destruct (notices_return r t s m hh) as (n2 & Hn2)
  end.
  returns_with Hn2.
  destruct (status_is s2 "done"); [returns_prim; returns_ret |].
  destruct (status_is s2 "request_changes"); [| returns_prim; returns_ret].
  destruct (rounds + 1 >=? max_rounds); returns_prim; returns_ret.
Qed.

Lemma while_rounds_returns task_id : forall fuel rounds feedback h,
  max_rounds - rounds <= Z.of_nat fuel ->
  exists e ev,
    while_rounds E task_id path max_rounds fuel rounds feedback h
      = (Ok e, ev).
Proof.
  induction fuel as [| fuel IH]; intros rounds feedback h Hfuel;
    cbn [while_rounds];
    destruct (Z.ltb_spec rounds max_rounds); try lia;
    try (do 2 eexists; reflexivity).
  destruct (round_body_returns task_id rounds feedback h)
    as (step & ev & Hbody).
  eapply bind_returns; [exact Hbody |].
  destruct step as [code | | rounds' feedback'];
    try (do 2 eexists; reflexivity).
  apply IH.
  apply round_body_obs in Hbody.
  inversion Hbody; subst; try lia;
    match goal with
    | H : forall s, Ok ?x <> Ok s |- _ => now destruct (H x)
    end.
Qed.


End Returns.

Section SessionReturns.

Variables (E : Env) (prefix : option string).


End SessionReturns.

(** * Edge cases of the registry and of the renderer *)

Section RegistryEdges.

Variable E : Env.

(** X17.  With --all, what the registry file holds decides before any
    agent is started: an empty or otherwise false document (null, 0,
    false, an empty list or text) counts as an empty registry, so nothing
    is run and the exit code is 0; any other document that is not a
    mapping raises ValueError. *)
Theorem all_mode_registry_document args h :
  a_all args = true ->
  a_tasks args = None \/ a_tasks args = Some [] ->
  let doc := yaml_safe_load E (h ++ [EvLoad (a_tasks_state args)])
               (a_tasks_state args) in
  (Py.truthy doc = false ->
   main E args h
   = (Ok 0, [EvLoad (a_tasks_state args);
             EvWrite Stdout ("No tasks to run." ^^ PyStr.nl)]))
  /\ (Py.truthy doc = true ->
      (forall entries, doc <> PDict entries) ->
      main E args h = (Raise ValueError, [EvLoad (a_tasks_state args)])).
Proof.
  intros Hall Htasks doc.
  assert (Hmain : main E args h
                  = bind (bind (task_ids_from_state E (a_tasks_state args))
                            (not_done E (a_tasks_state args)))
                      (fun task_ids =>
                         match task_ids with
                         | [] => bind (print Stdout "No tasks to run.")
                                   (fun _ => ret 0)
                         | _ :: _ =>
                             run_scheduler E task_ids (a_tasks_state args)
                               (a_max_rounds args)
                         end) h).
  { unfold main. rewrite Hall.
    destruct Htasks as [-> | ->]; reflexivity. }
  rewrite Hmain. clear Hmain.
  cbv [task_ids_from_state load_tasks_state bind emit ask].
  fold doc. unfold Py.or_else.
  split.
  - intros ->. reflexivity.
  - intros -> Hdoc. destruct doc; try reflexivity.
    now destruct (Hdoc entries).
Qed.

End RegistryEdges.

Section RendererFails.

Variable E : Env.

(** X18.  The renderer fails in two ways only.  It never raises on a
    blank line or on a line that [json.loads] rejects as not JSON; what
    it raises is either what [json.loads] itself raised, or
    AttributeError on a line that was decoded; it passes on whatever
    [json.loads] raises, and it raises AttributeError for every decoded
    value that is not an object. *)
Theorem renderer_failure line :
  (forall e,
      render_line E line = Raise e ->
      nonblank line = true
      /\ (json_loads E (PyStr.strip line) = JsonRaised e
          \/ e = AttributeError
             /\ exists payload,
                 json_loads E (PyStr.strip line) = Decoded payload))
  /\ render_line E line <> Hang
  /\ (forall e,
         nonblank line = true ->
         json_loads E (PyStr.strip line) = JsonRaised e ->
         render_line E line = Raise e)
  /\ (forall payload,
         nonblank line = true ->
         json_loads E (PyStr.strip line) = Decoded payload ->
         (forall d, payload <> PDict d) ->
         render_line E line = Raise AttributeError).
Proof.
  unfold render_line, nonblank.
  destruct (PyStr.nonempty (PyStr.strip line)); cbn [negb].
  2: { repeat split; discriminate. }
  destruct (json_loads E (PyStr.strip line)) as [payload | | e0].
  2: { repeat split; discriminate. }
  2: { repeat split; try discriminate.
       - left. congruence.
       - intros e _ [= ->]. reflexivity. }
  split; [| split; [| split]].
  - intros e H. split; [reflexivity |]. right.
    split; [| eauto]. unfold format_event in H. crunch H.
    all: injection H as <-; reflexivity.
  - intros H. unfold format_event in H. crunch H.
  - discriminate.
  - intros p _ [= <-] Hp.
    destruct payload; try reflexivity. now destruct (Hp entries).
Qed.

End RendererFails.
Lemma all_mode_registry_document_witness :
  main empty_list_registry
    {| a_prompt := DEFAULT_PROMPT; a_tasks := None; a_all := true;
       a_tasks_state := TASKS_STATE_PATH; a_max_rounds := 3 |} []
  = (Ok 0, [EvLoad TASKS_STATE_PATH;
            EvWrite Stdout ("No tasks to run." ^^ PyStr.nl)]).
Proof.
  exact (proj1 (@all_mode_registry_document empty_list_registry
                  {| a_prompt := DEFAULT_PROMPT; a_tasks := None;
                     a_all := true; a_tasks_state := TASKS_STATE_PATH;
                     a_max_rounds := 3 |} []
                  eq_refl (or_introl eq_refl)) eq_refl).
Defined.

Lemma renderer_failure_witness :
  render_line second_task_stalls ("[1, 2]" ^^ PyStr.nl) = Raise AttributeError
  /\ render_line (long_integers second_task_stalls) ("  12345" ^^ PyStr.nl)
     = Raise ValueError.
Proof.
  split.
  - refine (proj2 (proj2 (proj2 (renderer_failure second_task_stalls
                                   ("[1, 2]" ^^ PyStr.nl))))
              (PList [PInt 1; PInt 2]) _ _ _).
    + reflexivity.
    + vm_compute. reflexivity.
    + discriminate.
  - refine (proj1 (proj2 (proj2 (renderer_failure
                                   (long_integers second_task_stalls)
                                   ("  12345" ^^ PyStr.nl))))
              ValueError _ _).
    + reflexivity.
    + vm_compute. reflexivity.
Defined.
